(** * visualchg: the constraint-hypergraph document model

    A shallow embedding of the TypeScript sources of the visualchg
    extension: the tolerant parser [parseChgData]
    (chgOutlineProvider.ts), the reactive store [ChgState] (chgState.ts),
    the details view's value lookup and label update
    (chgDetailsProvider.ts), the simulation write-back
    (chgSimulateProvider.ts) and the simulation-path overlay of the graph
    editor (chgEditorProvider.ts); further the outline tree
    (chgOutlineProvider.ts), the graph built from a document and the
    focus layout (chgEditorProvider.ts), the node, edge and frame
    operations (chgOperationsProvider.ts), the frame bootstrap
    (extension.ts) and the value, constant-flag and handle edits of the
    details view (chgDetailsProvider.ts).

    Modelling conventions.
    - A document is identified with the value [JSON.parse] returns for its
      text.  Objects are association lists of their own properties, in
      enumeration order, with pairwise distinct keys.  [JS.lookup],
      [JS.set] and [JS.delete] act on own properties; where the code reads
      or writes under a key taken from the document or typed by the user,
      the members inherited from [Object.prototype], the setter behind
      [__proto__] and the place of array indices in the enumeration order
      are followed by [JS.read], [JS.put] and [JS.inherited].
    - Numbers are integers, and no claim depends on fractions; [String]
      prints them in plain decimal where a double holds them exactly
      ([JS.exact]).
    - An operation that can raise in JavaScript returns a [completion]; the
      sources are modules, hence strict-mode code.  [String] raises on an
      object with an own [toString] entry ([JS.String_]).
    - Event emitters are modelled by composing a setter with the listeners
      that change state, as many as are subscribed; listeners that only
      repaint a view are omitted. *)

From Stdlib Require Import List String Ascii ZArith Bool Lia DecimalString.
From Stdlib Require DecimalZ QArith.
Import ListNotations.
Local Open Scope string_scope.
Local Open Scope list_scope.

(** ** JavaScript values *)

Module JS.

Local Unset Elimination Schemes.
Inductive json : Type :=
| JNull
| JBool (b : bool)
| JNum (n : Z)
| JStr (s : string)
| JArr (items : list json)
| JObj (props : list (string * json)).
Local Set Elimination Schemes.

(** A JavaScript value reachable from parsed JSON: [None] is [undefined]. *)
Definition value : Type := option json.
Definition undefined : value := None.

Inductive error : Type := SyntaxError | TypeError.

Inductive completion (A : Type) : Type :=
| Normal (a : A)
| Throw (e : error).
Arguments Normal {A} a.
Arguments Throw {A} e.

Definition bind {A B} (c : completion A) (k : A -> completion B) : completion B :=
  match c with
  | Normal a => k a
  | Throw e => Throw e
  end.

(** [try { body } catch { return null }] *)
Definition try_or_null {A} (c : completion A) : option A :=
  match c with
  | Normal a => Some a
  | Throw _ => None
  end.

Fixpoint lookup {A} (k : string) (o : list (string * A)) : option A :=
  match o with
  | [] => None
  | (k', v) :: rest => if String.eqb k' k then Some v else lookup k rest
  end.

(** [o[k] = v]: overwrite in place, or append a new own property. *)
Fixpoint set {A} (k : string) (v : A) (o : list (string * A)) : list (string * A) :=
  match o with
  | [] => [(k, v)]
  | (k', v') :: rest =>
      if String.eqb k' k then (k', v) :: rest else (k', v') :: set k v rest
  end.

(** [delete o[k]] *)
Definition delete {A} (k : string) (o : list (string * A)) : list (string * A) :=
  filter (fun kv => negb (String.eqb (fst kv) k)) o.

(** [v.k]: a [TypeError] on [null] and [undefined]; the property names the
    program reads are not built-in properties of arrays, strings, numbers
    or booleans, so there the result is [undefined]. *)
Definition get (v : value) (k : string) : completion value :=
  match v with
  | None | Some JNull => Throw TypeError
  | Some (JObj o) => Normal (lookup k o)
  | Some _ => Normal undefined
  end.

(** [v?.k] *)
Definition get_opt (v : value) (k : string) : value :=
  match v with
  | Some (JObj o) => lookup k o
  | _ => undefined
  end.

(** [a ?? b] *)
Definition nullish (v : value) : bool :=
  match v with
  | None | Some JNull => true
  | _ => false
  end.

Definition coalesce (a b : value) : value := if nullish a then b else a.

Definition truthy (v : value) : bool :=
  match v with
  | None | Some JNull => false
  | Some (JBool b) => b
  | Some (JNum n) => negb (Z.eqb n 0)
  | Some (JStr s) => negb (String.eqb s "")
  | Some (JArr _) | Some (JObj _) => true
  end.

Definition isArray (v : value) : bool :=
  match v with Some (JArr _) => true | _ => false end.

(** [typeof v === 'object'] *)
Definition typeof_object (v : value) : bool :=
  match v with
  | Some JNull | Some (JArr _) | Some (JObj _) => true
  | _ => false
  end.

(** [v === s] for a string [s] *)
Definition strict_eq_str (v : value) (s : string) : bool :=
  match v with Some (JStr s') => String.eqb s' s | _ => false end.

Definition Z_to_string (n : Z) : string := NilEmpty.string_of_int (Z.to_int n).
Definition index_to_string (i : nat) : string := Z_to_string (Z.of_nat i).

(** The text [String(v)] returns for a parsed value, when it returns
    (see [raises]).  A number is printed as its decimal numeral, which is
    what JavaScript prints for the integers it represents exactly (see
    [exact]). *)
Fixpoint ToString (j : json) : string :=
  match j with
  | JNull => "null"
  | JBool true => "true"
  | JBool false => "false"
  | JNum n => Z_to_string n
  | JStr s => s
  | JArr items =>
      (fix join (l : list json) : string :=
         match l with
         | [] => ""
         | x :: rest =>
             let sx := match x with JNull => "" | _ => ToString x end in
             match rest with
             | [] => sx
             | _ :: _ => (sx ++ "," ++ join rest)%string
             end
         end) items
  | JObj _ => "[object Object]"
  end.

Fixpoint indexed_from {A} (i : nat) (l : list A) : list (string * A) :=
  match l with
  | [] => []
  | x :: rest => (index_to_string i, x) :: indexed_from (S i) rest
  end.

(** [Object.entries(v)] for a non-nullish parsed value *)
Definition entries (j : json) : list (string * json) :=
  match j with
  | JObj o => o
  | JArr items => indexed_from 0 items
  | _ => []
  end.

(** *** Conversion to a string that can raise *)

(** Whether [String(v)] raises a [TypeError]: [v] is an object with an own
    property [toString] (no parsed value is callable, and neither an own
    nor the inherited [valueOf] yields a primitive), or an array holding
    such an element, since [Array.prototype.join] converts every element
    but [null] and [undefined]. *)
Fixpoint raises (j : json) : bool :=
  match j with
  | JObj o => match lookup "toString" o with Some _ => true | None => false end
  | JArr items =>
      (fix any (l : list json) : bool :=
         match l with
         | [] => false
         | x :: rest => raises x || any rest
         end) items
  | _ => false
  end.

(** [String(v)] *)
Definition String_ (j : json) : completion string :=
  if raises j then Throw TypeError else Normal (ToString j).

(** The integers a double represents exactly, one by one: below 2^53 in
    magnitude.  JavaScript prints these in plain decimal. *)
Definition safe_integer (n : Z) : bool := (Z.abs n <? 9007199254740992)%Z.

(** Every number [String(v)] has to print is a [safe_integer]. *)
Fixpoint exact (j : json) : bool :=
  match j with
  | JNum n => safe_integer n
  | JArr items =>
      (fix all (l : list json) : bool :=
         match l with
         | [] => true
         | x :: rest => exact x && all rest
         end) items
  | _ => true
  end.

(** *** Properties under computed keys *)

(** The names every object inherits from [Object.prototype]. *)
Definition Object_prototype : list string :=
  ["constructor"; "__defineGetter__"; "__defineSetter__"; "hasOwnProperty";
   "__lookupGetter__"; "__lookupSetter__"; "isPrototypeOf"; "propertyIsEnumerable";
   "toString"; "valueOf"; "__proto__"; "toLocaleString"].

Definition inherited (k : string) : bool := existsb (String.eqb k) Object_prototype.

(** An array index: the canonical numeral of an integer below 2^32 - 1.
    Own properties under such keys are enumerated first, in ascending
    order, before the other keys in the order of their creation. *)
Definition array_index (k : string) : option Z :=
  match NilEmpty.uint_of_string k with
  | Some u =>
      let n := Z.of_uint u in
      if String.eqb (Z_to_string n) k && (n <? 4294967295)%Z then Some n else None
  | None => None
  end.

(** A key that is neither inherited nor an array index: on a plain object
    it is found only as an own property and a new property under it is
    enumerated last. *)
Definition ordinary (k : string) : bool :=
  negb (inherited k) && match array_index k with Some _ => false | None => true end.

(** The place of a new array index [i] among the own properties. *)
Fixpoint insert_index {A} (i : Z) (k : string) (v : A) (o : list (string * A))
  : list (string * A) :=
  match o with
  | [] => [(k, v)]
  | (k', v') :: rest =>
      match array_index k' with
      | Some j => if (j <? i)%Z then (k', v') :: insert_index i k v rest
                  else (k, v) :: o
      | None => (k, v) :: o
      end
  end.

(** [o[k] = v] on an object whose prototype is [Object.prototype], as
    [JSON.stringify] sees the object afterwards: an own property is
    overwritten in place; without an own property, [__proto__] reaches the
    setter of [Object.prototype], which creates none; a new array index
    takes its place among the indices and any other new key comes last. *)
Definition put {A} (k : string) (v : A) (o : list (string * A)) : list (string * A) :=
  match lookup k o with
  | Some _ => set k v o
  | None =>
      if String.eqb k "__proto__" then o
      else
        match array_index k with
        | Some i => insert_index i k v o
        | None => set k v o
        end
  end.

(** What [o[k]] finds on an object the parser built. *)
Inductive member (A : Type) : Type :=
| Own (a : A)          (* the entry made under [k] *)
| Builtin (k : string) (* [Object.prototype[k]]: a function, or for [__proto__] the prototype itself *)
| Absent               (* [undefined] *)
| Beyond.              (* to be sought on a prototype the model does not follow *)
Arguments Own {A} a.
Arguments Builtin {A} k.
Arguments Absent {A}.
Arguments Beyond {A}.

(** The parser fills fresh objects by assignment.  The entry it makes
    under [__proto__] is not an own property: the setter of
    [Object.prototype] takes the value as the new prototype, and reading
    [__proto__] gives it back.  The lists of the canonical model keep that
    entry under its key; [read] follows the prototype chain as far as
    [Object.prototype] when the prototype is still the original one. *)
Definition read {A} (k : string) (o : list (string * A)) : member A :=
  match lookup k o with
  | Some a => Own a
  | None =>
      match lookup "__proto__" o with
      | Some _ => Beyond
      | None => if inherited k then Builtin k else Absent
      end
  end.

End JS.

Import JS.

Declare Scope js_scope.
Delimit Scope js_scope with js.
Notation "x <- c ;; k" := (bind c (fun x => k))
  (at level 61, c at next level, right associativity) : js_scope.
Local Open Scope js_scope.

(** ** Data model (chgOutlineProvider.ts) *)

Module ChgNode.
Record t : Type := mk {
  label : string;
  value : JS.value;
  is_constant : JS.value;
  description : JS.value;
  units : JS.value;
  constant : JS.value
}.
End ChgNode.

Module ChgSource.
Record t : Type := mk { handle : string; label : string }.
End ChgSource.

Module ChgEdge.
Record t : Type := mk {
  label : string;
  weight : JS.value;
  constant : JS.value;
  sources : list ChgSource.t;
  target : string;
  rel : JS.value
}.
End ChgEdge.

Record ChgData : Type := mkChgData {
  nodes : list ChgNode.t;
  edges : list ChgEdge.t;
  frames : list (string * list (string * list json));
  frameNames : list string
}.

(** ** Schema normalizer: [parseChgData] *)

Module Normalizer.

(** One iteration of [for (const n of hg.nodes)]: the nodes pushed. *)
Definition parse_node (n : json) : completion (list ChgNode.t) :=
  match get_opt (Some n) "label" with
  | Some (JStr l) =>
      ic <- get (Some n) "is_constant" ;;
      c <- get (Some n) "constant" ;;
      let isConst := coalesce ic c in
      v <- get (Some n) "value" ;;
      d <- get (Some n) "description" ;;
      u <- get (Some n) "units" ;;
      Normal [ChgNode.mk l v isConst d u isConst]
  | _ => Normal []
  end.

(** A [for ... of] loop whose body pushes onto one output array. *)
Fixpoint for_of {A B} (body : A -> completion (list B)) (l : list A)
  : completion (list B) :=
  match l with
  | [] => Normal []
  | x :: rest =>
      out <- body x ;;
      outs <- for_of body rest ;;
      Normal (out ++ outs)
  end.

(** One source pushed: [{ handle, label: String(label) }]. *)
Definition parse_source (hl : string * json) : completion (list ChgSource.t) :=
  label <- String_ (snd hl) ;;
  Normal [ChgSource.mk (fst hl) label].

Definition parse_sources (rawSources : JS.value) : completion (list ChgSource.t) :=
  match rawSources with
  | Some (JArr items) => for_of parse_source (indexed_from 0 items)
  | Some (JObj o) => for_of parse_source o
  | _ => Normal []
  end.

Definition parse_edge (e : json) : completion (list ChgEdge.t) :=
  match get_opt (Some e) "label" with
  | Some (JStr l) =>
      sn <- get (Some e) "source_nodes" ;;
      ss <- get (Some e) "sources" ;;
      let rawSources := coalesce sn ss in
      sources <- parse_sources rawSources ;;
      w <- get (Some e) "weight" ;;
      c <- get (Some e) "cost" ;;
      k <- get (Some e) "constant" ;;
      t <- get (Some e) "target" ;;
      r <- get (Some e) "rel" ;;
      Normal [ChgEdge.mk l (coalesce w c) k sources
                (match t with Some (JStr s) => s | _ => "" end) r]
  | _ => Normal []
  end.

Definition wrap_values (values : json) : list json :=
  match values with
  | JArr items => items
  | _ => [values]
  end.

(** The inner loop over [Object.entries(frameData)], writing into the
    fresh object [frames[frameName]].  Here and in [parse_frames] the
    entry listed under [__proto__], if any, is the prototype the
    assignment gave the object, not an own property (see [JS.read]). *)
Definition parse_frame (frameData : json) : list (string * list json) :=
  fold_left (fun acc nv => set (fst nv) (wrap_values (snd nv)) acc)
            (entries frameData) [].

Definition parse_frames (rawFrames : JS.value)
  : list (string * list (string * list json)) * list string :=
  if truthy rawFrames && typeof_object rawFrames then
    match rawFrames with
    | Some fr =>
        fold_left
          (fun acc fd =>
             let '(frames, frameNames) := acc in
             let '(frameName, frameData) := fd in
             if truthy (Some frameData) && typeof_object (Some frameData)
             then (set frameName (parse_frame frameData) frames,
                   frameNames ++ [frameName])
             else acc)
          (entries fr) ([], [])
    | None => ([], [])
    end
  else ([], []).

(** The body of the [try] block, after [JSON.parse]. *)
Definition parse_raw (raw : json) : completion ChgData :=
  h <- get (Some raw) "hypergraph" ;;
  let hg := coalesce h (Some raw) in
  hn <- get hg "nodes" ;;
  nodes <- match hn with
           | Some (JArr items) => for_of parse_node items
           | _ => Normal []
           end ;;
  he <- get hg "edges" ;;
  edges <- match he with
           | Some (JArr items) => for_of parse_edge items
           | _ => Normal []
           end ;;
  rf <- get (Some raw) "frames" ;;
  let '(frames, frameNames) := parse_frames rf in
  Normal (mkChgData nodes edges frames frameNames).

Section WithHost.
(** The host's [JSON.parse]. *)
Variable JSON_parse : string -> completion json.

Definition parseChgData (text : string) : option ChgData :=
  try_or_null (raw <- JSON_parse text ;; parse_raw raw).
End WithHost.

End Normalizer.

(** ** Selection / view state store (chgState.ts) *)

Inductive SelectedKind : Type := NODE | EDGE | PATH.

Module SimPath.
Record t : Type := mk {
  targetNode : string;
  nodes : list string;
  edges : list string;
  cost : Z;
  numEdges : Z;
  numNodes : Z
}.
End SimPath.

Module ChgState.

Record t : Type := mk {
  _kind : option SelectedKind;
  _label : option string;
  _data : option ChgData;
  _currentFrame : option string;
  _layout : string;
  _simPath : option SimPath.t
}.

Definition init : t := mk None None None None "grid" None.

(** Truthiness of a [string | null] field. *)
Definition truthy_str (s : option string) : bool :=
  match s with
  | Some x => negb (String.eqb x "")
  | None => false
  end.

Definition includes (l : list string) (x : string) : bool :=
  existsb (String.eqb x) l.

Definition setSelection (st : t) (kind : option SelectedKind) (label : option string) : t :=
  mk kind label (_data st) (_currentFrame st) (_layout st) (_simPath st).

Definition with_currentFrame (st : t) (frame : option string) : t :=
  mk (_kind st) (_label st) (_data st) frame (_layout st) (_simPath st).

Definition setData (st : t) (data : option ChgData) : t :=
  let st1 := mk (_kind st) (_label st) data (_currentFrame st) (_layout st) (_simPath st) in
  match data with
  | Some d =>
      match frameNames d with
      | first :: _ =>
          if negb (truthy_str (_currentFrame st1))
             || negb (match _currentFrame st1 with
                      | Some cf => includes (frameNames d) cf
                      | None => false
                      end)
          then with_currentFrame st1 (Some first)
          else st1
      | [] => st1
      end
  | None => with_currentFrame st1 None
  end.

Definition setLayout (st : t) (layout : string) : t :=
  mk (_kind st) (_label st) (_data st) (_currentFrame st) layout (_simPath st).

Definition setCurrentFrame (st : t) (frame : option string) : t :=
  with_currentFrame st frame.

Definition setSimPath (st : t) (path : option SimPath.t) : t :=
  mk (_kind st) (_label st) (_data st) (_currentFrame st) (_layout st) path.

Definition clearSelection (st : t) : t := setSelection st None None.

End ChgState.

(** ** Outline provider: last-good-state loading (chgOutlineProvider.ts) *)

Module ChgOutlineProvider.

Record t : Type := mk { data : option ChgData }.

Section WithHost.
Variable JSON_parse : string -> completion json.

(** Returns the provider and the boolean result. *)
Definition loadFromDocument (p : t) (text : string) : t * bool :=
  match Normalizer.parseChgData JSON_parse text with
  | Some parsed => (mk (Some parsed), true)
  | None => (p, false)
  end.
End WithHost.

Definition getData (p : t) : option ChgData := data p.

End ChgOutlineProvider.

(** ** Mutable access to the raw document (getNodes / getEdges) *)

Module Raw.

(** [getNodes] and [getEdges] differ only in the key: the array found under
    [raw.hypergraph] when that is truthy, under [raw] otherwise, replaced by
    a fresh empty array when it is not an array.  The result is the
    document after that repair together with the array.  A property
    written onto an array is not serialised, and writing one onto a
    primitive raises in strict mode. *)
Definition get_mutable_array (k : string) (raw : json) : completion (json * list json) :=
  h <- get (Some raw) "hypergraph" ;;
  if truthy h then
    match h, raw with
    | Some (JObj hg), JObj o =>
        match lookup k hg with
        | Some (JArr items) => Normal (raw, items)
        | _ => Normal (JObj (set "hypergraph" (JObj (set k (JArr []) hg)) o), [])
        end
    | Some (JArr _), _ => Normal (raw, [])
    | _, _ => Throw TypeError
    end
  else
    match raw with
    | JObj o =>
        match lookup k o with
        | Some (JArr items) => Normal (raw, items)
        | _ => Normal (JObj (set k (JArr []) o), [])
        end
    | JArr _ => Normal (raw, [])
    | _ => Throw TypeError
    end.

Definition getNodes : json -> completion (json * list json) := get_mutable_array "nodes".
Definition getEdges : json -> completion (json * list json) := get_mutable_array "edges".

(** The document after the array returned by [get_mutable_array k] has
    been mutated into [items]. *)
Definition put_mutable_array (k : string) (raw : json) (items : list json) : json :=
  match raw with
  | JObj o =>
      if truthy (lookup "hypergraph" o) then
        match lookup "hypergraph" o with
        | Some (JObj hg) => JObj (set "hypergraph" (JObj (set k (JArr items) hg)) o)
        | _ => raw
        end
      else JObj (set k (JArr items) o)
  | _ => raw
  end.

(** [nodes.find(n => n.label === nodeLabel)], as the index found. *)
Fixpoint find_by_label (nodeLabel : string) (l : list json) : completion (option nat) :=
  match l with
  | [] => Normal None
  | n :: rest =>
      lbl <- get (Some n) "label" ;;
      if strict_eq_str lbl nodeLabel then Normal (Some 0%nat)
      else r <- find_by_label nodeLabel rest ;; Normal (option_map S r)
  end.

Fixpoint update_nth {A} (i : nat) (f : A -> A) (l : list A) : list A :=
  match l, i with
  | [], _ => []
  | x :: rest, O => f x :: rest
  | x :: rest, S j => x :: update_nth j f rest
  end.

(** [o.k = v] followed by serialisation: an [undefined] value drops the
    property. *)
Definition assign (k : string) (v : JS.value) (j : json) : json :=
  match j with
  | JObj o =>
      match v with
      | Some x => JObj (set k x o)
      | None => JObj (delete k o)
      end
  | _ => j
  end.

Fixpoint mapM {A B} (f : A -> completion B) (l : list A) : completion (list B) :=
  match l with
  | [] => Normal []
  | x :: rest => y <- f x ;; ys <- mapM f rest ;; Normal (y :: ys)
  end.

End Raw.

(** ** Details view (chgDetailsProvider.ts) *)

Module ChgDetailsProvider.
Import ChgState.

(** What [_getNodeValue] returns. *)
Inductive shown : Type :=
| Value (v : JS.value) (* a value of the canonical model *)
| Member (k : string)  (* the member [k] of [Object.prototype] *)
| Unresolved.          (* read from a prototype the model does not follow *)

(** Resolves a node's display value from the current frame
    (non-constant) or [node.value] (constant).  [data.frames] and its
    frames are objects the parser built; both are read under computed
    keys, so that a member of [Object.prototype] is found where there is
    no entry. *)
Definition _getNodeValue (state : ChgState.t) (node : ChgNode.t) : shown :=
  let isConst := coalesce (ChgNode.is_constant node) (ChgNode.constant node) in
  if truthy isConst then Value (ChgNode.value node)
  else
    match _currentFrame state, _data state with
    | Some currentFrame, Some data =>
        if truthy_str (Some currentFrame) then
          match read currentFrame (frames data) with
          | Own frame =>
              match read (ChgNode.label node) frame with
              | Own frameNodeData => Value (hd_error frameNodeData)
              | Builtin k => Member k
              | Absent => Value (ChgNode.value node)
              | Beyond => Unresolved
              end
          | Builtin _ | Beyond => Unresolved
          | Absent => Value (ChgNode.value node)
          end
        else Value (ChgNode.value node)
    | _, _ => Value (ChgNode.value node)
    end.

Definition rename_ref (nodeLabel newLabel : string) (s : json) : json :=
  if strict_eq_str (Some s) nodeLabel then JStr newLabel else s.

(** The body of [for (const e of edges)] in the label branch. *)
Definition rename_edge (nodeLabel newLabel : string) (e : json) : completion json :=
  match e with
  | JNull => Throw TypeError
  | JObj o =>
      let o1 := match lookup "source_nodes" o with
                | Some (JArr l) => set "source_nodes" (JArr (map (rename_ref nodeLabel newLabel) l)) o
                | _ => o
                end in
      let o2 := match lookup "sources" o1 with
                | Some (JArr l) => set "sources" (JArr (map (rename_ref nodeLabel newLabel) l)) o1
                | _ => o1
                end in
      let o3 := if strict_eq_str (lookup "target" o2) nodeLabel
                then set "target" (JStr newLabel) o2 else o2 in
      Normal (JObj o3)
  | _ => Normal e
  end.

(** One frame's data in the label branch, as it is serialised afterwards.
    Without an own entry, a label that names a member of
    [Object.prototype] is defined as well, and that member is copied: a
    function is left out when the document is serialised, and
    [Object.prototype] itself is written as an empty object.  Index and
    built-in properties of arrays and strings are not modelled: frame data
    of those shapes is left as it is. *)
Definition rename_frame (nodeLabel newLabel : string) (frameData : json) : json :=
  match frameData with
  | JObj o =>
      match lookup nodeLabel o with
      | Some v => JObj (delete nodeLabel (put newLabel v o))
      | None =>
          if inherited nodeLabel then
            if String.eqb nodeLabel "__proto__"
            then JObj (put newLabel (JObj []) o)
            else JObj (delete newLabel o)
          else frameData
      end
  | _ => frameData
  end.

Definition rename_frames (nodeLabel newLabel : string) (raw : json) : json :=
  match raw with
  | JObj o =>
      if truthy (lookup "frames" o) then
        match lookup "frames" o with
        | Some (JObj fr) =>
            JObj (set "frames"
                    (JObj (map (fun kv => (fst kv, rename_frame nodeLabel newLabel (snd kv))) fr)) o)
        | Some (JArr items) =>
            JObj (set "frames" (JArr (map (rename_frame nodeLabel newLabel) items)) o)
        | _ => raw
        end
      else raw
  | _ => raw
  end.

(** [_updateNode(raw, nodeLabel, 'label', value)]: the mutated document
    and the store after [setSelection]. *)
Definition _updateNode_label (state : ChgState.t) (raw : json)
           (nodeLabel : string) (value : json) : completion (json * ChgState.t) :=
  rn <- Raw.getNodes raw ;;
  let '(raw1, nodes) := rn in
  found <- Raw.find_by_label nodeLabel nodes ;;
  match found with
  | None => Normal (raw1, state)
  | Some i =>
      newLabel <- String_ value ;;
      re <- Raw.getEdges raw1 ;;
      let '(raw2, edges) := re in
      edges' <- Raw.mapM (rename_edge nodeLabel newLabel) edges ;;
      let raw3 := Raw.put_mutable_array "edges" raw2 edges' in
      let raw4 := rename_frames nodeLabel newLabel raw3 in
      let nodes' := Raw.update_nth i (Raw.assign "label" (Some (JStr newLabel))) nodes in
      let raw5 := Raw.put_mutable_array "nodes" raw4 nodes' in
      Normal (raw5, setSelection state (Some NODE) (Some newLabel))
  end.


(** [s.replace(/c/g, rep)] for a single character [c] *)
Fixpoint replace_all (c : ascii) (rep : string) (s : string) : string :=
  match s with
  | EmptyString => EmptyString
  | String a rest =>
      if Ascii.eqb a c then (rep ++ replace_all c rep rest)%string
      else String a (replace_all c rep rest)
  end.

Definition double_quote : ascii := ascii_of_nat 34.

(** HTML-escapes a value for the form templates. *)
Definition esc (v : JS.value) : string :=
  let s := match coalesce v (Some (JStr "")) with
           | Some j => ToString j
           | None => ""
           end in
  replace_all double_quote "&quot;"
    (replace_all ">" "&gt;"
       (replace_all "<" "&lt;"
          (replace_all "&" "&amp;" s))).

End ChgDetailsProvider.

(** ** Simulation view (chgSimulateProvider.ts) *)

Module SimResult.
(** The object the solver script prints, as [_runScript] types it (the
    fields [tree] and [msg] only feed the output channel). *)
Record t : Type := mk {
  value : JS.value;
  cost : option Z;
  error : option string;
  target_node : option string;
  path_nodes : option (list string);
  path_edges : option (list string);
  num_nodes : option Z;
  num_edges : option Z
}.
End SimResult.

Module ChgSimulateProvider.
Import ChgState.

(** The [onDataChange] listener registered in [resolveWebviewView].  Only
    clears the path if the target node no longer exists in the graph, which
    preserves the highlight through value updates. *)
Definition onDataChange (state : ChgState.t) : ChgState.t :=
  match _simPath state with
  | Some sp =>
      if negb (match _data state with
               | Some data =>
                   existsb (fun n => String.eqb (ChgNode.label n) (SimPath.targetNode sp))
                           (nodes data)
               | None => false
               end)
      then setSimPath state None
      else state
  | None => state
  end.



(** [_onDataChange.fire()]: every subscribed listener runs once. *)
Definition fire (subs : nat) (state : ChgState.t) : ChgState.t :=
  Nat.iter subs onDataChange state.

(** A document as [_writeSimulationResult] sees it: the completion of
    [JSON.parse(doc.getText())]. *)
Definition document : Type := completion json.

(** [raw.frames[frameKey][nodeLabel] = [value]] with the two repairs
    before it; [o] holds the properties of [raw] and the result is the
    document as it is serialised afterwards.  Where the frame key is no
    own property of [frames] but names a member of [Object.prototype],
    that member is read as the frame: the value is written onto it and
    nothing of it reaches the document; [refuses] tells whether the member
    rejects the assignment, as a function does for its [name].  A property
    written onto an array is lost when the document is serialised
    (index-like keys on arrays are outside the model). *)
Definition write_frame_entry (refuses : string -> string -> bool)
           (o : list (string * json))
           (frameKey nodeLabel : string) (value : JS.value) : completion json :=
  let cell := JArr [match value with Some v => v | None => JNull end] in
  let rawFrames := if truthy (lookup "frames" o) then lookup "frames" o
                   else Some (JObj []) in
  match rawFrames with
  | Some (JObj fr) =>
      match lookup frameKey fr with
      | None =>
          if inherited frameKey then
            if refuses frameKey nodeLabel then Throw TypeError
            else Normal (JObj (set "frames" (JObj fr) o))
          else
            Normal (JObj (set "frames"
                            (JObj (put frameKey (JObj (put nodeLabel cell [])) fr)) o))
      | Some found =>
          match (if truthy (Some found) then found else JObj []) with
          | JObj fo =>
              Normal (JObj (set "frames"
                              (JObj (set frameKey (JObj (put nodeLabel cell fo)) fr)) o))
          | JArr _ => Normal (JObj (set "frames" (JObj fr) o))
          | _ => Throw TypeError
          end
      end
  | Some (JArr _) => Normal (JObj o)
  | _ => Throw TypeError
  end.

(** The new document; an early [return] leaves the text untouched. *)
Definition _writeSimulationResult (refuses : string -> string -> bool)
           (doc : document) (nodeLabel : string)
           (value : JS.value) (frameKey : string) : completion document :=
  match doc with
  | Throw _ => Normal doc
  | Normal raw =>
      rn <- Raw.getNodes raw ;;
      let '(raw1, nodes) := rn in
      found <- Raw.find_by_label nodeLabel nodes ;;
      match found with
      | None => Normal doc
      | Some i =>
          let node := nth i nodes JNull in
          ic <- get (Some node) "is_constant" ;;
          c <- get (Some node) "constant" ;;
          let isConst := coalesce ic c in
          let write_node_value :=
            Raw.put_mutable_array "nodes" raw1
              (Raw.update_nth i (Raw.assign "value" value) nodes) in
          if truthy isConst then Normal (Normal write_node_value)
          else if negb (String.eqb frameKey "") then
            match raw1 with
            | JObj o => raw' <- write_frame_entry refuses o frameKey nodeLabel value ;;
                        Normal (Normal raw')
            | _ => Normal (Normal raw1)
            end
          else Normal (Normal write_node_value)
      end
  end.

Inductive pythonPath : Type :=
| Detecting          (* undefined *)
| NotFound           (* null *)
| Python (path : string).

Record host : Type := mkHost {
  getPythonPath : pythonPath;
  hasConstrainthg : bool;
  getActiveChgUri : option string;
  (** [_runScript], by output node and frame key *)
  runScript : string -> string -> SimResult.t;
  (** whether the member of [Object.prototype] named first rejects an
      assignment to its property named second *)
  builtinRefuses : string -> string -> bool
}.

Definition path_of_result (target_node : string) (path_nodes : list string)
           (result : SimResult.t) : SimPath.t :=
  SimPath.mk target_node path_nodes
    (match SimResult.path_edges result with Some l => l | None => [] end)
    (match SimResult.cost result with Some c => c | None => 0%Z end)
    (match SimResult.num_edges result with Some c => c | None => 0%Z end)
    (match SimResult.num_nodes result with Some c => c | None => 0%Z end).

(** [_simulate]: the document and the store when the promise settles; a
    [Throw] is a rejected promise, with neither changed. *)
Definition _simulate (h : host) (state : ChgState.t) (doc : document)
  : completion (document * ChgState.t) :=
  match getPythonPath h with
  | Detecting | NotFound => Normal (doc, state)
  | Python _ =>
      if negb (hasConstrainthg h) then Normal (doc, state)
      else
        match getActiveChgUri h with
        | None => Normal (doc, state)
        | Some _ =>
            match _kind state, _label state with
            | Some NODE, Some label =>
                if negb (truthy_str (Some label)) then Normal (doc, state)
                else
                  let frameKey := match _currentFrame state with
                                  | Some f => f
                                  | None => ""
                                  end in
                  let result := runScript h label frameKey in
                  if truthy_str (SimResult.error result) then Normal (doc, state)
                  else
                    doc' <- _writeSimulationResult (builtinRefuses h) doc label
                              (SimResult.value result) frameKey ;;
                    match SimResult.target_node result, SimResult.path_nodes result with
                    | Some tn, Some pn =>
                        Normal (doc', setSimPath state (Some (path_of_result tn pn result)))
                    | _, _ => Normal (doc', state)
                    end
            | _, _ => Normal (doc, state)
            end
        end
  end.


(** [v !== undefined && v !== null && v !== ''] *)
Definition has_content (v : JS.value) : bool :=
  match v with
  | None | Some JNull => false
  | Some (JStr s) => negb (String.eqb s "")
  | Some _ => true
  end.

(** Whether the selected node already has a value; the frames of the
    canonical model hold arrays.  [None] where the answer rests on a
    prototype the model does not follow. *)
Definition _selectedNodeHasValue (state : ChgState.t) : option bool :=
  match _kind state, _label state, _data state with
  | Some NODE, Some label, Some data =>
      if negb (truthy_str (Some label)) then Some false
      else
        match find (fun n => String.eqb (ChgNode.label n) label) (nodes data) with
        | None => Some false
        | Some node =>
            let isConst := coalesce (ChgNode.is_constant node) (ChgNode.constant node) in
            if truthy isConst then Some (has_content (ChgNode.value node))
            else
              match (if truthy_str (_currentFrame state)
                     then match _currentFrame state with
                          | Some currentFrame => read currentFrame (frames data)
                          | None => Absent
                          end
                     else Absent) with
              | Own frame =>
                  match read label frame with
                  | Own v =>
                      Some match v with
                           | [] => false
                           | v0 :: _ => has_content (Some v0)
                           end
                  | Builtin _ => Some true
                  | Absent => Some false
                  | Beyond => None
                  end
              | Builtin _ | Beyond => None
              | Absent => Some (has_content (ChgNode.value node))
              end
        end
  | _, _, _ => Some false
  end.

End ChgSimulateProvider.

(** ** Extension wiring (extension.ts): the reparse cycle *)

Module Extension.

(** [updateFromDocument] for a .chg document, up to the listeners of
    [onDataChange], of which [subs] subscriptions of the simulate view's are
    alive; the later [ensureFrame0] edit is a separate cycle. *)
Section WithHost.
Variable JSON_parse : string -> completion json.

Definition updateFromDocument (subs : nat) (p : ChgOutlineProvider.t) (state : ChgState.t)
           (text : string) : ChgOutlineProvider.t * ChgState.t :=
  let '(p', _) := ChgOutlineProvider.loadFromDocument JSON_parse p text in
  let data := ChgOutlineProvider.getData p' in
  (p', ChgSimulateProvider.fire subs (ChgState.setData state data)).
End WithHost.


End Extension.

(** ** Graph editor webview (chgEditorProvider.ts) *)

Module ChgEditorWebview.

(** The [data] of a Cytoscape element: a graph node (a CHG node or a
    hyperedge drawn as a node) or a connecting link. *)
Inductive ele_data : Type :=
| CyNode (id label type : string)
| CyEdge (id source target : string).

Record ele : Type := mkEle { data : ele_data; classes : list string }.

Definition data_id (d : ele_data) : string :=
  match d with CyNode i _ _ => i | CyEdge i _ _ => i end.
Definition id (e : ele) : string := data_id (data e).

Definition data_isEdge (d : ele_data) : bool :=
  match d with CyEdge _ _ _ => true | CyNode _ _ _ => false end.
Definition isEdge (e : ele) : bool := data_isEdge (data e).

Definition has (set : list string) (x : string) : bool := existsb (String.eqb x) set.

Definition source_links (nodeSet : list string) (edge : ChgEdge.t) : list ele_data :=
  flat_map
    (fun src =>
       let srcLabel := ChgSource.label src in
       if has nodeSet srcLabel
       then [CyEdge ("se:" ++ ChgEdge.label edge ++ ":" ++ srcLabel)
                    ("n:" ++ srcLabel) ("e:" ++ ChgEdge.label edge)]
       else [])
    (ChgEdge.sources edge).

Definition target_link (nodeSet : list string) (edge : ChgEdge.t) : list ele_data :=
  if negb (String.eqb (ChgEdge.target edge) "") && has nodeSet (ChgEdge.target edge)
  then [CyEdge ("te:" ++ ChgEdge.label edge)
               ("e:" ++ ChgEdge.label edge) ("n:" ++ ChgEdge.target edge)]
  else [].

Definition buildElements (d : option ChgData) : list ele_data :=
  match d with
  | None => []
  | Some d =>
      let nodeSet := map ChgNode.label (nodes d) in
      map (fun node => CyNode ("n:" ++ ChgNode.label node) (ChgNode.label node) "chg-node")
          (nodes d)
      ++ flat_map
           (fun edge =>
              CyNode ("e:" ++ ChgEdge.label edge) (ChgEdge.label edge) "chg-edge"
              :: source_links nodeSet edge ++ target_link nodeSet edge)
           (edges d)
  end.

(** *** The Cytoscape element store *)

Definition cy : Type := list ele.

Definition getElementById (c : cy) (i : string) : option ele :=
  find (fun e => String.eqb (id e) i) c.

Definition hasElementWithId (c : cy) (i : string) : bool :=
  match getElementById c i with Some _ => true | None => false end.

(** Element descriptions whose id is already taken, in the graph or
    earlier in the same batch, are skipped. *)
Fixpoint fresh_ids (seen : list string) (jsons : list ele_data) : list ele_data :=
  match jsons with
  | [] => []
  | d :: rest =>
      if has seen (data_id d) then fresh_ids seen rest
      else d :: fresh_ids (data_id d :: seen) rest
  end.

(** An edge is restored only when both of its endpoints are in the graph. *)
Definition restore (c : cy) (d : ele_data) : cy :=
  match d with
  | CyNode _ _ _ => c ++ [mkEle d []]
  | CyEdge _ s t =>
      if hasElementWithId c s && hasElementWithId c t then c ++ [mkEle d []] else c
  end.

(** [cy.add(jsons)]: nodes are restored before edges. *)
Definition add (c : cy) (jsons : list ele_data) : cy :=
  let created := fresh_ids (map id c) jsons in
  fold_left restore
    (filter (fun d => negb (data_isEdge d)) created ++ filter data_isEdge created) c.

Definition hasClass (cls : string) (e : ele) : bool := has (classes e) cls.

Definition addClass (cls : string) (e : ele) : ele :=
  if hasClass cls e then e else mkEle (data e) (classes e ++ [cls]).

Definition removeClass (cls : string) (e : ele) : ele :=
  mkEle (data e) (filter (fun c => negb (String.eqb c cls)) (classes e)).

(** [cy.getElementById(i).addClass(cls)] *)
Definition addClassById (cls i : string) (c : cy) : cy :=
  map (fun e => if String.eqb (id e) i then addClass cls e else e) c.

(** [cy.getElementById(i).hasClass(cls)]; an empty collection has no class. *)
Definition hasClassById (cls i : string) (c : cy) : bool :=
  match getElementById c i with
  | Some e => hasClass cls e
  | None => false
  end.

(** [cy.elements().remove(); cy.add(buildElements(currentData))] *)
Definition rebuild (d : option ChgData) : cy := add [] (buildElements d).

(** The callback of [cy.edges().forEach] in [applySimPath]. *)
Definition mark_link (c : cy) (e : ele) : cy :=
  match data e with
  | CyEdge i s t =>
      if hasClassById "sim-path" s c && hasClassById "sim-path" t c
      then addClassById "sim-path" i c
      else c
  | CyNode _ _ _ => c
  end.

Definition applySimPath (path : SimPath.t) (c : cy) : cy :=
  let c1 := map (removeClass "sim-path") c in
  let c2 := fold_left (fun acc nodeLabel => addClassById "sim-path" ("n:" ++ nodeLabel) acc)
                      (SimPath.nodes path) c1 in
  let c3 := fold_left (fun acc edgeLabel => addClassById "sim-path" ("e:" ++ edgeLabel) acc)
                      (SimPath.edges path) c2 in
  fold_left mark_link (filter isEdge c3) c3.

Definition clearSimPath (c : cy) : cy := map (removeClass "sim-path") c.

End ChgEditorWebview.

(** ** Outline tree (chgOutlineProvider.ts) *)

Module ChgOutlineTree.

Inductive edge_role : Type := leading | trailing.
Inductive node_role : Type := source | target.

(** Tree item kinds (discriminated union). *)
Inductive ChgItemKind : Type :=
| nodes_root
| edges_root
| node (nodeLabel : string)
| edge (edgeLabel : string)
| edge_ref (edgeLabel parentId : string) (role : edge_role)
| node_ref (nodeLabel parentId : string) (role : node_role) (missing : bool).

Definition tag (kind : ChgItemKind) : string :=
  match kind with
  | nodes_root => "nodes-root"
  | edges_root => "edges-root"
  | node _ => "node"
  | edge _ => "edge"
  | edge_ref _ _ _ => "edge-ref"
  | node_ref _ _ _ _ => "node-ref"
  end.

Definition kindToId (kind : ChgItemKind) : string :=
  match kind with
  | nodes_root => "nodes-root"
  | edges_root => "edges-root"
  | node nodeLabel => "node:" ++ nodeLabel
  | edge edgeLabel => "edge:" ++ edgeLabel
  | edge_ref edgeLabel parentId _ => "edge-ref:" ++ edgeLabel ++ "@" ++ parentId
  | node_ref nodeLabel parentId _ _ => "node-ref:" ++ nodeLabel ++ "@" ++ parentId
  end.

Inductive TreeItemCollapsibleState : Type := None_ | Collapsed | Expanded.

(** [vscode.ThemeIcon]: an icon id and an optional theme colour. *)
Record ThemeIcon : Type := mkIcon { icon : string; color : option string }.

Record ChgOutlineItem : Type := mkItem {
  label : string;
  itemKind : ChgItemKind;
  collapsibleState : TreeItemCollapsibleState;
  id : string;
  contextValue : string;
  iconPath : option ThemeIcon;
  tooltip : option string
}.

(** The constructor of [ChgOutlineItem]. *)
Definition new_ChgOutlineItem (displayLabel : string) (itemKind : ChgItemKind)
           (collapsibleState : TreeItemCollapsibleState) : ChgOutlineItem :=
  let '(iconPath, tooltip) :=
    match itemKind with
    | node nodeLabel => (None, Some ("Node: " ++ nodeLabel)%string)
    | edge edgeLabel => (None, Some ("Edge: " ++ edgeLabel)%string)
    | node_ref nodeLabel _ role missing =>
        if missing
        then (Some (mkIcon "error" (Some "list.errorForeground")),
              Some ("Node " ++ String (ascii_of_nat 34) nodeLabel
                    ++ String (ascii_of_nat 34) " is not in the hypergraph")%string)
        else (Some (mkIcon (match role with
                            | target => "circle-filled"
                            | source => "circle-outline"
                            end) None),
              Some ("Node: " ++ nodeLabel)%string)
    | edge_ref edgeLabel _ role =>
        (Some (mkIcon (match role with
                       | leading => "debug-step-into"
                       | trailing => "debug-step-out"
                       end) None),
         Some ("Edge: " ++ edgeLabel)%string)
    | nodes_root | edges_root => (None, None)
    end in
  mkItem displayLabel itemKind collapsibleState (kindToId itemKind) (tag itemKind)
         iconPath tooltip.

(** [arr.join(sep)] on strings *)
Fixpoint join (sep : string) (l : list string) : string :=
  match l with
  | [] => ""
  | [x] => x
  | x :: rest => (x ++ sep ++ join sep rest)%string
  end.

(** The right arrow U+2192, in UTF-8. *)
Definition arrow : string :=
  String (ascii_of_nat 226) (String (ascii_of_nat 134) (String (ascii_of_nat 146) "")).

Definition formatEdgeLabel (edge : ChgEdge.t) : string :=
  let sources := join ", " (map ChgSource.label (ChgEdge.sources edge)) in
  (ChgEdge.label edge ++ ": {" ++ sources ++ "} " ++ arrow ++ " " ++ ChgEdge.target edge)%string.

Definition references_node (nodeLabel : string) (e : ChgEdge.t) : bool :=
  existsb (fun s => String.eqb (ChgSource.label s) nodeLabel) (ChgEdge.sources e).

(** [getChildren(element)] over the provider's data. *)
Definition getChildren (data : option ChgData) (element : option ChgOutlineItem)
  : list ChgOutlineItem :=
  match data with
  | None => []
  | Some d =>
      match element with
      | None =>
          [new_ChgOutlineItem "Nodes" nodes_root Expanded;
           new_ChgOutlineItem "Edges" edges_root Expanded]
      | Some element =>
          match itemKind element with
          | nodes_root =>
              map (fun n =>
                     let hasEdges :=
                       existsb (fun e => String.eqb (ChgEdge.target e) (ChgNode.label n)
                                         || references_node (ChgNode.label n) e)
                               (edges d) in
                     new_ChgOutlineItem (ChgNode.label n) (node (ChgNode.label n))
                       (if hasEdges then Collapsed else None_))
                  (nodes d)
          | edges_root =>
              map (fun e => new_ChgOutlineItem (formatEdgeLabel e) (edge (ChgEdge.label e))
                              Collapsed)
                  (edges d)
          | node nodeLabel =>
              let leadingRefs :=
                map (fun e => new_ChgOutlineItem (formatEdgeLabel e)
                                (edge_ref (ChgEdge.label e) ("lead:" ++ nodeLabel) leading)
                                None_)
                    (filter (fun e => String.eqb (ChgEdge.target e) nodeLabel) (edges d)) in
              let trailingRefs :=
                map (fun e => new_ChgOutlineItem (formatEdgeLabel e)
                                (edge_ref (ChgEdge.label e) ("trail:" ++ nodeLabel) trailing)
                                None_)
                    (filter (references_node nodeLabel) (edges d)) in
              leadingRefs ++ trailingRefs
          | edge edgeLabel =>
              match find (fun e => String.eqb (ChgEdge.label e) edgeLabel) (edges d) with
              | None => []
              | Some found =>
                  let nodeSet := map ChgNode.label (nodes d) in
                  let has := fun x => existsb (String.eqb x) nodeSet in
                  let sourceRefs :=
                    map (fun src =>
                           new_ChgOutlineItem (ChgSource.label src)
                             (node_ref (ChgSource.label src)
                                ("src:" ++ edgeLabel ++ ":" ++ ChgSource.handle src)
                                source (negb (has (ChgSource.label src))))
                             None_)
                        (ChgEdge.sources found) in
                  let targetRef :=
                    new_ChgOutlineItem (ChgEdge.target found)
                      (node_ref (ChgEdge.target found) ("tgt:" ++ edgeLabel) target
                         (negb (String.eqb (ChgEdge.target found) "")
                          && negb (has (ChgEdge.target found))))
                      None_ in
                  sourceRefs ++ [targetRef]
              end
          | _ => []
          end
      end
  end.

End ChgOutlineTree.

(** ** Focus layout (chgEditorProvider.ts, webview script) *)

Module FocusLayout.
Import QArith.
Import ChgEditorWebview.

Record position : Type := mkPosition { x : Q; y : Q }.

Definition STEP : Q := 90.

(** The body of [arr.forEach((el, i) => el.position(...))]: the position
    given to each element, by id.  Coordinates are rationals; the doubles
    of the source are exact on them for any array a graph can hold. *)
Fixpoint position_each (n : nat) (i : nat) (x : Q) (arr : list ele)
  : list (string * position) :=
  match arr with
  | nil => nil
  | el :: rest =>
      (id el,
       mkPosition x ((inject_Z (Z.of_nat i) - (inject_Z (Z.of_nat n) - 1) / 2) * STEP))
      :: position_each n (S i) x rest
  end.

Definition positionGroup (arr : list ele) (x : Q) : list (string * position) :=
  position_each (List.length arr) O x arr.

End FocusLayout.

(** ** Own properties under computed keys

    The operations view reads, writes and deletes properties whose names
    are frame names and node labels.  On an array these may be indices or
    [length]; a string is taken as its sequence of code units. *)

Module Props.
Import Raw.

(** The number a key is the decimal numeral of. *)
Definition canonical_index (k : string) : option nat :=
  match NilEmpty.uint_of_string k with
  | Some u =>
      let i := Nat.of_uint u in
      if String.eqb (index_to_string i) k then Some i else None
  | None => None
  end.

Definition own_index (k : string) (len : nat) : option nat :=
  match canonical_index k with
  | Some i => if Nat.ltb i len then Some i else None
  | None => None
  end.

(** [j[k]] for a non-nullish [j] *)
Definition get_prop (j : json) (k : string) : JS.value :=
  match j with
  | JObj o => lookup k o
  | JArr items =>
      if String.eqb k "length" then Some (JNum (Z.of_nat (List.length items)))
      else
        match own_index k (List.length items) with
        | Some i => nth_error items i
        | None => undefined
        end
  | JStr s =>
      if String.eqb k "length" then Some (JNum (Z.of_nat (String.length s)))
      else
        match own_index k (String.length s) with
        | Some i => option_map (fun c => JStr (String c EmptyString)) (String.get i s)
        | None => undefined
        end
  | _ => undefined
  end.

(** [delete j[k]]: the hole left in an array is serialised as [null];
    [length] and the code units of a string cannot be deleted. *)
Definition delete_prop (k : string) (j : json) : completion json :=
  match j with
  | JNull => Throw TypeError
  | JObj o => Normal (JObj (delete k o))
  | JArr items =>
      if String.eqb k "length" then Throw TypeError
      else
        match own_index k (List.length items) with
        | Some i => Normal (JArr (update_nth i (fun _ => JNull) items))
        | None => Normal j
        end
  | JStr s =>
      if String.eqb k "length" then Throw TypeError
      else
        match own_index k (String.length s) with
        | Some _ => Throw TypeError
        | None => Normal j
        end
  | _ => Normal j
  end.

(** [j[k] !== undefined] for a non-nullish [j] of a parsed document: an own
    property (no JSON value is [undefined]) or a member inherited from
    [Object.prototype].  The further members of [Array.prototype] and
    [String.prototype] are not listed. *)
Definition defined_prop (j : json) (k : string) : bool :=
  match get_prop j k with
  | Some _ => true
  | None => inherited k
  end.

(** [j[k] = v] for a [k] under which [j] has no own property.  An object
    takes the key where [JS.put] places it; an index extends an array,
    the holes being serialised as [null]; another property written onto
    an array is not serialised; a primitive takes no property. *)
Definition set_new_prop (k : string) (v : json) (j : json) : completion json :=
  match j with
  | JObj o => Normal (JObj (put k v o))
  | JArr items =>
      match canonical_index k with
      | Some i =>
          if N.ltb (N.of_nat i) 4294967295
          then Normal (JArr (items ++ repeat JNull (i - List.length items) ++ [v]))
          else Normal j
      | None => Normal j
      end
  | _ => Throw TypeError
  end.

End Props.

(** ** Operations view (chgOperationsProvider.ts) *)

Module ChgOperationsProvider.
Import ChgState Raw Props.

Definition document : Type := completion json.

(** [_editJson(mutate)]: the document afterwards.  [mutate] returns the
    mutated object and whether it is to be written back. *)
Definition _editJson (uri : option string) (doc : document)
           (mutate : json -> completion (json * bool)) : completion document :=
  match uri with
  | None => Normal doc
  | Some _ =>
      match doc with
      | Throw _ => Normal doc
      | Normal raw =>
          r <- mutate raw ;;
          let '(raw', ok) := r in
          Normal (if ok then Normal raw' else doc)
      end
  end.

(** *** Nodes and edges *)

Definition mutate_addNode (label : string) (raw : json) : completion (json * bool) :=
  rn <- getNodes raw ;;
  let '(raw1, nodes) := rn in
  found <- find_by_label label nodes ;;
  match found with
  | Some _ => Normal (raw1, false)
  | None =>
      Normal (put_mutable_array "nodes" raw1 (nodes ++ [JObj [("label", JStr label)]]), true)
  end.

(** [input] is what the input box returned, [None] when it was dismissed. *)
Definition _addNode (input : option string) (uri : option string) (doc : document)
  : completion document :=
  match input with
  | None => Normal doc
  | Some label => _editJson uri doc (mutate_addNode label)
  end.

Definition mutate_addEdge (label : string) (raw : json) : completion (json * bool) :=
  re <- getEdges raw ;;
  let '(raw1, edges) := re in
  found <- find_by_label label edges ;;
  match found with
  | Some _ => Normal (raw1, false)
  | None =>
      Normal (put_mutable_array "edges" raw1
                (edges ++ [JObj [("label", JStr label); ("source_nodes", JArr []);
                                 ("target", JStr "")]]), true)
  end.

Definition _addEdge (input : option string) (uri : option string) (doc : document)
  : completion document :=
  match input with
  | None => Normal doc
  | Some label => _editJson uri doc (mutate_addEdge label)
  end.

(** [arr.splice(i, 1)] *)
Fixpoint splice_one {A} (i : nat) (l : list A) : list A :=
  match l, i with
  | [], _ => []
  | _ :: rest, O => rest
  | x :: rest, S j => x :: splice_one j rest
  end.

(** [s !== label] *)
Definition other_than (label : string) (s : json) : bool :=
  negb (strict_eq_str (Some s) label).

(** The body of [for (const e of edges)] in [_removeNode]. *)
Definition remove_refs (label : string) (e : json) : completion json :=
  match e with
  | JNull => Throw TypeError
  | JObj o =>
      let o1 := match lookup "source_nodes" o with
                | Some (JArr l) => set "source_nodes" (JArr (filter (other_than label) l)) o
                | _ => o
                end in
      let o2 := match lookup "sources" o1 with
                | Some (JArr l) => set "sources" (JArr (filter (other_than label) l)) o1
                | _ => o1
                end in
      let o3 := if strict_eq_str (lookup "target" o2) label
                then set "target" (JStr "") o2 else o2 in
      Normal (JObj o3)
  | _ => Normal e
  end.

Fixpoint mapM_values {A} (f : json -> completion json) (l : list (A * json))
  : completion (list (A * json)) :=
  match l with
  | [] => Normal []
  | (k, v) :: rest =>
      v' <- f v ;; rest' <- mapM_values f rest ;; Normal ((k, v') :: rest')
  end.

(** [for (const frameData of Object.values(raw.frames)) delete frameData[label]] *)
Definition remove_frame_entries (label : string) (raw : json) : completion json :=
  fr <- get (Some raw) "frames" ;;
  if truthy fr then
    match raw, fr with
    | JObj o, Some (JObj f) =>
        f' <- mapM_values (delete_prop label) f ;;
        Normal (JObj (set "frames" (JObj f') o))
    | JObj o, Some (JArr items) =>
        items' <- mapM (delete_prop label) items ;;
        Normal (JObj (set "frames" (JArr items') o))
    | _, Some (JStr s) =>
        _ <- mapM (delete_prop label)
               (map (fun c => JStr (String c EmptyString)) (list_ascii_of_string s)) ;;
        Normal raw
    | _, _ => Normal raw
    end
  else Normal raw.

Definition mutate_removeNode (label : string) (raw : json) : completion (json * bool) :=
  rn <- getNodes raw ;;
  let '(raw1, nodes) := rn in
  idx <- find_by_label label nodes ;;
  match idx with
  | None => Normal (raw1, false)
  | Some i =>
      let raw2 := put_mutable_array "nodes" raw1 (splice_one i nodes) in
      re <- getEdges raw2 ;;
      let '(raw3, edges) := re in
      edges' <- mapM (remove_refs label) edges ;;
      let raw4 := put_mutable_array "edges" raw3 edges' in
      raw5 <- remove_frame_entries label raw4 ;;
      Normal (raw5, true)
  end.

Definition _removeNode (state : ChgState.t) (uri : option string) (doc : document)
  : completion (document * ChgState.t) :=
  match _kind state, _label state with
  | Some NODE, Some label =>
      if negb (truthy_str (Some label)) then Normal (doc, state)
      else
        doc' <- _editJson uri doc (mutate_removeNode label) ;;
        Normal (doc', setSelection state None None)
  | _, _ => Normal (doc, state)
  end.

Definition mutate_removeEdge (label : string) (raw : json) : completion (json * bool) :=
  re <- getEdges raw ;;
  let '(raw1, edges) := re in
  idx <- find_by_label label edges ;;
  match idx with
  | None => Normal (raw1, false)
  | Some i => Normal (put_mutable_array "edges" raw1 (splice_one i edges), true)
  end.

Definition _removeEdge (state : ChgState.t) (uri : option string) (doc : document)
  : completion (document * ChgState.t) :=
  match _kind state, _label state with
  | Some EDGE, Some label =>
      if negb (truthy_str (Some label)) then Normal (doc, state)
      else
        doc' <- _editJson uri doc (mutate_removeEdge label) ;;
        Normal (doc', setSelection state None None)
  | _, _ => Normal (doc, state)
  end.

(** *** Frames *)

Definition _selectFrame (state : ChgState.t) (frame : string) : ChgState.t :=
  if truthy_str (Some frame) then setCurrentFrame state (Some frame) else state.

Definition mutate_addFrame (name : string) (raw : json) : completion (json * bool) :=
  fr <- get (Some raw) "frames" ;;
  if truthy fr then
    match raw, fr with
    | JObj o, Some f =>
        if defined_prop f name then Normal (raw, false)
        else
          f' <- set_new_prop name (JObj []) f ;;
          Normal (JObj (set "frames" f' o), true)
    | _, _ => Normal (raw, false)
    end
  else
    match raw with
    | JObj o =>
        if inherited name then Normal (raw, false)
        else Normal (JObj (set "frames" (JObj [(name, JObj [])]) o), true)
    | JArr _ => Normal (raw, negb (inherited name))
    | _ => Throw TypeError
    end.

(** [input] is what the input box returned. *)
Definition _addFrame (input : option string) (state : ChgState.t)
           (uri : option string) (doc : document) : completion (document * ChgState.t) :=
  if negb (truthy_str input) then Normal (doc, state)
  else
    match input with
    | Some name =>
        doc' <- _editJson uri doc (mutate_addFrame name) ;;
        Normal (doc', setCurrentFrame state (Some name))
    | None => Normal (doc, state)
    end.

(** [raw.frames?.[currentFrame]] *)
Definition frame_of (raw : json) (currentFrame : string) : completion JS.value :=
  fr <- get (Some raw) "frames" ;;
  Normal (match fr with
          | Some j => if nullish fr then undefined else get_prop j currentFrame
          | None => undefined
          end).

(** Where [frames] is an object without an own property [currentFrame]
    that inherits a member of that name, the test passes and the [delete]
    finds nothing to remove. *)
Definition mutate_deleteFrame (currentFrame : string) (raw : json)
  : completion (json * bool) :=
  frame <- frame_of raw currentFrame ;;
  if negb (truthy frame) then
    match raw with
    | JObj o =>
        match lookup "frames" o with
        | Some (JObj f) =>
            match lookup currentFrame f with
            | Some _ => Normal (raw, false)
            | None => Normal (raw, inherited currentFrame)
            end
        | _ => Normal (raw, false)
        end
    | _ => Normal (raw, false)
    end
  else
    match raw with
    | JObj o =>
        match lookup "frames" o with
        | Some fr =>
            fr' <- delete_prop currentFrame fr ;;
            Normal (JObj (set "frames" fr' o), true)
        | None => Normal (raw, false)
        end
    | _ => Normal (raw, false)
    end.

(** [confirm] is the button the warning dialog returned. *)
Definition _deleteFrame (confirm : option string) (state : ChgState.t)
           (uri : option string) (doc : document) : completion (document * ChgState.t) :=
  if negb (truthy_str (_currentFrame state)) then Normal (doc, state)
  else
    match _currentFrame state, confirm with
    | Some currentFrame, Some button =>
        if negb (String.eqb button "Delete") then Normal (doc, state)
        else
          let remaining :=
            filter (fun f => negb (String.eqb f currentFrame))
                   (match _data state with
                    | Some data => frameNames data
                    | None => []
                    end) in
          doc' <- _editJson uri doc (mutate_deleteFrame currentFrame) ;;
          Normal (doc', setCurrentFrame state (hd_error remaining))
    | _, _ => Normal (doc, state)
    end.

(** Where [frames] is an object without an own property [currentFrame],
    [raw.frames?.[currentFrame]] is still truthy for a member inherited
    from [Object.prototype]: [JSON.stringify] writes the prototype itself
    (read under [__proto__]) as an empty object and omits a function. *)
Definition mutate_renameFrame (currentFrame newName : string) (raw : json)
  : completion (json * bool) :=
  frame <- frame_of raw currentFrame ;;
  if negb (truthy frame) then
    match raw with
    | JObj o =>
        match lookup "frames" o with
        | Some (JObj f) =>
            match lookup currentFrame f with
            | Some _ => Normal (raw, false)
            | None =>
                if inherited currentFrame && negb (defined_prop (JObj f) newName) then
                  if String.eqb currentFrame "__proto__"
                  then Normal (JObj (set "frames" (JObj (put newName (JObj []) f)) o), true)
                  else Normal (raw, true)
                else Normal (raw, false)
            end
        | _ => Normal (raw, false)
        end
    | _ => Normal (raw, false)
    end
  else
    match raw, frame with
    | JObj o, Some data =>
        match lookup "frames" o with
        | Some fr =>
            if defined_prop fr newName then Normal (raw, false)
            else
              fr1 <- set_new_prop newName data fr ;;
              fr2 <- delete_prop currentFrame fr1 ;;
              Normal (JObj (set "frames" fr2 o), true)
        | None => Normal (raw, false)
        end
    | _, _ => Normal (raw, false)
    end.

(** [input] is what the input box returned. *)
Definition _renameFrame (input : option string) (state : ChgState.t)
           (uri : option string) (doc : document) : completion (document * ChgState.t) :=
  if negb (truthy_str (_currentFrame state)) then Normal (doc, state)
  else
    match _currentFrame state, input with
    | Some currentFrame, Some newName =>
        if negb (truthy_str input) || String.eqb newName currentFrame
        then Normal (doc, state)
        else
          doc' <- _editJson uri doc (mutate_renameFrame currentFrame newName) ;;
          Normal (doc', setCurrentFrame state (Some newName))
    | _, _ => Normal (doc, state)
    end.

End ChgOperationsProvider.

(** ** Frame bootstrap (extension.ts) *)

Module Bootstrap.
Import Props.

Definition document : Type := completion json.

(** [Object.keys(v).length] for a truthy [v] *)
Definition keys_length (v : json) : nat :=
  match v with
  | JObj f => List.length f
  | JArr items => List.length items
  | JStr s => String.length s
  | _ => O
  end.

(** Ensures the .chg file has at least one frame; creates [frame0] if none
    exist.  The document when the promise settles. *)
Definition ensureFrame0 (doc : document) : completion document :=
  match doc with
  | Throw _ => Normal doc
  | Normal raw =>
      fr <- get (Some raw) "frames" ;;
      if negb (truthy fr) then
        match raw with
        | JObj o => Normal (Normal (JObj (set "frames" (JObj [("frame0", JObj [])]) o)))
        | JArr _ => Normal (Normal raw)
        | _ => Throw TypeError
        end
      else
        match raw, fr with
        | JObj o, Some f =>
            if Nat.eqb (keys_length f) 0 then
              f' <- set_new_prop "frame0" (JObj []) f ;;
              Normal (Normal (JObj (set "frames" f' o)))
            else Normal doc
        | _, _ => Normal doc
        end
  end.

End Bootstrap.

(** ** Details view: editing a node's value and its constant flag
    (chgDetailsProvider.ts) *)

Module ChgDetailsEdits.
Import ChgState Raw Props.

(** What [Number] makes of a string: a double is [NaN], an integer,
    infinite or a fraction. *)
Inductive number : Type := NaN | Integer (z : Z) | Infinite | Fraction.

(** [j[k]] for a non-nullish [j] of a parsed document.  An object without
    an own property [k] answers with the member it inherits from
    [Object.prototype], if [k] names one; the members an array or a
    primitive inherits are not listed. *)
Definition member_of (j : json) (k : string) : member json :=
  match get_prop j k with
  | Some v => Own v
  | None =>
      match j with
      | JObj _ => if inherited k then Builtin k else Absent
      | _ => Beyond
      end
  end.

(** [delete raw.frames[frameKey][nodeLabel]] with the two repairs before
    it; [o] holds the properties of [raw].  [None]: the frame read is a
    member of [Object.prototype], of which the model does not say whether
    it lets the property go.  As in
    [ChgSimulateProvider.write_frame_entry], [frames] stored as an array is
    left as it is (index-like keys on arrays are outside the model), and
    the further members of [String.prototype] are not listed. *)
Definition clear_frame_entry (o : list (string * json))
           (frameKey nodeLabel : string) : completion (option json) :=
  let rawFrames := if truthy (lookup "frames" o) then lookup "frames" o
                   else Some (JObj []) in
  match rawFrames with
  | Some (JObj fr) =>
      match lookup frameKey fr with
      | None =>
          if inherited frameKey then Normal None
          else Normal (Some (JObj (set "frames" (JObj (put frameKey (JObj []) fr)) o)))
      | Some found =>
          fd' <- delete_prop nodeLabel (if truthy (Some found) then found else JObj []) ;;
          Normal (Some (JObj (set "frames" (JObj (set frameKey fd' fr)) o)))
      end
  | Some (JArr _) => Normal (Some (JObj o))
  | Some (JStr s) =>
      match get_prop (JStr s) frameKey with
      | Some fd =>
          if truthy (Some fd) then _ <- delete_prop nodeLabel fd ;; Normal (Some (JObj o))
          else Throw TypeError
      | None => if inherited frameKey then Normal None else Throw TypeError
      end
  | _ => Throw TypeError
  end.

Section WithHost.
(** The host's [Number] on a string. *)
Variable Number : string -> number.
(** Whether a member of [Object.prototype] rejects an assignment (see
    [ChgSimulateProvider.write_frame_entry]). *)
Variable refuses : string -> string -> bool.

(** [coerceValue(str)] as [JSON.stringify] writes it into the document: a
    number that is not finite is written [null].  [None]: a fraction,
    which [json] does not hold. *)
Definition coerceValue (str : string) : option json :=
  match Number str with
  | NaN => Some (JStr str)
  | Integer num => Some (JNum num)
  | Infinite => Some JNull
  | Fraction => None
  end.

(** [_updateNode(raw, nodeLabel, 'value', value)]: the mutated document;
    [None] where it holds a fraction or was made with a member of
    [Object.prototype] in place of the frame. *)
Definition _updateNode_value (state : ChgState.t) (raw : json)
           (nodeLabel : string) (value : json) : completion (option json) :=
  rn <- getNodes raw ;;
  let '(raw1, nodes) := rn in
  found <- find_by_label nodeLabel nodes ;;
  match found with
  | None => Normal (Some raw1)
  | Some i =>
      let node := nth i nodes JNull in
      ic <- get (Some node) "is_constant" ;;
      c <- get (Some node) "constant" ;;
      let isConst := coalesce ic c in
      str <- String_ value ;;
      if truthy isConst then
        (* Constant: persist directly in the node object. *)
        if String.eqb str "" then
          Normal (Some (put_mutable_array "nodes" raw1
                          (update_nth i (assign "value" undefined) nodes)))
        else
          Normal (option_map
                    (fun v => put_mutable_array "nodes" raw1
                                (update_nth i (assign "value" (Some v)) nodes))
                    (coerceValue str))
      else
        (* Non-constant: persist in the current frame. *)
        match _currentFrame state, raw1 with
        | Some currentFrame, JObj o =>
            if truthy_str (Some currentFrame) then
              if String.eqb str "" then clear_frame_entry o currentFrame nodeLabel
              else
                match coerceValue str with
                | Some v =>
                    raw2 <- ChgSimulateProvider.write_frame_entry refuses o currentFrame
                              nodeLabel (Some v) ;;
                    Normal (Some raw2)
                | None =>
                    _ <- ChgSimulateProvider.write_frame_entry refuses o currentFrame
                           nodeLabel undefined ;;
                    Normal None
                end
            else Normal (Some raw1)
        | _, _ => Normal (Some raw1)
        end
  end.

(** [raw.frames?.[currentFrame]?.[nodeLabel]] *)
Definition frame_value (o : list (string * json)) (currentFrame nodeLabel : string)
  : member json :=
  match lookup "frames" o with
  | Some fr =>
      if nullish (Some fr) then Absent
      else
        match member_of fr currentFrame with
        | Own fd => if nullish (Some fd) then Absent else member_of fd nodeLabel
        | Absent => Absent
        | Builtin _ | Beyond => Beyond
        end
  | None => Absent
  end.

(** The frame data held under [k], after it has been mutated into [v]. *)
Definition put_prop (k : string) (v : json) (j : json) : json :=
  match j with
  | JObj f => JObj (set k v f)
  | JArr items =>
      match own_index k (List.length items) with
      | Some i => JArr (update_nth i (fun _ => v) items)
      | None => j
      end
  | _ => j
  end.

(** [delete raw.frames[currentFrame][nodeLabel]] where that entry is an
    own property. *)
Definition drop_frame_value (o : list (string * json)) (currentFrame nodeLabel : string)
  : completion json :=
  match lookup "frames" o with
  | Some fr =>
      match get_prop fr currentFrame with
      | Some fd =>
          fd' <- delete_prop nodeLabel fd ;;
          Normal (JObj (set "frames" (put_prop currentFrame fd' fr) o))
      | None => Normal (JObj o)
      end
  | None => Normal (JObj o)
  end.

(** [_updateNode(raw, nodeLabel, 'constant', value)]: the mutated
    document; [None] where it was made with a member of a prototype the
    model does not follow.  A member of [Object.prototype] pulled into
    [node.value] is a function, which [JSON.stringify] omits, or, under
    [__proto__], the prototype itself, which it writes as an empty
    object. *)
Definition _updateNode_constant (state : ChgState.t) (raw : json)
           (nodeLabel : string) (value : json) : completion (option json) :=
  rn <- getNodes raw ;;
  let '(raw1, nodes) := rn in
  found <- find_by_label nodeLabel nodes ;;
  match found, raw1 with
  | Some i, JObj o =>
      let node := nth i nodes JNull in
      let newIsConstant := truthy (Some value) in
      if newIsConstant then
        (* Becoming constant: pull current value from frame into node.value. *)
        let constant_with (v : option JS.value) (raw2 : json) : json :=
          put_mutable_array "nodes" raw2
            (update_nth i
               (fun n => assign "constant" undefined
                           (assign "is_constant" (Some (JBool true))
                              (match v with
                               | Some x => assign "value" x n
                               | None => n
                               end)))
               nodes) in
        match _currentFrame state with
        | Some currentFrame =>
            if truthy_str (Some currentFrame) then
              match frame_value o currentFrame nodeLabel with
              | Own frameVals =>
                  raw2 <- drop_frame_value o currentFrame nodeLabel ;;
                  Normal (Some (constant_with
                                  (Some match frameVals with
                                        | JArr items => hd_error items
                                        | _ => Some frameVals
                                        end) raw2))
              | Builtin k =>
                  Normal (Some (constant_with
                                  (Some (if String.eqb k "__proto__"
                                         then Some (JObj []) else undefined)) raw1))
              | Absent => Normal (Some (constant_with None raw1))
              | Beyond => Normal None
              end
            else Normal (Some (constant_with None raw1))
        | None => Normal (Some (constant_with None raw1))
        end
      else
        (* Becoming non-constant: move node.value into the current frame. *)
        v <- get (Some node) "value" ;;
        if ChgSimulateProvider.has_content v then
          let frame := match _currentFrame state with
                       | Some currentFrame => currentFrame
                       | None => "frame0"
                       end in
          raw2 <- ChgSimulateProvider.write_frame_entry refuses o frame nodeLabel v ;;
          Normal (Some (put_mutable_array "nodes" raw2
                          (update_nth i
                             (fun n => assign "constant" undefined
                                         (assign "is_constant" undefined
                                            (assign "value" undefined n)))
                             nodes)))
        else
          Normal (Some (put_mutable_array "nodes" raw1
                          (update_nth i
                             (fun n => assign "constant" undefined
                                         (assign "is_constant" undefined n))
                             nodes)))
  | _, _ => Normal (Some raw1)
  end.

End WithHost.

End ChgDetailsEdits.

(** ** Details view: renaming the handle of a source (chgDetailsProvider.ts) *)

Module ChgEdgeEdits.

(** The [source-key:] branch of [_updateEdge], on the edge found:
    [oldHandle] is the rest of the field name and [newHandle] the trimmed
    text, [String(value).trim()].  Rename the key in the source_nodes
    object (object-keyed format). *)
Definition rename_source_key (oldHandle newHandle : string) (edge : json) : json :=
  if negb (ChgState.truthy_str (Some newHandle)) || String.eqb newHandle oldHandle
  then edge
  else
    match edge with
    | JObj eo =>
        match lookup "source_nodes" eo with
        | Some (JObj m) =>
            match lookup oldHandle m with
            | Some v =>
                JObj (set "source_nodes" (JObj (delete oldHandle (put newHandle v m))) eo)
            | None =>
                (* An inherited member is defined as well and is copied: a
                   function is left out when the document is serialised,
                   [Object.prototype] is written as an empty object. *)
                if inherited oldHandle then
                  if String.eqb oldHandle "__proto__"
                  then JObj (set "source_nodes" (JObj (put newHandle (JObj []) m)) eo)
                  else JObj (set "source_nodes" (JObj (delete newHandle m)) eo)
                else edge
            end
        | _ => edge
        end
    | _ => edge
    end.

End ChgEdgeEdits.

(** * Observations and examples used to state the properties *)

Module NormalizerSpec.
Import Normalizer.

Definition field (k : string) (v : option json) : list (string * json) :=
  match v with Some j => [(k, j)] | None => [] end.

(** [{nodes, edges, frames}], each field optional. *)
Definition flat_document (n e f : option json) : json :=
  JObj (field "nodes" n ++ field "edges" e ++ field "frames" f).

(** [{hypergraph: {nodes, edges}, frames}] *)
Definition nested_document (n e f : option json) : json :=
  JObj (("hypergraph", JObj (field "nodes" n ++ field "edges" e)) :: field "frames" f).

(** The array the parser iterates for nodes. *)
Definition raw_nodes (raw : json) : list json :=
  match get_opt (coalesce (get_opt (Some raw) "hypergraph") (Some raw)) "nodes" with
  | Some (JArr items) => items
  | _ => []
  end.

(** The labels of the input nodes that carry a string label, in order. *)
Definition raw_node_labels (raw : json) : list string :=
  flat_map (fun n => match get_opt (Some n) "label" with
                     | Some (JStr l) => [l]
                     | _ => []
                     end) (raw_nodes raw).

Definition two_nodes_labelled_a : json :=
  JObj [("nodes", JArr [JObj [("label", JStr "a")]; JObj [("label", JStr "a")]])].

(** The array the parser iterates for edges. *)
Definition raw_edges (raw : json) : list json :=
  match get_opt (coalesce (get_opt (Some raw) "hypergraph") (Some raw)) "edges" with
  | Some (JArr items) => items
  | _ => []
  end.

(** What a raw edge names as its sources. *)
Definition raw_sources (e : json) : JS.value :=
  coalesce (get_opt (Some e) "source_nodes") (get_opt (Some e) "sources").

(** The values the parser converts to source labels. *)
Definition source_values (rawSources : JS.value) : list json :=
  match rawSources with
  | Some (JArr items) => items
  | Some (JObj m) => map snd m
  | _ => []
  end.

(** The sources the parser lists when every conversion returns. *)
Definition listed_sources (rawSources : JS.value) : list ChgSource.t :=
  map (fun hl => ChgSource.mk (fst hl) (ToString (snd hl)))
      (match rawSources with
       | Some j => match j with JArr _ | JObj _ => entries j | _ => [] end
       | None => []
       end).

(** A raw edge the parser keeps (it carries a string label) names a source
    whose conversion to a string raises. *)
Definition edge_raises (e : json) : bool :=
  match get_opt (Some e) "label" with
  | Some (JStr _) => existsb raises (source_values (raw_sources e))
  | _ => false
  end.

Definition unprintable_source (raw : json) : bool := existsb edge_raises (raw_edges raw).

(** An edge one of whose sources is an object with an own [toString]. *)
Definition edge_with_odd_source : json :=
  JObj [("edges", JArr [JObj [("label", JStr "e");
                              ("source_nodes", JArr [JObj [("toString", JNum 1)]])]])].

End NormalizerSpec.

Module ChgStateSpec.
Import ChgState.

Definition snapshot_with_frames (names : list string) : ChgData :=
  mkChgData [] [] (map (fun n => (n, [])) names) names.

Definition snapshot_labels (data : option ChgData) : list string :=
  match data with
  | Some d => map ChgNode.label (nodes d)
  | None => []
  end.

Definition plain_node (l : string) : ChgNode.t := ChgNode.mk l None None None None None.


End ChgStateSpec.

Module ChgDetailsSpec.
Import ChgState.

Definition state_with_frame_f0 (entries : list (string * list json)) : ChgState.t :=
  setCurrentFrame
    (setData init (Some (mkChgData [] [] [("f0", entries)] ["f0"]))) (Some "f0").

End ChgDetailsSpec.

Module ChgSimulateSpec.
Import ChgState ChgSimulateProvider Raw.

Definition host_ready (h : host) : bool :=
  match getPythonPath h, getActiveChgUri h with
  | Python _, Some _ => hasConstrainthg h
  | _, _ => false
  end.

(** [node.value] of the first node labelled [label], read back from a
    document. *)
Definition stored_node_value (raw : json) (label : string) : completion JS.value :=
  rn <- getNodes raw ;;
  found <- find_by_label label (snd rn) ;;
  match found with
  | Some i => get (Some (nth i (snd rn) JNull)) "value"
  | None => Normal undefined
  end.

(** [raw.frames?.[frameKey]?.[label]] *)
Definition stored_frame_entry (raw : json) (frameKey label : string) : JS.value :=
  get_opt (get_opt (get_opt (Some raw) "frames") frameKey) label.

Definition constant_flag (node : json) : bool :=
  truthy (coalesce (get_opt (Some node) "is_constant") (get_opt (Some node) "constant")).

(** [frames], when truthy, is an object, and so is its entry for the frame
    key, when truthy. *)
Definition frame_slot_writable (raw : json) (frameKey : string) : bool :=
  match raw with
  | JObj o =>
      match (if truthy (lookup "frames" o) then lookup "frames" o else Some (JObj [])) with
      | Some (JObj fr) =>
          match (if truthy (lookup frameKey fr) then lookup frameKey fr
                 else Some (JObj [])) with
          | Some (JObj _) => true
          | _ => false
          end
      | _ => false
      end
  | _ => false
  end.

Definition cell (value : JS.value) : json :=
  JArr [match value with Some v => v | None => JNull end].

Definition scenario_document : json :=
  JObj [("nodes", JArr [JObj [("label", JStr "a"); ("is_constant", JBool true);
                              ("value", JNum 2)];
                        JObj [("label", JStr "b")]]);
        ("edges", JArr [JObj [("label", JStr "e1"); ("source_nodes", JArr [JStr "a"]);
                              ("target", JStr "b"); ("weight", JNum 1)]]);
        ("frames", JObj [("f0", JObj [])])].

Definition scenario_result : SimResult.t :=
  SimResult.mk (Some (JNum 4)) (Some 1%Z) None (Some "b") (Some ["a"; "b"])
               (Some ["e1"]) (Some 2%Z) (Some 1%Z).

Definition scenario_host (result : SimResult.t) : host :=
  mkHost (Python "python3") true (Some "model.chg") (fun _ _ => result)
         (fun _ _ => false).

Definition scenario_state : ChgState.t :=
  setSelection
    (setData init (try_or_null (Normalizer.parse_raw scenario_document)))
    (Some NODE) (Some "b").

End ChgSimulateSpec.

Module RenameSpec.
Import ChgState.

Definition edge_references (l : string) (e : ChgEdge.t) : bool :=
  String.eqb (ChgEdge.target e) l
  || existsb (fun s => String.eqb (ChgSource.label s) l) (ChgEdge.sources e).

(** Node "a" feeds edge "e1" through the keyed form of [source_nodes] and
    edge "e2" through the array form. *)
Definition keyed_document : json :=
  JObj [("nodes", JArr [JObj [("label", JStr "a")]; JObj [("label", JStr "b")]]);
        ("edges", JArr [JObj [("label", JStr "e1");
                              ("source_nodes", JObj [("x", JStr "a")]);
                              ("target", JStr "b")];
                        JObj [("label", JStr "e2");
                              ("source_nodes", JArr [JStr "a"]);
                              ("target", JStr "a")]]);
        ("frames", JObj [("f0", JObj [("a", JArr [JNum 1])])])].

Definition selected_a : ChgState.t :=
  setSelection
    (setData init (try_or_null (Normalizer.parse_raw keyed_document)))
    (Some NODE) (Some "a").

End RenameSpec.

Module ChgEditorSpec.
Import ChgEditorWebview.

(** Ids of graph nodes start with "n:" or "e:", ids of links with "se:" or
    "te:"; the first character tells them apart. *)
Definition node_like (s : string) : bool :=
  match s with
  | String c _ => Ascii.eqb c "n" || Ascii.eqb c "e"
  | EmptyString => false
  end.

Definition data_ok (d : ele_data) : bool :=
  match d with
  | CyNode i _ _ => node_like i
  | CyEdge i s t => negb (node_like i) && node_like s && node_like t
  end.

(** What every store built from a document satisfies: distinct ids, links
    between graph nodes. *)
Definition ok_store (c : cy) : Prop :=
  NoDup (map id c) /\ Forall (fun e => data_ok (data e) = true) c.

(** [cl] tells whether a graph node carries the class; it is fixed while
    the links are marked. *)
Definition link_cond (cl : string -> bool) (l : ele) : bool :=
  match data l with
  | CyEdge _ s t => cl s && cl t
  | CyNode _ _ _ => false
  end.

Definition marked (cl : string -> bool) (L : list ele) (e : ele) : bool :=
  existsb (fun l => String.eqb (id e) (id l) && link_cond cl l) L.

Definition mark (cl : string -> bool) (L : list ele) (e : ele) : ele :=
  if marked cl L e then addClass "sim-path" e else e.

Definition highlighted (c : cy) (i : string) : bool := hasClassById "sim-path" i c.

(** The scenario document: node "a" feeds edge "e1", whose target is "b". *)
Definition scenario_data : option ChgData :=
  Some (mkChgData
          [ChgNode.mk "a" (Some (JNum 2)) (Some (JBool true)) None None (Some (JBool true));
           ChgNode.mk "b" None None None None None]
          [ChgEdge.mk "e1" (Some (JNum 1)) None [ChgSource.mk "0" "a"] "b" None]
          [("f0", [])] ["f0"]).

Definition full_path : SimPath.t := SimPath.mk "b" ["a"; "b"] ["e1"] 1 1 2.
Definition only_node_a : SimPath.t := SimPath.mk "a" ["a"] [] 0 0 1.

End ChgEditorSpec.

Module FramesSpec.
Import ChgState.

(** [frameNames] and the keys of [frames] name the same frames. *)
Definition names_match (acc : list (string * list (string * list json)) * list string)
  : Prop :=
  forall name, In name (snd acc) <-> lookup name (fst acc) <> None.

(** The current frame [setData] leaves, from the one before. *)
Definition next_frame (cur : option string) (data : option ChgData) : option string :=
  match data with
  | None => None
  | Some d =>
      match frameNames d with
      | [] => cur
      | first :: _ =>
          if negb (truthy_str cur)
             || negb match cur with
                     | Some cf => includes (frameNames d) cf
                     | None => false
                     end
          then Some first
          else cur
      end
  end.

End FramesSpec.

Module SelectionSpec.
Import ChgState.

(** The non-constant node is looked up in an active frame in which
    nothing is found under its label: the details view then shows the
    legacy [node.value]. *)
Definition shows_legacy_value (st : ChgState.t) (node : ChgNode.t) : bool :=
  negb (truthy (coalesce (ChgNode.is_constant node) (ChgNode.constant node)))
  && match _currentFrame st, _data st with
     | Some cf, Some d =>
         truthy_str (Some cf)
         && match read cf (frames d) with
            | Own frame => match read (ChgNode.label node) frame with
                           | Absent => true
                           | _ => false
                           end
            | _ => false
            end
     | _, _ => false
     end.

(** A node labelled like a member of [Object.prototype], with a legacy
    value and no entry in the one frame. *)
Definition constructor_document : json :=
  JObj [("nodes", JArr [JObj [("label", JStr "constructor"); ("value", JNum 7)]]);
        ("frames", JObj [("f0", JObj [])])].

Definition select_node (st : ChgState.t) (label : string) : ChgState.t :=
  setSelection st (Some NODE) (Some label).

End SelectionSpec.

Module EscSpec.
Import ChgDetailsProvider.

Fixpoint occurs (c : ascii) (s : string) : bool :=
  match s with
  | EmptyString => false
  | String a rest => Ascii.eqb a c || occurs c rest
  end.

(** The entity that stands for one character. *)
Definition esc_char (a : ascii) : string :=
  if Ascii.eqb a "&" then "&amp;"
  else if Ascii.eqb a "<" then "&lt;"
  else if Ascii.eqb a ">" then "&gt;"
  else if Ascii.eqb a double_quote then "&quot;"
  else String a EmptyString.

Fixpoint esc_chars (s : string) : string :=
  match s with
  | EmptyString => EmptyString
  | String a rest => (esc_char a ++ esc_chars rest)%string
  end.

(** [String(v ?? '')] *)
Definition text_of (v : JS.value) : string :=
  match coalesce v (Some (JStr "")) with
  | Some j => ToString j
  | None => ""
  end.

End EscSpec.

Module OutlineSpec.
Import ChgOutlineTree.

Definition outline_example : ChgData :=
  mkChgData [ChgNode.mk "a" None None None None None;
             ChgNode.mk "lonely" None None None None None]
            [ChgEdge.mk "e1" None None [ChgSource.mk "0" "a"] "b" None] [] [].

Definition nodes_root_item : ChgOutlineItem := new_ChgOutlineItem "Nodes" nodes_root Expanded.

(** The item the outline lists for a node. *)
Definition item_of_node (d : ChgData) (l : string) (expandable : bool) : ChgOutlineItem :=
  new_ChgOutlineItem l (node l) (if expandable then Collapsed else None_).

End OutlineSpec.

Module GraphSpec.
Import ChgEditorWebview.

(** Every link of the store joins two elements of the store. *)
Definition links_closed (c : cy) : Prop :=
  forall e i s t, In e c -> data e = CyEdge i s t ->
                  hasElementWithId c s = true /\ hasElementWithId c t = true.

Definition edge_labels (d : option ChgData) : list string :=
  match d with
  | Some d => map ChgEdge.label (edges d)
  | None => []
  end.

(** Node "a" feeds edge "e1"; the edge also names a source "ghost" and a
    target "nowhere" that no node carries. *)
Definition dangling_data : option ChgData :=
  Some (mkChgData
          [ChgNode.mk "a" None None None None None]
          [ChgEdge.mk "e1" None None
                      [ChgSource.mk "0" "a"; ChgSource.mk "1" "ghost"] "nowhere" None]
          [] []).

End GraphSpec.

Module OperationsSpec.
Import Normalizer ChgState.

(** The object the parser reads nodes and edges from. *)
Definition container (o : list (string * json)) : JS.value :=
  coalesce (lookup "hypergraph" o) (Some (JObj o)).

Definition part (k : string) (o : list (string * json)) : JS.value :=
  get_opt (container o) k.

Definition array_of (v : JS.value) : list json :=
  match v with
  | Some (JArr items) => items
  | _ => []
  end.

(** [hypergraph] is missing, [null] or an object. *)
Definition plain (o : list (string * json)) : bool :=
  match lookup "hypergraph" o with
  | None | Some JNull | Some (JObj _) => true
  | _ => false
  end.

(** The parser, given the three values it reads from the document. *)
Definition parse_parts (hn he rf : JS.value) : completion ChgData :=
  nodes <- for_of parse_node (array_of hn) ;;
  edges <- for_of parse_edge (array_of he) ;;
  let '(frames, frameNames) := parse_frames rf in
  Normal (mkChgData nodes edges frames frameNames).

(** The string label of a raw node or edge, if it has one. *)
Definition label_of (n : json) : option string :=
  match get_opt (Some n) "label" with
  | Some (JStr l) => Some l
  | _ => None
  end.

(** The nodes without the first one labelled [l]. *)
Fixpoint remove_first (l : string) (ns : list ChgNode.t) : list ChgNode.t :=
  match ns with
  | [] => []
  | x :: rest => if String.eqb (ChgNode.label x) l then rest else x :: remove_first l rest
  end.

Definition is_string (j : json) : bool :=
  match j with JStr _ => true | _ => false end.

Definition is_object (j : json) : bool :=
  match j with JObj _ => true | _ => false end.

(** The sources the parser reads from a raw edge are listed in an array
    of strings, or there are none. *)
Definition sources_listed (e : json) : bool :=
  match e with
  | JNull => false
  | JObj eo =>
      match coalesce (lookup "source_nodes" eo) (lookup "sources" eo) with
      | Some (JArr items) => forallb is_string items
      | Some (JObj _) => false
      | _ => true
      end
  | _ => true
  end.

(** The raw sources are an array of strings, or neither an array nor an
    object. *)
Definition strings_listed (v : JS.value) : bool :=
  match v with
  | Some (JArr items) => forallb is_string items
  | Some (JObj _) => false
  | _ => true
  end.

(** [frames] is missing, [null] or an object whose values are objects. *)
Definition frames_are_objects (o : list (string * json)) : bool :=
  match lookup "frames" o with
  | None | Some JNull => true
  | Some (JObj f) => forallb (fun kv => is_object (snd kv)) f
  | Some _ => false
  end.

(** An edge of the model without its references to the node [l]: the
    sources naming [l] are dropped, the remaining ones numbered anew, and a
    target [l] becomes the empty string. *)
Definition scrub (l : string) (e : ChgEdge.t) : ChgEdge.t :=
  ChgEdge.mk (ChgEdge.label e) (ChgEdge.weight e) (ChgEdge.constant e)
    (map (fun hs => ChgSource.mk (fst hs) (ChgSource.label (snd hs)))
         (indexed_from 0
            (filter (fun s => negb (String.eqb (ChgSource.label s) l)) (ChgEdge.sources e))))
    (if String.eqb (ChgEdge.target e) l then "" else ChgEdge.target e)
    (ChgEdge.rel e).

(** [arr.filter(s => s !== l)] where [arr] is an array *)
Definition scrub_array (l : string) (v : JS.value) : JS.value :=
  match v with
  | Some (JArr items) => Some (JArr (filter (ChgOperationsProvider.other_than l) items))
  | _ => v
  end.

Definition without_entry (l : string) (nf : string * list (string * list json))
  : string * list (string * list json) :=
  (fst nf, delete l (snd nf)).

(** One iteration of the parser's loop over [Object.entries(raw.frames)]. *)
Definition frame_step
           (acc : list (string * list (string * list json)) * list string)
           (fd : string * json)
  : list (string * list (string * list json)) * list string :=
  let '(frames, frameNames) := acc in
  let '(frameName, frameData) := fd in
  if truthy (Some frameData) && typeof_object (Some frameData)
  then (set frameName (parse_frame frameData) frames, frameNames ++ [frameName])
  else acc.

(** A frame the parser keeps: a non-null object or array. *)
Definition visible (fd : json) : bool :=
  truthy (Some fd) && typeof_object (Some fd).

Definition frame_entries (o : list (string * json)) : list (string * json) :=
  match lookup "frames" o with
  | Some (JObj f) => f
  | _ => []
  end.

(** [frames] is an object, or falsy and so replaced by a fresh object. *)
Definition frames_writable (o : list (string * json)) : bool :=
  match lookup "frames" o with
  | Some (JObj _) => true
  | v => negb (truthy v)
  end.

Definition other_name (cf : string) (name : string) : bool :=
  negb (String.eqb name cf).

(** A small document with two nodes, one edge and two frames. *)
Definition small_props : list (string * json) :=
  [("nodes", JArr [JObj [("label", JStr "x")]; JObj [("label", JStr "y")]]);
   ("edges", JArr [JObj [("label", JStr "e");
                         ("source_nodes", JArr [JStr "x"; JStr "y"]);
                         ("target", JStr "x")]]);
   ("frames", JObj [("f", JObj [("x", JNum 1); ("y", JNum 2)]); ("g", JObj [])])].

(** An edge whose sources are keyed by handle. *)
Definition keyed_edge : list (string * json) :=
  [("label", JStr "e"); ("source_nodes", JObj [("a", JStr "x"); ("b", JStr "y")])].

Definition viewing (d : option ChgData) (frame : string) : ChgState.t :=
  ChgState.mk None None d (Some frame) "grid" None.

End OperationsSpec.

Module RoundTripSpec.

(** The edge [_addEdge] makes, as the parser reads it. *)
Definition fresh_edge (l : string) : ChgEdge.t := ChgEdge.mk l None None [] "" None.

End RoundTripSpec.

Module DetailsEditSpec.
Import ChgState.

(** The node the parser makes of a raw node object labelled [l]. *)
Definition node_of (no : list (string * json)) (l : string) : ChgNode.t :=
  let isConst := coalesce (lookup "is_constant" no) (lookup "constant" no) in
  ChgNode.mk l (lookup "value" no) isConst (lookup "description" no)
             (lookup "units" no) isConst.

(** The node the details view shows for the selected label. *)
Definition shown_node (d : ChgData) (l : string) : option ChgNode.t :=
  find (fun n => String.eqb (ChgNode.label n) l) (nodes d).

(** What the details view shows as the value of node [l] once the model
    [d] has been loaded into the store. *)
Definition displayed (st : ChgState.t) (d : ChgData) (l : string)
  : option ChgDetailsProvider.shown :=
  option_map (ChgDetailsProvider._getNodeValue (setData st (Some d))) (shown_node d l).

Definition is_const (n : ChgNode.t) : bool :=
  truthy (coalesce (ChgNode.is_constant n) (ChgNode.constant n)).

(** The current frame [cf] is an object [fo] of the document's [frames]
    object, and keys are distinct at both levels. *)
Definition current_frame_object (o : list (string * json)) (cf : string)
           (fo : list (string * json)) : Prop :=
  NoDup (map fst (OperationsSpec.frame_entries o)) /\
  lookup cf (OperationsSpec.frame_entries o) = Some (JObj fo) /\
  NoDup (map fst fo).

(** A document with a constant node, a plain node and one frame. *)
Definition details_props : list (string * json) :=
  [("nodes", JArr [JObj [("label", JStr "k"); ("is_constant", JBool true);
                         ("value", JNum 7)];
                   JObj [("label", JStr "x")]]);
   ("frames", JObj [("f", JObj [("x", JArr [JNum 3])])])].

(** A stand-in for the host's [Number]: it reads the text [5]. *)
Definition reads_five (s : string) : ChgDetailsEdits.number :=
  if String.eqb s "5" then ChgDetailsEdits.Integer 5%Z else ChgDetailsEdits.NaN.

(** What the value field holds once [text] has been typed: nothing for the
    empty text, else the coerced text; no answer for a fraction. *)
Definition entered (Number : string -> ChgDetailsEdits.number) (text : string)
  : option JS.value :=
  if String.eqb text "" then Some undefined
  else option_map Some (ChgDetailsEdits.coerceValue Number text).

End DetailsEditSpec.

Module EdgeEditSpec.

(** The label of the source an edge of the model has under handle [h]. *)
Definition source_at (h : string) (e : ChgEdge.t) : option string :=
  lookup h (map (fun s => (ChgSource.handle s, ChgSource.label s)) (ChgEdge.sources e)).

(** An edge with two sources keyed by handle. *)
Definition two_keyed_sources : list (string * json) :=
  [("label", JStr "e"); ("source_nodes", JObj [("a", JStr "x"); ("b", JStr "y")]);
   ("target", JStr "z")].

End EdgeEditSpec.

Module RenameAllSpec.

(** An edge of the model with every reference to [l] turned into [m]. *)
Definition relabel (l m : string) (e : ChgEdge.t) : ChgEdge.t :=
  ChgEdge.mk (ChgEdge.label e) (ChgEdge.weight e) (ChgEdge.constant e)
    (map (fun s => ChgSource.mk (ChgSource.handle s)
                     (if String.eqb (ChgSource.label s) l then m else ChgSource.label s))
         (ChgEdge.sources e))
    (if String.eqb (ChgEdge.target e) l then m else ChgEdge.target e)
    (ChgEdge.rel e).

Definition with_label (m : string) (n : ChgNode.t) : ChgNode.t :=
  ChgNode.mk m (ChgNode.value n) (ChgNode.is_constant n) (ChgNode.description n)
             (ChgNode.units n) (ChgNode.constant n).

(** The nodes with the first one labelled [l] relabelled [m]. *)
Fixpoint relabel_first (l m : string) (ns : list ChgNode.t) : list ChgNode.t :=
  match ns with
  | [] => []
  | x :: rest =>
      if String.eqb (ChgNode.label x) l then with_label m x :: rest
      else x :: relabel_first l m rest
  end.

(** A frame of the model with the entry of [l] moved to [m]. *)
Definition moved_entry (l m : string) (nf : string * list (string * list json))
  : string * list (string * list json) :=
  (fst nf,
   match lookup l (snd nf) with
   | Some v => delete l (set m v (snd nf))
   | None => snd nf
   end).

(** [arr.map(s => s === l ? m : s)] where [arr] is an array *)
Definition rename_array (l m : string) (v : JS.value) : JS.value :=
  match v with
  | Some (JArr items) => Some (JArr (map (ChgDetailsProvider.rename_ref l m) items))
  | _ => v
  end.

(** Every frame that is an object has distinct keys. *)
Definition frame_keys_distinct (o : list (string * json)) : Prop :=
  Forall (fun kv => match snd kv with
                    | JObj fo => NoDup (map fst fo)
                    | _ => True
                    end) (OperationsSpec.frame_entries o).

End RenameAllSpec.

(** * Properties *)

(** ** Association lists *)

Module JSFacts.

Lemma lookup_set_same {A} (k : string) (v : A) (o : list (string * A)) :
  lookup k (set k v o) = Some v.
Proof.
  induction o as [|[k' v'] o IH]; simpl.
  - now rewrite String.eqb_refl.
  - destruct (String.eqb k' k) eqn:E; simpl; rewrite E; auto.
Qed.

Lemma lookup_set_other {A} (k k' : string) (v : A) (o : list (string * A)) :
  k <> k' -> lookup k' (set k v o) = lookup k' o.
Proof.
  intros Hne. induction o as [|[k0 v0] o IH]; simpl.
  - destruct (String.eqb k k') eqn:E; auto.
    apply String.eqb_eq in E. contradiction.
  - destruct (String.eqb k0 k) eqn:E; simpl.
    + apply String.eqb_eq in E. subst k0.
      destruct (String.eqb k k') eqn:E'; auto.
      apply String.eqb_eq in E'. contradiction.
    + now rewrite IH.
Qed.

Lemma lookup_delete_same {A} (k : string) (o : list (string * A)) :
  lookup k (delete k o) = None.
Proof.
  unfold delete. induction o as [|[k' v'] o IH]; simpl; auto.
  destruct (String.eqb k' k) eqn:E; simpl; auto. now rewrite E.
Qed.

Lemma lookup_delete_other {A} (k k' : string) (o : list (string * A)) :
  k <> k' -> lookup k' (delete k o) = lookup k' o.
Proof.
  intros Hne. unfold delete. induction o as [|[k0 v0] o IH]; simpl; auto.
  destruct (String.eqb k0 k) eqn:E; simpl.
  - apply String.eqb_eq in E. subst k0.
    destruct (String.eqb k k') eqn:E'; auto.
    apply String.eqb_eq in E'. contradiction.
  - now rewrite IH.
Qed.

(** *** Assignment under a computed key *)

Lemma lookup_insert_index {A} (i : Z) (k k' : string) (v : A) (o : list (string * A)) :
  lookup k o = None ->
  lookup k' (insert_index i k v o)
  = if String.eqb k k' then Some v else lookup k' o.
Proof.
  induction o as [|[k0 v0] o IH]; cbn [insert_index lookup]; [reflexivity|].
  destruct (String.eqb k0 k) eqn:E0; [discriminate|]. intros Hk.
  destruct (array_index k0) as [j|]; [destruct (j <? i)%Z|]; cbn [lookup];
    try reflexivity.
  rewrite (IH Hk). destruct (String.eqb k0 k') eqn:E1; [|reflexivity].
  destruct (String.eqb k k') eqn:E; [|reflexivity].
  apply String.eqb_eq in E1, E. subst. now rewrite String.eqb_refl in E0.
Qed.

Lemma keys_insert_index {A} (i : Z) (k : string) (v : A) (o : list (string * A)) (x : string) :
  In x (map fst (insert_index i k v o)) <-> x = k \/ In x (map fst o).
Proof.
  induction o as [|[k0 v0] o IH]; cbn [insert_index map fst In]; [intuition|].
  destruct (array_index k0) as [j|]; [destruct (j <? i)%Z|]; cbn [map fst In];
    rewrite ?IH; intuition.
Qed.

Lemma distinct_keys_insert_index {A} (i : Z) (k : string) (v : A) (o : list (string * A)) :
  lookup k o = None -> NoDup (map fst o) -> NoDup (map fst (insert_index i k v o)).
Proof.
  assert (Hin : forall o' : list (string * A), lookup k o' = None -> ~ In k (map fst o')).
  { induction o' as [|[k1 v1] o' IHo]; cbn [lookup map fst In]; [tauto|].
    destruct (String.eqb k1 k) eqn:E; [discriminate|].
    apply String.eqb_neq in E. intros H [H1 | H1]; [contradiction | now apply IHo]. }
  induction o as [|[k0 v0] o IH]; cbn [insert_index lookup map fst]; intros Hk Hnd.
  - repeat constructor. intros [].
  - destruct (String.eqb k0 k) eqn:E0; [discriminate|].
    assert (Hnew : NoDup (k :: k0 :: map fst o)).
    { constructor; [|exact Hnd]. apply (Hin ((k0, v0) :: o)).
      cbn [lookup]. now rewrite E0. }
    destruct (array_index k0) as [j|]; [destruct (j <? i)%Z|]; cbn [map fst];
      try exact Hnew.
    inversion Hnd as [|? ? H0 Hrest]; subst. constructor; [|now apply IH].
    rewrite keys_insert_index. intros [-> | H]; [|contradiction].
    now rewrite String.eqb_refl in E0.
Qed.

Lemma length_insert_index {A} (i : Z) (k : string) (v : A) (o : list (string * A)) :
  List.length (insert_index i k v o) = S (List.length o).
Proof.
  induction o as [|[k0 v0] o IH]; cbn [insert_index List.length]; [reflexivity|].
  destruct (array_index k0) as [j|]; [destruct (j <? i)%Z|]; cbn [List.length];
    try reflexivity.
  now rewrite IH.
Qed.

(** A key other than [__proto__] holds the value assigned to it. *)
Lemma lookup_put_same {A} (k : string) (v : A) (o : list (string * A)) :
  k <> "__proto__" -> lookup k (put k v o) = Some v.
Proof.
  intros Hk. unfold put. destruct (lookup k o) eqn:E; [apply lookup_set_same|].
  apply String.eqb_neq in Hk. rewrite Hk.
  destruct (array_index k); [|apply lookup_set_same].
  rewrite lookup_insert_index by assumption. now rewrite String.eqb_refl.
Qed.

Lemma lookup_put_other {A} (k k' : string) (v : A) (o : list (string * A)) :
  k <> k' -> lookup k' (put k v o) = lookup k' o.
Proof.
  intros Hne. unfold put. destruct (lookup k o) eqn:E; [now apply lookup_set_other|].
  destruct (String.eqb k "__proto__"); [reflexivity|].
  destruct (array_index k); [|now apply lookup_set_other].
  rewrite lookup_insert_index by assumption.
  apply String.eqb_neq in Hne. now rewrite Hne.
Qed.

(** Under an ordinary key, [put] is [set]. *)
Lemma put_ordinary {A} (k : string) (v : A) (o : list (string * A)) :
  ordinary k = true -> put k v o = set k v o.
Proof.
  unfold ordinary, put, inherited. intros H. apply andb_true_iff in H as [Hi Ha].
  destruct (lookup k o); [reflexivity|].
  destruct (String.eqb k "__proto__") eqn:E.
  - apply String.eqb_eq in E. subst k. discriminate.
  - destruct (array_index k); [discriminate | reflexivity].
Qed.

End JSFacts.

(** ** The normalizer *)

Module NormalizerFacts.
Import NormalizerSpec.
Import Normalizer.

Lemma parse_node_normal (n : json) : exists out, parse_node n = Normal out.
Proof.
  unfold parse_node.
  destruct n as [| b | z | s | items | o]; simpl; eauto.
  destruct (lookup "label" o) as [[| b | z | s | items | o']|]; simpl; eauto.
Qed.

(** *** Sources whose conversion raises *)

Lemma parse_source_result (hl : string * json) :
  parse_source hl
  = if raises (snd hl) then Throw TypeError
    else Normal [ChgSource.mk (fst hl) (ToString (snd hl))].
Proof. unfold parse_source, String_. destruct (raises (snd hl)); reflexivity. Qed.

Lemma for_of_parse_source (l : list (string * json)) :
  for_of parse_source l
  = if existsb (fun hl => raises (snd hl)) l then Throw TypeError
    else Normal (map (fun hl => ChgSource.mk (fst hl) (ToString (snd hl))) l).
Proof.
  induction l as [|hl l IH]; cbn [for_of existsb map]; [reflexivity|].
  rewrite parse_source_result, IH.
  destruct (raises (snd hl)); cbn [bind orb]; [reflexivity|].
  destruct (existsb _ l); reflexivity.
Qed.

Lemma raises_indexed (i : nat) (items : list json) :
  existsb (fun hl => raises (snd hl)) (indexed_from i items) = existsb raises items.
Proof.
  revert i. induction items as [|x items IH]; intros i; cbn [indexed_from existsb snd];
    [reflexivity|].
  now rewrite IH.
Qed.

Lemma raises_keyed (m : list (string * json)) :
  existsb (fun hl => raises (snd hl)) m = existsb raises (map snd m).
Proof.
  induction m as [|hl m IH]; cbn [existsb map]; [reflexivity|]. now rewrite IH.
Qed.

(** [parse_sources] raises exactly when one of the conversions does, and
    otherwise lists one source per value. *)
Lemma parse_sources_result (v : JS.value) :
  parse_sources v
  = if existsb raises (source_values v) then Throw TypeError
    else Normal (listed_sources v).
Proof.
  destruct v as [[| b | z | s | items | m]|]; try reflexivity;
    cbn [parse_sources source_values listed_sources entries];
    rewrite for_of_parse_source.
  - now rewrite raises_indexed.
  - now rewrite raises_keyed.
Qed.

Lemma parse_edge_object (eo : list (string * json)) :
  parse_edge (JObj eo)
  = match lookup "label" eo with
    | Some (JStr l0) =>
        if existsb raises (source_values (raw_sources (JObj eo))) then Throw TypeError
        else Normal [ChgEdge.mk l0 (coalesce (lookup "weight" eo) (lookup "cost" eo))
                       (lookup "constant" eo)
                       (listed_sources (raw_sources (JObj eo)))
                       (match lookup "target" eo with Some (JStr s) => s | _ => "" end)
                       (lookup "rel" eo)]
    | _ => Normal []
    end.
Proof.
  unfold parse_edge, raw_sources. cbn [get_opt get bind].
  destruct (lookup "label" eo) as [[| b | z | s | items | o1]|]; try reflexivity.
  rewrite parse_sources_result.
  destruct (existsb raises _); reflexivity.
Qed.

Lemma parse_edge_result (e : json) :
  if edge_raises e then parse_edge e = Throw TypeError
  else exists out, parse_edge e = Normal out.
Proof.
  unfold edge_raises.
  destruct e as [| b | z | s | items | eo]; cbn [get_opt]; try (eexists; reflexivity).
  rewrite parse_edge_object.
  destruct (lookup "label" eo) as [[| b | z | s | items | o1]|]; try (eexists; reflexivity).
  destruct (existsb raises _); [reflexivity | eexists; reflexivity].
Qed.

Lemma for_of_parse_edge_result (es : list json) :
  if existsb edge_raises es then for_of parse_edge es = Throw TypeError
  else exists outs, for_of parse_edge es = Normal outs.
Proof.
  induction es as [|e es IH]; cbn [existsb for_of]; [eexists; reflexivity|].
  pose proof (parse_edge_result e) as He.
  destruct (edge_raises e); cbn [orb].
  - now rewrite He.
  - destruct He as [out ->]. cbn [bind].
    destruct (existsb edge_raises es).
    + now rewrite IH.
    + destruct IH as [outs ->]. eexists. reflexivity.
Qed.

Lemma for_of_normal {A B} (body : A -> completion (list B)) (l : list A) :
  (forall x, exists out, body x = Normal out) ->
  exists outs, for_of body l = Normal outs.
Proof.
  intros Hbody. induction l as [|x l [outs IH]]; simpl; eauto.
  destruct (Hbody x) as [out ->]. simpl. rewrite IH. simpl. eauto.
Qed.

Lemma get_as_get_opt (v : JS.value) (k : string) (r : JS.value) :
  get v k = Normal r -> r = get_opt v k.
Proof.
  destruct v as [[| b | z | s | items | o]|]; simpl; intros [= <-]; reflexivity.
Qed.

(** The body of the [try] block raises on [null] and on a document one of
    whose kept edges names a source that cannot be converted to a string,
    and on nothing else. *)
Lemma parse_raw_result (raw : json) :
  raw <> JNull ->
  if unprintable_source raw then parse_raw raw = Throw TypeError
  else exists d, parse_raw raw = Normal d.
Proof.
  intros Hnn. unfold parse_raw, unprintable_source, raw_edges.
  assert (Hget : forall v k, nullish v = false -> get v k = Normal (get_opt v k)).
  { intros [[| b | z | s | items | o]|] k; simpl; intros; try discriminate; eauto. }
  rewrite (Hget (Some raw) "hypergraph") by (destruct raw; simpl; auto; contradiction).
  cbn [bind].
  set (hg := coalesce (get_opt (Some raw) "hypergraph") (Some raw)).
  assert (Hhg : nullish hg = false).
  { subst hg. unfold coalesce.
    destruct (nullish (get_opt (Some raw) "hypergraph")) eqn:E; auto.
    destruct raw; simpl; auto. contradiction. }
  rewrite (Hget hg "nodes" Hhg). cbn [bind].
  assert (Hn : exists ns, match get_opt hg "nodes" with
                          | Some (JArr items) => for_of parse_node items
                          | _ => Normal []
                          end = Normal ns).
  { destruct (get_opt hg "nodes") as [[| b | z | s | items | o]|]; eauto.
    apply for_of_normal, parse_node_normal. }
  destruct Hn as [ns ->]. cbn [bind].
  rewrite (Hget hg "edges" Hhg). cbn [bind].
  rewrite (Hget (Some raw) "frames") by (destruct raw; simpl; auto; contradiction).
  assert (He : if existsb edge_raises match get_opt hg "edges" with
                                      | Some (JArr items) => items
                                      | _ => []
                                      end
               then match get_opt hg "edges" with
                    | Some (JArr items) => for_of parse_edge items
                    | _ => Normal []
                    end = Throw TypeError
               else exists es, match get_opt hg "edges" with
                               | Some (JArr items) => for_of parse_edge items
                               | _ => Normal []
                               end = Normal es).
  { destruct (get_opt hg "edges") as [[| b | z | s | items | o]|];
      try (cbn [existsb]; eexists; reflexivity).
    apply for_of_parse_edge_result. }
  destruct (existsb edge_raises _).
  - rewrite He. reflexivity.
  - destruct He as [es ->]. cbn [bind].
    destruct (parse_frames (get_opt (Some raw) "frames")). eauto.
Qed.

Lemma parse_raw_null : parse_raw JNull = Throw TypeError.
Proof. reflexivity. Qed.

(** C4 (as amended).  [parseChgData] never raises: it returns [null]
    exactly when [JSON.parse] rejects the text, the text is the literal
    [null], or an edge with a string label names a source whose conversion
    to a string raises; every other JSON value, whatever its shape, yields
    a model.  [loadFromDocument] keeps the previously loaded model exactly
    when the parser returned [null], and otherwise replaces it. *)
Theorem parseChgData_failure_and_last_good_state
        (JSON_parse : string -> completion json) (text : string)
        (p : ChgOutlineProvider.t) :
  let failure :=
    parseChgData JSON_parse text = None /\
    ChgOutlineProvider.loadFromDocument JSON_parse p text = (p, false) in
  match JSON_parse text with
  | Throw _ | Normal JNull => failure
  | Normal raw =>
      if unprintable_source raw then failure
      else
        exists d,
          parseChgData JSON_parse text = Some d /\
          ChgOutlineProvider.loadFromDocument JSON_parse p text
          = (ChgOutlineProvider.mk (Some d), true)
  end.
Proof.
  unfold ChgOutlineProvider.loadFromDocument, parseChgData.
  destruct (JSON_parse text) as [raw|e] eqn:E; cbn [bind try_or_null].
  2: { split; reflexivity. }
  destruct raw as [| b | z | s | items | o].
  1: { rewrite parse_raw_null. split; reflexivity. }
  all: match goal with
       | |- context [parse_raw ?r] =>
           pose proof (parse_raw_result r ltac:(discriminate)) as H;
           destruct (unprintable_source r);
           [rewrite H; split; reflexivity | destruct H as [d ->]; cbn [try_or_null]; eauto]
       end.
Qed.

(** A document whose text is the number 5 does not resemble a hypergraph
    document, yet it parses to the empty model, which then replaces the
    model loaded before. *)
Lemma unshaped_json_is_not_a_failure :
  let JSON_parse := fun _ : string => Normal (JNum 5) in
  let previous :=
    ChgOutlineProvider.mk
      (Some (mkChgData [ChgNode.mk "a" None None None None None] [] [] [])) in
  parseChgData JSON_parse "5" = Some (mkChgData [] [] [] []) /\
  ChgOutlineProvider.loadFromDocument JSON_parse previous "5"
  = (ChgOutlineProvider.mk (Some (mkChgData [] [] [] [])), true).
Proof. split; reflexivity. Qed.

(** A well-shaped document whose one edge names, as a source, an object
    with an own [toString]: the conversion raises inside the [try] block
    and the parser returns [null]. *)
Lemma odd_source_is_a_failure :
  let JSON_parse := fun _ : string => Normal edge_with_odd_source in
  unprintable_source edge_with_odd_source = true /\
  parseChgData JSON_parse "text" = None.
Proof. split; reflexivity. Qed.

(** *** Flat and nested documents *)

(** C6.  A flat document and the nested document with the same nodes,
    edges and frames parse alike: the parser returns one and the same
    canonical model for both, or fails on both. *)
Theorem flat_and_nested_parse_alike (n e f : option json) :
  parse_raw (flat_document n e f) = parse_raw (nested_document n e f) /\
  forall JSON_parse flat nested,
    JSON_parse flat = Normal (flat_document n e f) ->
    JSON_parse nested = Normal (nested_document n e f) ->
    parseChgData JSON_parse flat = parseChgData JSON_parse nested.
Proof.
  assert (H : parse_raw (flat_document n e f) = parse_raw (nested_document n e f)).
  { destruct n, e, f; reflexivity. }
  split; [exact H|].
  intros JSON_parse flat nested Hf Hn. unfold parseChgData.
  rewrite Hf, Hn. cbn [bind]. now rewrite H.
Qed.

Lemma flat_and_nested_parse_alike_witness :
  let n := Some (JArr [JObj [("label", JStr "a")]]) in
  let f := Some (JObj [("f0", JObj [("a", JNum 1)])]) in
  let JSON_parse := fun text : string =>
                      if String.eqb text "flat" then Normal (flat_document n None f)
                      else Normal (nested_document n None f) in
  parse_raw (flat_document n None f) = parse_raw (nested_document n None f) /\
  parseChgData JSON_parse "flat" = parseChgData JSON_parse "nested".
Proof.
  intros n f JSON_parse.
  destruct (flat_and_nested_parse_alike n None f) as [H1 H2].
  split; [exact H1|]. exact (H2 JSON_parse "flat" "nested" eq_refl eq_refl).
Defined.

(** *** Node labels *)

Lemma parse_node_label (n : json) (out : list ChgNode.t) :
  parse_node n = Normal out ->
  map ChgNode.label out
  = match get_opt (Some n) "label" with Some (JStr l) => [l] | _ => [] end.
Proof.
  unfold parse_node.
  destruct n as [| b | z | s | items | o]; simpl;
    try (intros [= <-]; reflexivity).
  destruct (lookup "label" o) as [[| b | z | s | items | o']|]; simpl;
    intros [= <-]; reflexivity.
Qed.

Lemma for_of_parse_node_labels (items : list json) (ns : list ChgNode.t) :
  for_of parse_node items = Normal ns ->
  map ChgNode.label ns
  = flat_map (fun n => match get_opt (Some n) "label" with
                       | Some (JStr l) => [l]
                       | _ => []
                       end) items.
Proof.
  revert ns. induction items as [|n items IH]; simpl; intros ns.
  - intros [= <-]. reflexivity.
  - destruct (parse_node n) as [out|] eqn:En; simpl; [|discriminate].
    destruct (for_of parse_node items) as [outs|] eqn:Er; simpl; [|discriminate].
    intros [= <-]. rewrite map_app, (parse_node_label _ _ En), (IH _ eq_refl).
    reflexivity.
Qed.

Lemma parse_raw_node_labels (raw : json) (d : ChgData) :
  parse_raw raw = Normal d -> map ChgNode.label (nodes d) = raw_node_labels raw.
Proof.
  unfold parse_raw, raw_node_labels, raw_nodes.
  destruct (get (Some raw) "hypergraph") as [h|] eqn:Eh; cbn [bind]; [|discriminate].
  rewrite <- (get_as_get_opt _ _ _ Eh).
  destruct (get (coalesce h (Some raw)) "nodes") as [hn|] eqn:En; cbn [bind]; [|discriminate].
  rewrite <- (get_as_get_opt _ _ _ En).
  destruct (match hn with
            | Some (JArr items) => for_of parse_node items
            | _ => Normal []
            end) as [ns|] eqn:Ens; cbn [bind]; [|discriminate].
  destruct (get (coalesce h (Some raw)) "edges") as [he|]; cbn [bind]; [|discriminate].
  destruct (match he with
            | Some (JArr items) => for_of parse_edge items
            | _ => Normal []
            end) as [es|]; cbn [bind]; [|discriminate].
  destruct (get (Some raw) "frames") as [rf|]; cbn [bind]; [|discriminate].
  destruct (parse_frames rf) as [fr fn]. intros [= <-]. cbn [nodes].
  destruct hn as [[| b | z | s | items | o]|];
    try (injection Ens as <-; reflexivity).
  now apply for_of_parse_node_labels.
Qed.

(** C9 (as amended).  The parser accepts every document other than the
    literal [null] in which no kept edge names a source whose conversion to
    a string raises; node labels play no part in that.  The model's node
    labels are then the string labels of the input nodes, in input order
    and with repetitions kept: the parser neither removes nor introduces a
    duplicate, so labels are unique in the model exactly when they are
    unique in the input. *)
Theorem node_labels_kept_as_given (raw : json) :
  raw <> JNull -> unprintable_source raw = false ->
  exists d,
    parse_raw raw = Normal d /\
    map ChgNode.label (nodes d) = raw_node_labels raw /\
    (NoDup (map ChgNode.label (nodes d)) <-> NoDup (raw_node_labels raw)).
Proof.
  intros Hnn Hp. pose proof (parse_raw_result raw Hnn) as H. rewrite Hp in H.
  destruct H as [d Hd].
  exists d. split; [exact Hd|].
  rewrite (parse_raw_node_labels _ _ Hd). split; [reflexivity|tauto].
Qed.

Lemma node_labels_kept_as_given_witness :
  exists d,
    parse_raw two_nodes_labelled_a = Normal d /\
    map ChgNode.label (nodes d) = ["a"; "a"] /\
    (NoDup (map ChgNode.label (nodes d)) <-> NoDup ["a"; "a"]).
Proof.
  exact (node_labels_kept_as_given two_nodes_labelled_a
           ltac:(discriminate) eq_refl).
Defined.

(** Two input nodes labelled "a" give a model with two nodes labelled
    "a": labels are not unique for every document. *)
Lemma duplicate_labels_survive_parsing :
  ~ (forall raw d, parse_raw raw = Normal d -> NoDup (map ChgNode.label (nodes d))).
Proof.
  intros H.
  specialize (H two_nodes_labelled_a _ eq_refl). simpl in H.
  inversion H as [|x l Hnotin _]. apply Hnotin. now left.
Qed.

(** C10.  A raw node with a string label whose [is_constant] is present
    and not [null] is normalised with both [is_constant] and [constant]
    set to that value, whatever the legacy [constant] says. *)
Theorem is_constant_takes_precedence
        (o : list (string * json)) (l : string) (v c : json) :
  lookup "label" o = Some (JStr l) ->
  lookup "is_constant" o = Some v -> v <> JNull ->
  lookup "constant" o = Some c -> c <> JNull ->
  exists node,
    parse_node (JObj o) = Normal [node] /\
    ChgNode.is_constant node = Some v /\
    ChgNode.constant node = Some v /\
    coalesce (ChgNode.is_constant node) (ChgNode.constant node) = Some v.
Proof.
  intros Hl Hv Hvn Hc _. unfold parse_node. simpl. rewrite Hl, Hv, Hc. simpl.
  unfold coalesce.
  destruct v; try contradiction; simpl; eexists; repeat split; reflexivity.
Qed.

Lemma is_constant_takes_precedence_witness :
  exists node,
    parse_node (JObj [("label", JStr "a"); ("is_constant", JBool false);
                      ("constant", JBool true)]) = Normal [node] /\
    ChgNode.is_constant node = Some (JBool false) /\
    ChgNode.constant node = Some (JBool false) /\
    coalesce (ChgNode.is_constant node) (ChgNode.constant node) = Some (JBool false).
Proof.
  apply (is_constant_takes_precedence _ "a" (JBool false) (JBool true));
    solve [reflexivity | discriminate].
Defined.

(** The legacy flag is consulted when [is_constant] is absent or [null]. *)
Lemma legacy_constant_when_is_constant_nullish
      (o : list (string * json)) (l : string) :
  lookup "label" o = Some (JStr l) ->
  nullish (lookup "is_constant" o) = true ->
  exists node,
    parse_node (JObj o) = Normal [node] /\
    ChgNode.is_constant node = lookup "constant" o /\
    ChgNode.constant node = lookup "constant" o.
Proof.
  intros Hl Hn. unfold parse_node. simpl. rewrite Hl. simpl.
  unfold coalesce. rewrite Hn. eexists; repeat split; reflexivity.
Qed.

End NormalizerFacts.

(** ** The state store *)

Module ChgStateFacts.
Import ChgStateSpec.
Import ChgState.

Lemma includes_In (l : list string) (x : string) : includes l x = true <-> In x l.
Proof.
  unfold includes. rewrite existsb_exists. split.
  - intros [y [Hy E]]. apply String.eqb_eq in E. now subst.
  - intros H. exists x. split; auto. apply String.eqb_refl.
Qed.

Lemma includes_not_In (l : list string) (x : string) : includes l x = false <-> ~ In x l.
Proof.
  rewrite <- includes_In. destruct (includes l x); split; intros; congruence.
Qed.

(** [setData] stores the snapshot and touches no other field but the
    current frame. *)
Lemma setData_other_fields (st : ChgState.t) (data : option ChgData) :
  _data (setData st data) = data /\
  _kind (setData st data) = _kind st /\
  _label (setData st data) = _label st /\
  _layout (setData st data) = _layout st /\
  _simPath (setData st data) = _simPath st.
Proof.
  unfold setData.
  destruct data as [d|]; [destruct (frameNames d)|]; cbn;
    repeat match goal with |- context [if ?b then _ else _] => destruct b end;
    repeat split; reflexivity.
Qed.

(** C7 (as amended).  [setData] stores the snapshot and touches no field but
    the current frame.  With a snapshot that has a frame name, a current
    frame that is [null], the empty string, or not among [frameNames]
    becomes the first frame name; with no snapshot ([null]) the current
    frame is cleared; in every other case (a snapshot without frames, or a
    non-empty current frame found in [frameNames]) it is unchanged. *)
Theorem setData_current_frame (st : ChgState.t) (data : option ChgData) :
  _data (setData st data) = data /\
  _kind (setData st data) = _kind st /\
  _label (setData st data) = _label st /\
  _layout (setData st data) = _layout st /\
  _simPath (setData st data) = _simPath st /\
  (forall d first rest,
      data = Some d -> frameNames d = first :: rest ->
      (_currentFrame st = None \/ _currentFrame st = Some "" \/
       exists cf, _currentFrame st = Some cf /\ ~ In cf (frameNames d)) ->
      _currentFrame (setData st data) = Some first) /\
  (data = None -> _currentFrame (setData st data) = None) /\
  (forall d,
      data = Some d ->
      (frameNames d = [] \/
       exists cf, _currentFrame st = Some cf /\ cf <> "" /\ In cf (frameNames d)) ->
      _currentFrame (setData st data) = _currentFrame st).
Proof.
  destruct (setData_other_fields st data) as (H1 & H2 & H3 & H4 & H5).
  do 5 (split; [assumption|]). clear H1 H2 H3 H4 H5.
  unfold setData. split; [|split].
  - intros d first rest -> Hf Hcur. rewrite Hf. cbn.
    destruct Hcur as [-> | [-> | [cf [-> Hnin]]]]; cbn; auto.
    apply includes_not_In in Hnin. rewrite Hf in Hnin.
    unfold includes in *. cbn in Hnin. rewrite Hnin.
    rewrite orb_true_r. reflexivity.
  - intros ->. reflexivity.
  - intros d -> [Hf | [cf [Hcf [Hne Hin]]]].
    + rewrite Hf. reflexivity.
    + destruct (frameNames d) as [|first rest] eqn:Hf; [reflexivity|]. cbn.
      rewrite Hcf. cbn.
      apply String.eqb_neq in Hne. rewrite Hne.
      apply includes_In in Hin.
      unfold includes in *. cbn in Hin. rewrite Hin. cbn. reflexivity.
Qed.

Lemma setData_current_frame_witness :
  _currentFrame (setData init (Some (snapshot_with_frames ["f0"; "f1"]))) = Some "f0" /\
  _currentFrame (setData (setCurrentFrame init (Some "gone"))
                   (Some (snapshot_with_frames ["f0"; "f1"]))) = Some "f0" /\
  _currentFrame (setData (setCurrentFrame init (Some "f1")) None) = None /\
  _currentFrame (setData (setCurrentFrame init (Some "f1"))
                   (Some (snapshot_with_frames ["f0"; "f1"]))) = Some "f1" /\
  _currentFrame (setData (setCurrentFrame init (Some "f1"))
                   (Some (snapshot_with_frames []))) = Some "f1".
Proof.
  split; [|split; [|split; [|split]]].
  - apply (setData_current_frame init (Some (snapshot_with_frames ["f0"; "f1"])))
      with (d := snapshot_with_frames ["f0"; "f1"]) (rest := ["f1"]);
      [reflexivity | reflexivity | left; reflexivity].
  - apply (setData_current_frame (setCurrentFrame init (Some "gone"))
             (Some (snapshot_with_frames ["f0"; "f1"])))
      with (d := snapshot_with_frames ["f0"; "f1"]) (rest := ["f1"]);
      [reflexivity | reflexivity |].
    right; right. exists "gone". split; [reflexivity|].
    cbn. intros [H | [H | []]]; discriminate.
  - apply (setData_current_frame (setCurrentFrame init (Some "f1")) None). reflexivity.
  - apply (setData_current_frame (setCurrentFrame init (Some "f1"))
             (Some (snapshot_with_frames ["f0"; "f1"])))
      with (d := snapshot_with_frames ["f0"; "f1"]); [reflexivity|].
    right. exists "f1". repeat split; [discriminate | cbn; auto].
  - apply (setData_current_frame (setCurrentFrame init (Some "f1"))
             (Some (snapshot_with_frames [])))
      with (d := snapshot_with_frames []); [reflexivity | left; reflexivity].
Defined.

(** The current frame is the frame named by the empty string, which the new
    snapshot still has, yet [setData] moves the current frame to the first
    frame name. *)
Lemma setData_replaces_empty_frame_name :
  let st := setCurrentFrame init (Some "") in
  let d := snapshot_with_frames ["b"; ""] in
  _currentFrame st <> None /\
  (exists cf, _currentFrame st = Some cf /\ In cf (frameNames d)) /\
  _currentFrame (setData st (Some d)) = Some "b" /\
  _currentFrame (setData st (Some d)) <> _currentFrame st.
Proof.
  cbn. repeat split; try discriminate.
  exists "". split; [reflexivity | right; left; reflexivity].
Qed.

(** *** Invalidation of the simulation path *)

Lemma existsb_label (ns : list ChgNode.t) (x : string) :
  existsb (fun n => String.eqb (ChgNode.label n) x) ns = true
  <-> In x (map ChgNode.label ns).
Proof.
  rewrite existsb_exists, in_map_iff. split.
  - intros [n [Hn E]]. apply String.eqb_eq in E. eauto.
  - intros [n [E Hn]]. exists n. split; auto. now apply String.eqb_eq.
Qed.


Lemma onDataChange_idempotent (st : ChgState.t) :
  ChgSimulateProvider.onDataChange (ChgSimulateProvider.onDataChange st)
  = ChgSimulateProvider.onDataChange st.
Proof.
  unfold ChgSimulateProvider.onDataChange.
  destruct (_simPath st) as [sp|] eqn:Hs; [|now rewrite Hs].
  destruct (negb _) eqn:Hn; cbn; [reflexivity|]. now rewrite Hs, Hn.
Qed.

(** Any number of subscribed listeners acts as one. *)
Lemma fire_once (subs : nat) (st : ChgState.t) :
  ChgSimulateProvider.fire (S subs) st = ChgSimulateProvider.onDataChange st.
Proof.
  unfold ChgSimulateProvider.fire.
  induction subs as [|n IH]; [reflexivity|].
  change (Nat.iter (S (S n)) ChgSimulateProvider.onDataChange st)
    with (ChgSimulateProvider.onDataChange
            (Nat.iter (S n) ChgSimulateProvider.onDataChange st)).
  rewrite IH. apply onDataChange_idempotent.
Qed.




End ChgStateFacts.

(** ** The details view *)

Module ChgDetailsFacts.
Import ChgDetailsSpec.
Import ChgState ChgDetailsProvider.

(** The displayed value where the lookup stays within the frame.  For a
    node whose constant flag is truthy it is [node.value], whatever the active
    frame; for a non-constant node with an entry [v :: _] in the active
    frame it is [v]; for a non-constant node without an entry in the active
    frame it is the legacy [node.value], provided the label names no member
    of [Object.prototype]; so it is with no active frame. *)
Lemma effective_value (st : ChgState.t) (node : ChgNode.t) :
  (truthy (coalesce (ChgNode.is_constant node) (ChgNode.constant node)) = true ->
   _getNodeValue st node = Value (ChgNode.value node)) /\
  (forall f d frame v rest,
      truthy (coalesce (ChgNode.is_constant node) (ChgNode.constant node)) = false ->
      _currentFrame st = Some f -> f <> "" -> _data st = Some d ->
      lookup f (frames d) = Some frame ->
      lookup (ChgNode.label node) frame = Some (v :: rest) ->
      _getNodeValue st node = Value (Some v)) /\
  (forall f d frame,
      truthy (coalesce (ChgNode.is_constant node) (ChgNode.constant node)) = false ->
      _currentFrame st = Some f -> _data st = Some d ->
      lookup f (frames d) = Some frame ->
      lookup (ChgNode.label node) frame = None ->
      lookup "__proto__" frame = None ->
      inherited (ChgNode.label node) = false ->
      _getNodeValue st node = Value (ChgNode.value node)) /\
  (truthy (coalesce (ChgNode.is_constant node) (ChgNode.constant node)) = false ->
   _currentFrame st = None ->
   _getNodeValue st node = Value (ChgNode.value node)).
Proof.
  unfold _getNodeValue, read. repeat split.
  - intros ->. reflexivity.
  - intros f d frame v rest -> -> Hne -> Hf Hl. cbn [truthy_str].
    apply String.eqb_neq in Hne. rewrite Hne. cbn [negb hd_error]. now rewrite Hf, Hl.
  - intros f d frame -> -> -> Hf Hl Hp Hi. cbn [truthy_str].
    destruct (String.eqb f ""); cbn [negb]; [reflexivity|]. now rewrite Hf, Hl, Hp, Hi.
  - intros -> ->. reflexivity.
Qed.

Lemma effective_value_examples :
  _getNodeValue (state_with_frame_f0 [("k", [JNum 1])])
    (ChgNode.mk "k" (Some (JNum 5)) (Some (JBool true)) None None (Some (JBool true)))
  = Value (Some (JNum 5)) /\
  _getNodeValue (state_with_frame_f0 [("n", [JNum 9])])
    (ChgNode.mk "n" None None None None None) = Value (Some (JNum 9)) /\
  _getNodeValue (state_with_frame_f0 [])
    (ChgNode.mk "n" (Some (JNum 7)) None None None None) = Value (Some (JNum 7)) /\
  _getNodeValue init
    (ChgNode.mk "n" (Some (JNum 7)) None None None None) = Value (Some (JNum 7)).
Proof.
  split; [|split; [|split]].
  - exact (proj1 (effective_value (state_with_frame_f0 [("k", [JNum 1])])
                    (ChgNode.mk "k" (Some (JNum 5)) (Some (JBool true)) None None
                       (Some (JBool true)))) eq_refl).
  - refine (proj1 (proj2 (effective_value (state_with_frame_f0 [("n", [JNum 9])])
                            (ChgNode.mk "n" None None None None None)))
                  "f0" (mkChgData [] [] [("f0", [("n", [JNum 9])])] ["f0"])
                  [("n", [JNum 9])] (JNum 9) [] eq_refl eq_refl _ eq_refl eq_refl eq_refl).
    discriminate.
  - exact (proj1 (proj2 (proj2 (effective_value (state_with_frame_f0 [])
                                  (ChgNode.mk "n" (Some (JNum 7)) None None None None))))
                 "f0" (mkChgData [] [] [("f0", [])] ["f0"]) []
                 eq_refl eq_refl eq_refl eq_refl eq_refl eq_refl eq_refl).
  - exact (proj2 (proj2 (proj2 (effective_value init
                                  (ChgNode.mk "n" (Some (JNum 7)) None None None None))))
                 eq_refl eq_refl).
Defined.

(** C5, where it fails.  A non-constant node whose label names a member
    of [Object.prototype] and which has no entry in the active frame is not
    shown with its legacy [node.value]: the lookup in the frame finds the
    inherited member, and that is what is displayed. *)
Theorem inherited_member_displaces_the_legacy_value
        (st : ChgState.t) (node : ChgNode.t) (f : string) (d : ChgData)
        (frame : list (string * list json)) :
  truthy (coalesce (ChgNode.is_constant node) (ChgNode.constant node)) = false ->
  _currentFrame st = Some f -> f <> "" -> _data st = Some d ->
  lookup f (frames d) = Some frame ->
  lookup (ChgNode.label node) frame = None ->
  lookup "__proto__" frame = None ->
  inherited (ChgNode.label node) = true ->
  _getNodeValue st node = Member (ChgNode.label node) /\
  _getNodeValue st node <> Value (ChgNode.value node).
Proof.
  intros Hc Hcur Hne Hd Hf Hl Hp Hi.
  assert (H : _getNodeValue st node = Member (ChgNode.label node)).
  { unfold _getNodeValue, read. rewrite Hc, Hcur, Hd. cbn [truthy_str].
    apply String.eqb_neq in Hne. rewrite Hne. cbn [negb].
    now rewrite Hf, Hl, Hp, Hi. }
  split; [exact H|]. rewrite H. discriminate.
Qed.

(** The document [{nodes: [{label: "constructor", value: 7}], frames:
    {f0: {}}}], loaded: the node is shown with the function
    [Object.prototype.constructor] instead of 7. *)
Lemma inherited_member_displaces_the_legacy_value_witness :
  exists d node,
    Normalizer.parse_raw SelectionSpec.constructor_document = Normal d /\
    nodes d = [node] /\
    ChgNode.value node = Some (JNum 7) /\
    _currentFrame (setData init (Some d)) = Some "f0" /\
    _getNodeValue (setData init (Some d)) node = Member "constructor" /\
    _getNodeValue (setData init (Some d)) node <> Value (Some (JNum 7)).
Proof.
  exists (mkChgData [ChgNode.mk "constructor" (Some (JNum 7)) None None None None] []
                    [("f0", [])] ["f0"]),
         (ChgNode.mk "constructor" (Some (JNum 7)) None None None None).
  split; [reflexivity|]. split; [reflexivity|].
  split; [reflexivity|]. split; [reflexivity|].
  apply (inherited_member_displaces_the_legacy_value
           (setData init
              (Some (mkChgData
                       [ChgNode.mk "constructor" (Some (JNum 7)) None None None None] []
                       [("f0", [])] ["f0"])))
           (ChgNode.mk "constructor" (Some (JNum 7)) None None None None) "f0"
           (mkChgData [ChgNode.mk "constructor" (Some (JNum 7)) None None None None] []
                      [("f0", [])] ["f0"]) []);
    solve [reflexivity | discriminate].
Defined.

End ChgDetailsFacts.

(** ** Mutable access to the raw document *)

Module RawFacts.
Import Raw JSFacts.

(** A non-empty array was found in place, so the document was not repaired
    and is an object; writing the array back and reading it again gives what
    was written. *)
Lemma get_mutable_array_nonempty (k : string) (raw raw1 : json) (items : list json) :
  get_mutable_array k raw = Normal (raw1, items) ->
  items <> [] ->
  raw1 = raw /\
  (exists o, raw = JObj o) /\
  forall items',
    get_mutable_array k (put_mutable_array k raw items')
    = Normal (put_mutable_array k raw items', items').
Proof.
  unfold get_mutable_array, put_mutable_array.
  destruct raw as [| b | z | s | l | o]; cbn [get bind]; try discriminate.
  - (* an array document *)
    cbn. intros [= <- <-] Hne. contradiction.
  - destruct (truthy (lookup "hypergraph" o)) eqn:Et.
    + destruct (lookup "hypergraph" o) as [[| b | z | s | l | hg]|] eqn:Eh;
        try discriminate.
      * intros [= <- <-] Hne. contradiction.
      * destruct (lookup k hg) as [[| b | z | s | l | o']|] eqn:Ek;
          intros [= <- <-] Hne; try contradiction.
        split; [reflexivity|]. split; [eauto|]. intros items'.
        cbn [get bind]. rewrite lookup_set_same. cbn [truthy].
        rewrite lookup_set_same. reflexivity.
    + destruct (lookup k o) as [[| b | z | s | l | o']|] eqn:Ek;
        intros [= <- <-] Hne; try contradiction.
      split; [reflexivity|]. split; [eauto|]. intros items'.
      cbn [get bind].
      destruct (String.eqb k "hypergraph") eqn:Ekh.
      * apply String.eqb_eq in Ekh. subst k. rewrite Ek in Et. discriminate.
      * apply String.eqb_neq in Ekh.
        rewrite (lookup_set_other _ _ _ _ Ekh), Et, lookup_set_same. reflexivity.
Qed.

Lemma find_by_label_bound (l : string) (items : list json) (i : nat) :
  find_by_label l items = Normal (Some i) ->
  exists o, nth_error items i = Some (JObj o) /\ lookup "label" o = Some (JStr l).
Proof.
  revert i. induction items as [|n items IH]; cbn [find_by_label]; intros i.
  - discriminate.
  - destruct (get (Some n) "label") as [lbl|] eqn:El; cbn [bind]; [|discriminate].
    destruct (strict_eq_str lbl l) eqn:Es.
    + intros [= <-]. cbn.
      destruct n as [| b | z | s | items' | o]; cbn in El; try discriminate;
        injection El as <-; try discriminate.
      exists o. split; auto.
      destruct (lookup "label" o) as [[| b | z | s | l' | o']|]; try discriminate.
      cbn in Es. apply String.eqb_eq in Es. now subst.
    + destruct (find_by_label l items) as [[j|]|]; cbn [bind option_map]; try discriminate.
      intros [= <-]. cbn. now apply IH.
Qed.

Lemma find_by_label_update (l : string) (f : json -> json) (items : list json) (i : nat) :
  (forall n, get (Some (f n)) "label" = get (Some n) "label") ->
  find_by_label l items = Normal (Some i) ->
  find_by_label l (update_nth i f items) = Normal (Some i).
Proof.
  intros Hf. revert i. induction items as [|n items IH]; cbn [find_by_label]; intros i.
  - discriminate.
  - destruct (get (Some n) "label") as [lbl|] eqn:El; cbn [bind]; [|discriminate].
    destruct (strict_eq_str lbl l) eqn:Es.
    + intros [= <-]. cbn [update_nth find_by_label]. rewrite Hf, El. cbn [bind].
      now rewrite Es.
    + destruct (find_by_label l items) as [[j|]|] eqn:Er; cbn [bind option_map];
        try discriminate.
      intros [= <-]. cbn [update_nth find_by_label]. rewrite El. cbn [bind].
      rewrite Es, (IH j eq_refl). reflexivity.
Qed.

Lemma nth_update_nth {A} (i : nat) (f : A -> A) (l : list A) (x d : A) :
  nth_error l i = Some x -> nth i (update_nth i f l) d = f x.
Proof.
  revert i. induction l as [|y l IH]; intros [|i]; cbn; try discriminate.
  - now intros [= ->].
  - apply IH.
Qed.

Lemma assign_keeps_label (k : string) (v : JS.value) (n : json) :
  k <> "label" -> get (Some (assign k v n)) "label" = get (Some n) "label".
Proof.
  intros Hk. destruct n as [| b | z | s | l | o]; try reflexivity.
  destruct v as [x|]; cbn.
  - now rewrite lookup_set_other.
  - now rewrite lookup_delete_other.
Qed.

Lemma get_assign_same (k : string) (v : JS.value) (o : list (string * json)) :
  get (Some (assign k v (JObj o))) k = Normal v.
Proof.
  destruct v as [x|]; cbn.
  - now rewrite lookup_set_same.
  - now rewrite lookup_delete_same.
Qed.

End RawFacts.

(** ** The simulation merge *)

Module ChgSimulateFacts.
Import ChgSimulateSpec.
Import ChgState ChgSimulateProvider Raw RawFacts JSFacts.

Lemma write_node_value_stored (raw : json) (nodes : list json) (i : nat)
      (label : string) (value : JS.value) :
  getNodes raw = Normal (raw, nodes) ->
  find_by_label label nodes = Normal (Some i) ->
  stored_node_value
    (put_mutable_array "nodes" raw (update_nth i (assign "value" value) nodes)) label
  = Normal value.
Proof.
  intros Hg Hf.
  destruct (find_by_label_bound _ _ _ Hf) as [no [Hnth Hl]].
  assert (Hne : nodes <> []) by (intros ->; destruct i; discriminate).
  destruct (get_mutable_array_nonempty _ _ _ _ Hg Hne) as (_ & _ & Hput).
  unfold stored_node_value, getNodes. rewrite Hput. cbn [bind snd].
  rewrite (find_by_label_update label _ nodes i); auto.
  2: { intros n. apply assign_keeps_label. discriminate. }
  cbn [bind]. rewrite (nth_update_nth _ _ _ _ _ Hnth). apply get_assign_same.
Qed.

Lemma write_frame_entry_stored (refuses : string -> string -> bool)
      (o : list (string * json)) (frameKey label : string) (value : JS.value) :
  frame_slot_writable (JObj o) frameKey = true ->
  inherited frameKey = false -> label <> "__proto__" ->
  exists raw',
    write_frame_entry refuses o frameKey label value = Normal raw' /\
    stored_frame_entry raw' frameKey label = Some (cell value).
Proof.
  unfold frame_slot_writable, write_frame_entry, stored_frame_entry. fold (cell value).
  intros Hw Hi Hl.
  destruct (if truthy (lookup "frames" o) then lookup "frames" o else Some (JObj []))
    as [[| b | z | s | l | fr]|]; try discriminate.
  rewrite Hi.
  destruct (lookup frameKey fr) as [found|] eqn:Ef.
  - destruct (truthy (Some found)).
    + destruct found as [| b | z | s | l | fo]; try discriminate.
      eexists. split; [reflexivity|].
      cbn [get_opt]. rewrite lookup_set_same. cbn [get_opt].
      rewrite lookup_set_same. cbn [get_opt]. now apply lookup_put_same.
    + eexists. split; [reflexivity|].
      cbn [get_opt]. rewrite lookup_set_same. cbn [get_opt].
      rewrite lookup_set_same. cbn [get_opt]. now apply lookup_put_same.
  - assert (Hk : frameKey <> "__proto__") by (intros ->; discriminate).
    eexists. split; [reflexivity|].
    cbn [get_opt]. rewrite lookup_set_same. cbn [get_opt].
    rewrite (lookup_put_same frameKey _ fr Hk). cbn [get_opt].
    now apply lookup_put_same.
Qed.

(** C2 (as amended).  For a result without an error, with the host ready
    and a node selected that the document contains: the value is written
    into [node.value] when the node is constant or no frame is active, and
    otherwise into the active frame's entry for the label as a one-element
    array replacing any entry there, where the frame name names no member
    of [Object.prototype] and the label is not [__proto__]; and the
    annotation is replaced by the returned path, cost and counts when the
    result carries both [target_node] and [path_nodes], and is left as it
    was when it does not. *)
Theorem simulation_merge_effects
        (h : host) (st : ChgState.t) (raw raw1 : json)
        (label : string) (nodes : list json) (i : nat) :
  let frameKey := match _currentFrame st with Some f => f | None => "" end in
  let result := runScript h label frameKey in
  let isConst := constant_flag (nth i nodes JNull) in
  host_ready h = true ->
  _kind st = Some NODE -> _label st = Some label -> label <> "" ->
  truthy_str (SimResult.error result) = false ->
  getNodes raw = Normal (raw1, nodes) ->
  find_by_label label nodes = Normal (Some i) ->
  (isConst = false -> frameKey <> "" ->
   frame_slot_writable raw frameKey = true /\
   inherited frameKey = false /\ label <> "__proto__") ->
  exists raw' st',
    _simulate h st (Normal raw) = Normal (Normal raw', st') /\
    (if isConst || String.eqb frameKey ""
     then stored_node_value raw' label = Normal (SimResult.value result)
     else stored_frame_entry raw' frameKey label
          = Some (cell (SimResult.value result))) /\
    _simPath st'
    = match SimResult.target_node result, SimResult.path_nodes result with
      | Some tn, Some pn => Some (path_of_result tn pn result)
      | _, _ => _simPath st
      end.
Proof.
  intros frameKey result isConst Hh Hk Hl Hne Herr Hg Hf Hw.
  destruct (find_by_label_bound _ _ _ Hf) as [no [Hnth Hlab]].
  assert (Hnn : nodes <> []) by (intros ->; destruct i; discriminate).
  destruct (get_mutable_array_nonempty _ _ _ _ Hg Hnn) as (-> & [o ->] & _).
  assert (Hnode : nth i nodes JNull = JObj no) by (now apply nth_error_nth).
  assert (Hwrite : exists raw',
             _writeSimulationResult (builtinRefuses h) (Normal (JObj o)) label
               (SimResult.value result) frameKey = Normal (Normal raw') /\
             (if isConst || String.eqb frameKey ""
              then stored_node_value raw' label = Normal (SimResult.value result)
              else stored_frame_entry raw' frameKey label
                   = Some (cell (SimResult.value result)))).
  { unfold _writeSimulationResult. rewrite Hg. cbn [bind]. rewrite Hf. cbn [bind].
    rewrite Hnode. cbn [get bind].
    unfold isConst, constant_flag in *. rewrite Hnode in *. cbn [get_opt] in *.
    destruct (truthy (coalesce (lookup "is_constant" no) (lookup "constant" no))) eqn:Ec.
    - cbn [orb]. eexists. split; [reflexivity|].
      now apply write_node_value_stored.
    - cbn [orb]. destruct (String.eqb frameKey "") eqn:Ef; cbn [negb].
      + eexists. split; [reflexivity|]. now apply write_node_value_stored.
      + apply String.eqb_neq in Ef.
        destruct (Hw eq_refl Ef) as (Hw1 & Hw2 & Hw3).
        destruct (write_frame_entry_stored (builtinRefuses h) o frameKey label
                    (SimResult.value result) Hw1 Hw2 Hw3)
          as [raw' [Hwr Hst]].
        rewrite Hwr. cbn [bind]. eauto. }
  destruct Hwrite as [raw' [Hwr Hstored]].
  unfold host_ready in Hh. unfold _simulate.
  destruct (getPythonPath h); try discriminate.
  destruct (getActiveChgUri h); try discriminate.
  rewrite Hh, Hk, Hl. cbn [negb truthy_str].
  apply String.eqb_neq in Hne. rewrite Hne. cbn [negb].
  fold frameKey. fold result. rewrite Herr, Hwr. cbn [bind].
  destruct (SimResult.target_node result) as [tn|];
    [destruct (SimResult.path_nodes result) as [pn|]|];
    eexists; eexists; (split; [reflexivity|]); (split; [exact Hstored|]); reflexivity.
Qed.

(** *** The end-to-end scenario of the specification *)

Lemma simulation_merge_effects_witness :
  exists raw' st',
    _simulate (scenario_host scenario_result) scenario_state (Normal scenario_document)
    = Normal (Normal raw', st') /\
    stored_frame_entry raw' "f0" "b" = Some (JArr [JNum 4]) /\
    _simPath st' = Some (SimPath.mk "b" ["a"; "b"] ["e1"] 1 1 2).
Proof.
  refine (simulation_merge_effects (scenario_host scenario_result) scenario_state
            scenario_document scenario_document "b" _ 1
            eq_refl eq_refl eq_refl _ eq_refl eq_refl eq_refl
            (fun _ _ => conj eq_refl (conj eq_refl _))).
  - discriminate.
  - discriminate.
Defined.

(** A result that carries a value but no path: the value is written, the
    annotation that was active stays.  A full result for a node the
    document does not contain: the annotation is replaced, nothing is
    written. *)
Lemma simulation_effects_come_apart :
  let old := SimPath.mk "a" ["a"] [] 0 0 1 in
  let st := setSimPath scenario_state (Some old) in
  let value_only := SimResult.mk (Some (JNum 4)) None None None None None None None in
  let other_document := JObj [("nodes", JArr [JObj [("label", JStr "a")]])] in
  (exists raw' st',
      _simulate (scenario_host value_only) st (Normal scenario_document)
      = Normal (Normal raw', st') /\
      stored_frame_entry scenario_document "f0" "b" = None /\
      stored_frame_entry raw' "f0" "b" = Some (JArr [JNum 4]) /\
      _simPath st' = Some old) /\
  (exists st',
      _simulate (scenario_host scenario_result) st (Normal other_document)
      = Normal (Normal other_document, st') /\
      _simPath st' = Some (SimPath.mk "b" ["a"; "b"] ["e1"] 1 1 2)).
Proof.
  cbv zeta. split.
  - eexists. eexists. split; [reflexivity|]. split; [reflexivity|].
    split; reflexivity.
  - eexists. split; reflexivity.
Qed.

(** An error result changes neither the document nor the store. *)
Lemma simulation_error_changes_nothing (h : host) (st : ChgState.t) (doc : document) :
  (forall label frameKey, truthy_str (SimResult.error (runScript h label frameKey)) = true) ->
  _simulate h st doc = Normal (doc, st).
Proof.
  intros Herr. unfold _simulate.
  destruct (getPythonPath h); auto.
  destruct (negb (hasConstrainthg h)); auto.
  destruct (getActiveChgUri h); auto.
  destruct (_kind st) as [[| |]|]; auto.
  destruct (_label st) as [label|]; auto.
  destruct (negb (truthy_str (Some label))); auto.
  now rewrite Herr.
Qed.

End ChgSimulateFacts.

(** ** Renaming a node from the details view *)

Module RenameFacts.
Import RenameSpec.
Import ChgState ChgDetailsProvider.

(** C1, evaluated.  Renaming "a" to "c" renames the node, the frame entry,
    the selection and the array-form edge "e2"; the keyed source of "e1"
    still names "a", which no node carries any more. *)
Theorem rename_misses_keyed_sources :
  exists raw' st' d',
    _updateNode_label selected_a keyed_document "a" (JStr "c") = Normal (raw', st') /\
    Normalizer.parse_raw raw' = Normal d' /\
    map ChgNode.label (nodes d') = ["c"; "b"] /\
    map (edge_references "a") (edges d') = [true; false] /\
    map (edge_references "c") (edges d') = [false; true] /\
    frames d' = [("f0", [("c", [JNum 1])])] /\
    _kind st' = Some NODE /\ _label st' = Some "c".
Proof.
  eexists. eexists. eexists.
  split; [reflexivity|]. split; [reflexivity|].
  cbn. repeat split; reflexivity.
Qed.

End RenameFacts.

(** ** The simulation-path overlay *)

Module ChgEditorFacts.
Import ChgEditorSpec.
Import ChgEditorWebview.

Lemma has_In (l : list string) (x : string) : has l x = true <-> In x l.
Proof.
  unfold has. rewrite existsb_exists. split.
  - intros [y [Hy E]]. apply String.eqb_eq in E. now subst.
  - intros H. exists x. split; auto. apply String.eqb_refl.
Qed.

Lemma buildElements_ok (d : option ChgData) :
  Forall (fun x => data_ok x = true) (buildElements d).
Proof.
  destruct d as [d|]; cbn [buildElements]; [|constructor].
  apply Forall_app. split.
  - apply Forall_map, Forall_forall. reflexivity.
  - apply Forall_flat_map, Forall_forall. intros edge _.
    constructor; [reflexivity|]. apply Forall_app. split.
    + unfold source_links. apply Forall_flat_map, Forall_forall. intros src _.
      destruct (has _ _); repeat constructor.
    + unfold target_link. destruct (_ && _); repeat constructor.
Qed.

Lemma NoDup_map_eq {A B} (f : A -> B) (l : list A) (x y : A) :
  NoDup (map f l) -> In x l -> In y l -> f x = f y -> x = y.
Proof.
  induction l as [|a l IH]; cbn; [contradiction|].
  intros Hnd Hx Hy E. apply NoDup_cons_iff in Hnd as [Hnin Hnd].
  destruct Hx as [-> | Hx], Hy as [-> | Hy]; auto.
  - exfalso. apply Hnin. rewrite E. now apply in_map.
  - exfalso. apply Hnin. rewrite <- E. now apply in_map.
Qed.

(** Selecting element descriptions keeps their ids distinct. *)
Lemma distinct_ids_filter (keep : ele_data -> bool) (ds : list ele_data) :
  NoDup (map data_id ds) -> NoDup (map data_id (filter keep ds)).
Proof.
  induction ds as [|d ds IH]; cbn; auto.
  intros Hnd. apply NoDup_cons_iff in Hnd as [Hnin Hnd].
  destruct (keep d); cbn; auto. constructor; auto.
  intros Hin. apply Hnin. apply in_map_iff in Hin as [x [E Hx]].
  apply filter_In in Hx as [Hx _]. rewrite <- E. now apply in_map.
Qed.

(** Nodes first, then edges: the ids stay distinct. *)
Lemma distinct_ids_nodes_then_edges (ds : list ele_data) :
  NoDup (map data_id ds) ->
  NoDup (map data_id (filter (fun d => negb (data_isEdge d)) ds
                      ++ filter data_isEdge ds)).
Proof.
  intros Hnd. rewrite map_app. apply NoDup_app.
  - now apply distinct_ids_filter.
  - now apply distinct_ids_filter.
  - intros b Hb1 Hb2.
    apply in_map_iff in Hb1 as [x [Ex Hx]]. apply in_map_iff in Hb2 as [y [Ey Hy]].
    apply filter_In in Hx as [Hx Hpx]. apply filter_In in Hy as [Hy Hpy].
    assert (x = y) by (apply (NoDup_map_eq data_id ds); congruence).
    subst y. rewrite Hpy in Hpx. discriminate.
Qed.

Lemma fresh_ids_spec (seen : list string) (jsons : list ele_data) :
  NoDup (map data_id (fresh_ids seen jsons)) /\
  forall d, In d (fresh_ids seen jsons) -> In d jsons /\ ~ In (data_id d) seen.
Proof.
  revert seen. induction jsons as [|d jsons IH]; intros seen; cbn [fresh_ids].
  - split; [constructor | intros d []].
  - destruct (has seen (data_id d)) eqn:E.
    + destruct (IH seen) as [Hnd Hin]. split; auto.
      intros d' Hd'. destruct (Hin d' Hd'). split; auto. now right.
    + destruct (IH (data_id d :: seen)) as [Hnd Hin]. split.
      * cbn. constructor; auto. intros Hd.
        apply in_map_iff in Hd as [d' [E' Hd']].
        destruct (Hin d' Hd') as [_ Hn]. apply Hn. left. now symmetry.
      * intros d' [<- | Hd'].
        -- split; [now left|]. intros Hs. apply has_In in Hs. congruence.
        -- destruct (Hin d' Hd') as [H1 H2]. split; [now right|].
           intros Hs. apply H2. now right.
Qed.

Lemma fold_restore_spec (l : list ele_data) (c : cy) :
  NoDup (map id c ++ map data_id l) ->
  NoDup (map id (fold_left restore l c)) /\
  forall e, In e (fold_left restore l c) -> In e c \/ In (data e) l.
Proof.
  revert c. induction l as [|d l IH]; intros c Hnd; cbn [fold_left].
  - cbn in Hnd. rewrite app_nil_r in Hnd. auto.
  - assert (Hskip : NoDup (map id c ++ map data_id l))
      by (cbn in Hnd; now apply NoDup_remove_1 in Hnd).
    assert (Hadd : NoDup (map id (c ++ [mkEle d []]) ++ map data_id l)).
    { rewrite map_app, <- app_assoc. exact Hnd. }
    assert (Hcase : restore c d = c \/ restore c d = c ++ [mkEle d []]).
    { unfold restore. destruct d; auto. destruct (_ && _); auto. }
    destruct Hcase as [-> | ->].
    + destruct (IH c Hskip) as [H1 H2]. split; auto.
      intros e He. destruct (H2 e He); auto. right. now right.
    + destruct (IH _ Hadd) as [H1 H2]. split; auto.
      intros e He. destruct (H2 e He) as [Hin | Hin].
      * apply in_app_iff in Hin as [Hin | [<- | []]]; auto. right. now left.
      * right. now right.
Qed.

Lemma rebuild_ok (d : option ChgData) : ok_store (rebuild d).
Proof.
  unfold rebuild, add. cbn [map].
  destruct (fresh_ids_spec [] (buildElements d)) as [Hnd Hin].
  destruct (fold_restore_spec
              (filter (fun x => negb (data_isEdge x)) (fresh_ids [] (buildElements d))
               ++ filter data_isEdge (fresh_ids [] (buildElements d))) [])
    as [H1 H2].
  { cbn. now apply distinct_ids_nodes_then_edges. }
  split; auto. apply Forall_forall. intros e He.
  destruct (H2 e He) as [[] | Hd].
  assert (Hin' : In (data e) (fresh_ids [] (buildElements d))).
  { apply in_app_iff in Hd as [Hd | Hd]; apply filter_In in Hd; tauto. }
  destruct (Hin _ Hin') as [Hb _].
  pose proof (buildElements_ok d) as Hok. rewrite Forall_forall in Hok. auto.
Qed.

Lemma ok_store_same_data (c c' : cy) :
  map data c = map data c' -> ok_store c' -> ok_store c.
Proof.
  unfold ok_store, id. intros E [Hnd Hok].
  rewrite <- (map_map data data_id), E, (map_map data data_id). split; auto.
  apply (Forall_map data (fun d => data_ok d = true)).
  rewrite E. now apply Forall_map.
Qed.

Lemma getElementById_map (h : ele -> ele) (c : cy) (i : string) :
  (forall e, id (h e) = id e) ->
  getElementById (map h c) i = option_map h (getElementById c i).
Proof.
  intros Hid. unfold getElementById.
  induction c as [|e c IH]; cbn; auto.
  rewrite Hid. destruct (String.eqb (id e) i); auto.
Qed.

Lemma hasClassById_map (cls : string) (h : ele -> ele) (c : cy) (s : string) :
  (forall e, id (h e) = id e) ->
  (forall e, id e = s -> hasClass cls (h e) = hasClass cls e) ->
  hasClassById cls s (map h c) = hasClassById cls s c.
Proof.
  intros Hid Hcls. unfold hasClassById. rewrite getElementById_map by assumption.
  destruct (getElementById c s) as [e|] eqn:E; cbn; auto.
  apply find_some in E as [_ E]. apply String.eqb_eq in E. auto.
Qed.

Lemma hasClass_addClass (cls : string) (e : ele) : hasClass cls (addClass cls e) = true.
Proof.
  unfold addClass. destruct (hasClass cls e) eqn:E; auto.
  unfold hasClass, has. cbn. rewrite existsb_app. cbn.
  rewrite String.eqb_refl. now rewrite orb_true_r.
Qed.

Lemma addClass_idempotent (cls : string) (e : ele) :
  addClass cls (addClass cls e) = addClass cls e.
Proof. unfold addClass at 1. now rewrite hasClass_addClass. Qed.

Lemma data_addClass (cls : string) (e : ele) : data (addClass cls e) = data e.
Proof. unfold addClass. now destruct (hasClass cls e). Qed.

Lemma hasClass_removeClass (cls : string) (e : ele) :
  hasClass cls (removeClass cls e) = false.
Proof.
  unfold hasClass, removeClass, has. cbn.
  induction (classes e) as [|c l IH]; cbn; auto.
  destruct (String.eqb c cls) eqn:E; cbn; auto.
  rewrite String.eqb_sym, E. exact IH.
Qed.

Lemma link_id_not_node_like (e : ele) :
  data_ok (data e) = true -> isEdge e = true -> node_like (id e) = false.
Proof.
  unfold isEdge, id. destruct (data e) as [i l t | i s t]; cbn; try discriminate.
  intros H _. destruct (node_like i); auto.
Qed.

Lemma node_like_neq (a b : string) : node_like a = true -> node_like b = false -> a <> b.
Proof. intros Ha Hb ->. congruence. Qed.

(** Adding the class to a graph node leaves every link as it is. *)
Lemma addClassById_node_keeps_links (i : string) (c : cy) :
  node_like i = true ->
  Forall (fun e => data_ok (data e) = true) c ->
  Forall (fun e => isEdge e = true -> hasClass "sim-path" e = false) c ->
  map data (addClassById "sim-path" i c) = map data c /\
  Forall (fun e => isEdge e = true -> hasClass "sim-path" e = false)
         (addClassById "sim-path" i c).
Proof.
  intros Hi Hok Hl. unfold addClassById. split.
  - rewrite map_map. apply map_ext. intros e.
    destruct (String.eqb (id e) i); auto using data_addClass.
  - apply Forall_map. rewrite Forall_forall in *. intros e He.
    destruct (String.eqb (id e) i) eqn:E; auto.
    apply String.eqb_eq in E. intros Hedge.
    unfold isEdge in Hedge. rewrite data_addClass in Hedge.
    pose proof (link_id_not_node_like e (Hok e He) Hedge). congruence.
Qed.

Lemma fold_addClassById_nodes (prefix : string) (labels : list string) (c : cy) :
  (forall l, node_like (prefix ++ l) = true) ->
  Forall (fun e => data_ok (data e) = true) c ->
  Forall (fun e => isEdge e = true -> hasClass "sim-path" e = false) c ->
  let c' := fold_left (fun acc l => addClassById "sim-path" (prefix ++ l) acc) labels c in
  map data c' = map data c /\
  Forall (fun e => isEdge e = true -> hasClass "sim-path" e = false) c'.
Proof.
  intros Hp. revert c. induction labels as [|l labels IH]; intros c Hok Hl; cbn; auto.
  destruct (addClassById_node_keeps_links (prefix ++ l) c (Hp l) Hok Hl) as [Hd Hl'].
  destruct (IH (addClassById "sim-path" (prefix ++ l) c)) as [Hd2 Hl2]; auto.
  { apply (Forall_map data (fun d => data_ok d = true)). rewrite Hd.
    now apply Forall_map. }
  split; auto. cbn in Hd2. now rewrite Hd2.
Qed.

Lemma id_mark (cl : string -> bool) (L : list ele) (e : ele) : id (mark cl L e) = id e.
Proof. unfold mark, id. destruct (marked cl L e); auto. now rewrite data_addClass. Qed.

Lemma mark_link_as_map (cl : string -> bool) (c : cy) (l : ele) :
  (forall s, node_like s = true -> hasClassById "sim-path" s c = cl s) ->
  data_ok (data l) = true ->
  mark_link c l = map (mark cl [l]) c.
Proof.
  intros Hcl Hok. unfold mark_link, mark, marked, link_cond, id. cbn [existsb].
  destruct (data l) as [i lbl t | i s t] eqn:El; cbn [data_id].
  - rewrite <- (map_id c) at 1. apply map_ext. intros e.
    now rewrite andb_false_r.
  - cbn in Hok. apply andb_prop in Hok as [Hok Ht]. apply andb_prop in Hok as [_ Hs].
    rewrite (Hcl s Hs), (Hcl t Ht).
    destruct (cl s && cl t).
    + unfold addClassById, id. apply map_ext. intros e.
      now rewrite andb_true_r, orb_false_r.
    + rewrite <- (map_id c) at 1. apply map_ext. intros e.
      now rewrite andb_false_r.
Qed.

Lemma marked_node_like (cl : string -> bool) (L : list ele) (e : ele) :
  Forall (fun l => data_ok (data l) = true /\ isEdge l = true) L ->
  node_like (id e) = true -> marked cl L e = false.
Proof.
  intros HL Hn. unfold marked. induction HL as [|l L [Hok He] _ IH]; cbn; auto.
  rewrite IH, orb_false_r.
  destruct (String.eqb (id e) (id l)) eqn:E; auto.
  apply String.eqb_eq in E. pose proof (link_id_not_node_like l Hok He). congruence.
Qed.

Lemma hasClassById_mark (cl : string -> bool) (L : list ele) (c : cy) (s : string) :
  Forall (fun l => data_ok (data l) = true /\ isEdge l = true) L ->
  node_like s = true ->
  hasClassById "sim-path" s (map (mark cl L) c) = hasClassById "sim-path" s c.
Proof.
  intros HL Hs. apply hasClassById_map.
  - apply id_mark.
  - intros e <-. unfold mark. now rewrite (marked_node_like cl L e HL Hs).
Qed.

(** The [forEach] over the links is one pass that adds the class to the
    links whose two endpoints carry it. *)
Lemma fold_mark_link_as_map (cl : string -> bool) (L : list ele) (c : cy) :
  (forall s, node_like s = true -> hasClassById "sim-path" s c = cl s) ->
  Forall (fun l => data_ok (data l) = true /\ isEdge l = true) L ->
  fold_left mark_link L c = map (mark cl L) c.
Proof.
  intros Hcl HL. revert c Hcl.
  induction HL as [|l L [Hok He] HL IH]; intros c Hcl; cbn [fold_left].
  - rewrite <- (map_id c) at 1. apply map_ext. reflexivity.
  - rewrite (mark_link_as_map cl c l Hcl Hok).
    rewrite IH.
    2: { intros s Hs. rewrite hasClassById_mark; auto. }
    rewrite map_map. apply map_ext. intros e.
    unfold mark at 1. unfold marked at 1.
    assert (Hid : id (mark cl [l] e) = id e) by apply id_mark.
    rewrite Hid. fold (marked cl L e).
    unfold mark, marked. cbn [existsb]. rewrite orb_false_r.
    destruct (String.eqb (id e) (id l) && link_cond cl l); cbn [orb].
    + destruct (existsb _ L); auto using addClass_idempotent.
    + reflexivity.
Qed.

(** The overlay on any store of distinct ids whose links join graph nodes. *)
Lemma applySimPath_links (path : SimPath.t) (c : cy) (e : ele) (i s t : string) :
  ok_store c ->
  In e (applySimPath path c) -> data e = CyEdge i s t ->
  hasClass "sim-path" e
  = hasClassById "sim-path" s (applySimPath path c)
    && hasClassById "sim-path" t (applySimPath path c).
Proof.
  intros Hc. unfold applySimPath.
  set (c1 := map (removeClass "sim-path") c).
  assert (H1d : map data c1 = map data c).
  { unfold c1. rewrite map_map. apply map_ext. reflexivity. }
  assert (H1ok : Forall (fun x => data_ok (data x) = true) c1).
  { apply (ok_store_same_data _ _ H1d Hc). }
  assert (H1l : Forall (fun x => isEdge x = true -> hasClass "sim-path" x = false) c1).
  { unfold c1. apply Forall_map, Forall_forall. intros x _ _.
    apply hasClass_removeClass. }
  destruct (fold_addClassById_nodes "n:" (SimPath.nodes path) c1) as [H2d H2l]; auto.
  set (c2 := fold_left (fun acc nodeLabel => addClassById "sim-path" ("n:" ++ nodeLabel) acc)
                       (SimPath.nodes path) c1) in *.
  assert (H2ok : Forall (fun x => data_ok (data x) = true) c2).
  { apply (Forall_map data (fun d => data_ok d = true)). rewrite H2d.
    now apply Forall_map. }
  destruct (fold_addClassById_nodes "e:" (SimPath.edges path) c2) as [H3d H3l]; auto.
  set (c3 := fold_left (fun acc edgeLabel => addClassById "sim-path" ("e:" ++ edgeLabel) acc)
                       (SimPath.edges path) c2) in *.
  assert (H3 : ok_store c3).
  { apply (ok_store_same_data _ c); auto. now rewrite H3d, H2d. }
  destruct H3 as [H3nd H3ok].
  set (cl := fun x => hasClassById "sim-path" x c3).
  assert (HL : Forall (fun l => data_ok (data l) = true /\ isEdge l = true)
                      (filter isEdge c3)).
  { apply Forall_forall. intros l Hl. apply filter_In in Hl as [Hl He].
    rewrite Forall_forall in H3ok. auto. }
  rewrite (fold_mark_link_as_map cl (filter isEdge c3) c3); auto.
  intros He Hd.
  apply in_map_iff in He as [e0 [<- He0]].
  assert (Hd0 : data e0 = CyEdge i s t).
  { unfold mark in Hd. destruct (marked cl _ e0); auto.
    now rewrite data_addClass in Hd. }
  assert (Hedge : isEdge e0 = true) by (unfold isEdge; now rewrite Hd0).
  assert (Hok0 : data_ok (data e0) = true) by (rewrite Forall_forall in H3ok; auto).
  assert (Hst : node_like s = true /\ node_like t = true).
  { rewrite Hd0 in Hok0. cbn in Hok0.
    apply andb_prop in Hok0 as [Hok0 Ht]. apply andb_prop in Hok0 as [_ Hs]. auto. }
  destruct Hst as [Hs Ht].
  rewrite !(hasClassById_mark cl) by assumption.
  fold (cl s). fold (cl t).
  assert (Hm : marked cl (filter isEdge c3) e0 = cl s && cl t).
  { destruct (marked cl (filter isEdge c3) e0) eqn:Em.
    - unfold marked in Em. apply existsb_exists in Em as [l [Hl Hc']].
      apply andb_prop in Hc' as [Eid Hcond]. apply String.eqb_eq in Eid.
      apply filter_In in Hl as [Hl _].
      assert (e0 = l) by (apply (NoDup_map_eq id c3); auto). subst l.
      unfold link_cond in Hcond. now rewrite Hd0 in Hcond.
    - destruct (cl s && cl t) eqn:Ec; auto.
      assert (Hex : marked cl (filter isEdge c3) e0 = true).
      { unfold marked. apply existsb_exists. exists e0. split.
        - apply filter_In. auto.
        - rewrite String.eqb_refl. unfold link_cond. now rewrite Hd0. }
      congruence. }
  unfold mark. rewrite Hm.
  destruct (cl s && cl t); [apply hasClass_addClass|].
  rewrite Forall_forall in H3l. auto.
Qed.

(** C8.  After the overlay is applied to the elements built from a
    document, whatever classes they carried before, a connecting link
    carries the path class exactly when both of its endpoints carry it. *)
Theorem link_on_path_iff_both_endpoints
        (d : option ChgData) (path : SimPath.t) (c : cy)
        (e : ele) (i s t : string) :
  map data c = map data (rebuild d) ->
  In e (applySimPath path c) ->
  data e = CyEdge i s t ->
  hasClass "sim-path" e = true
  <-> highlighted (applySimPath path c) s = true
      /\ highlighted (applySimPath path c) t = true.
Proof.
  intros Hc He Hd. unfold highlighted.
  rewrite (applySimPath_links path c e i s t
             (ok_store_same_data _ _ Hc (rebuild_ok d)) He Hd).
  apply andb_true_iff.
Qed.

Lemma link_on_path_iff_both_endpoints_witness :
  (hasClass "sim-path" (mkEle (CyEdge "se:e1:a" "n:a" "e:e1") ["sim-path"]) = true
   <-> highlighted (applySimPath full_path (rebuild scenario_data)) "n:a" = true
       /\ highlighted (applySimPath full_path (rebuild scenario_data)) "e:e1" = true) /\
  (hasClass "sim-path" (mkEle (CyEdge "se:e1:a" "n:a" "e:e1") []) = true
   <-> highlighted (applySimPath only_node_a (rebuild scenario_data)) "n:a" = true
       /\ highlighted (applySimPath only_node_a (rebuild scenario_data)) "e:e1" = true).
Proof.
  split.
  - apply (link_on_path_iff_both_endpoints scenario_data full_path
             (rebuild scenario_data)
             (mkEle (CyEdge "se:e1:a" "n:a" "e:e1") ["sim-path"]) "se:e1:a" "n:a" "e:e1").
    + reflexivity.
    + vm_compute. right; right; right; left; reflexivity.
    + reflexivity.
  - apply (link_on_path_iff_both_endpoints scenario_data only_node_a
             (rebuild scenario_data)
             (mkEle (CyEdge "se:e1:a" "n:a" "e:e1") []) "se:e1:a" "n:a" "e:e1").
    + reflexivity.
    + vm_compute. right; right; right; left; reflexivity.
    + reflexivity.
Defined.

End ChgEditorFacts.

(** ** Frames of the canonical model and the reparse cycle *)

Module FramesFacts.
Import FramesSpec.
Import Normalizer ChgState JSFacts.

Lemma parse_raw_frames (raw : json) (d : ChgData) :
  parse_raw raw = Normal d ->
  (frames d, frameNames d) = parse_frames (get_opt (Some raw) "frames").
Proof.
  unfold parse_raw.
  destruct (get (Some raw) "hypergraph") as [h|]; cbn [bind]; [|discriminate].
  destruct (get (coalesce h (Some raw)) "nodes") as [hn|]; cbn [bind]; [|discriminate].
  destruct (match hn with
            | Some (JArr items) => for_of parse_node items
            | _ => Normal []
            end) as [ns|]; cbn [bind]; [|discriminate].
  destruct (get (coalesce h (Some raw)) "edges") as [he|]; cbn [bind]; [|discriminate].
  destruct (match he with
            | Some (JArr items) => for_of parse_edge items
            | _ => Normal []
            end) as [es|]; cbn [bind]; [|discriminate].
  destruct (get (Some raw) "frames") as [rf|] eqn:Ef; cbn [bind]; [|discriminate].
  rewrite <- (NormalizerFacts.get_as_get_opt _ _ _ Ef).
  destruct (parse_frames rf) as [fr fn]. intros [= <-]. reflexivity.
Qed.

Lemma parse_frames_names_match (rf : JS.value) : names_match (parse_frames rf).
Proof.
  unfold parse_frames.
  destruct (truthy rf && typeof_object rf); [|intros name; cbn; tauto].
  destruct rf as [fr|]; [|intros name; cbn; tauto].
  assert (Hgen : forall l acc, names_match acc ->
             names_match
               (fold_left
                  (fun acc fd =>
                     let '(frames, frameNames) := acc in
                     let '(frameName, frameData) := fd in
                     if truthy (Some frameData) && typeof_object (Some frameData)
                     then (set frameName (parse_frame frameData) frames,
                           frameNames ++ [frameName])
                     else acc) l acc)).
  { induction l as [|[fname fdata] l IH]; intros [fs ns] Hacc; cbn [fold_left]; auto.
    apply IH.
    destruct (truthy (Some fdata) && typeof_object (Some fdata)); auto.
    intros name. cbn [fst snd]. rewrite in_app_iff. cbn [In].
    destruct (String.eqb fname name) eqn:E.
    - apply String.eqb_eq in E. subst. rewrite lookup_set_same.
      split; [discriminate | auto].
    - apply String.eqb_neq in E. rewrite (lookup_set_other _ _ _ _ E).
      specialize (Hacc name). cbn [fst snd] in Hacc. rewrite <- Hacc.
      split; [intros [H | [H | []]]; [auto | contradiction] | auto]. }
  apply Hgen. intros name. cbn. tauto.
Qed.

(** X1.  In every model the parser returns, a name other than [__proto__]
    is listed in [frameNames] exactly when [frames] has an entry of its
    own under that name. *)
Theorem frameNames_are_the_frames (raw : json) (d : ChgData) (name : string) :
  parse_raw raw = Normal d ->
  name <> "__proto__" ->
  (In name (frameNames d) <-> lookup name (frames d) <> None).
Proof.
  intros Hp _. pose proof (parse_frames_names_match (get_opt (Some raw) "frames")) as H.
  rewrite <- (parse_raw_frames _ _ Hp) in H. apply H.
Qed.

Lemma frameNames_are_the_frames_witness :
  exists d,
    parse_raw ChgSimulateSpec.scenario_document = Normal d /\
    (In "f0" (frameNames d) <-> lookup "f0" (frames d) <> None).
Proof.
  eexists. split; [reflexivity|].
  apply (frameNames_are_the_frames ChgSimulateSpec.scenario_document _ "f0" eq_refl).
  discriminate.
Defined.

Lemma state_ext (a b : ChgState.t) :
  _kind a = _kind b -> _label a = _label b -> _data a = _data b ->
  _currentFrame a = _currentFrame b -> _layout a = _layout b ->
  _simPath a = _simPath b -> a = b.
Proof. destruct a, b; cbn; intros; subst; reflexivity. Qed.

Lemma setData_frame (st : ChgState.t) (data : option ChgData) :
  _currentFrame (setData st data) = next_frame (_currentFrame st) data.
Proof.
  unfold setData, next_frame.
  destruct data as [d|]; [|reflexivity].
  destruct (frameNames d) as [|first rest]; [reflexivity|].
  cbn [_currentFrame].
  destruct (negb (truthy_str (_currentFrame st))
            || negb match _currentFrame st with
                    | Some cf => includes (first :: rest) cf
                    | None => false
                    end); reflexivity.
Qed.

Lemma next_frame_member (cur : option string) (d : ChgData) :
  frameNames d <> [] ->
  exists cf, next_frame cur (Some d) = Some cf /\ In cf (frameNames d).
Proof.
  intros Hne. unfold next_frame.
  destruct (frameNames d) as [|first rest] eqn:Hf; [contradiction|].
  destruct cur as [cf|]; cbn [truthy_str negb orb].
  - destruct (negb (negb (String.eqb cf ""))) eqn:E; cbn [orb].
    + exists first. split; [reflexivity | now left].
    + destruct (includes (first :: rest) cf) eqn:Hi; cbn [negb].
      * exists cf. split; [reflexivity | now apply ChgStateFacts.includes_In].
      * exists first. split; [reflexivity | now left].
  - exists first. split; [reflexivity | now left].
Qed.

Lemma next_frame_idempotent (cur : option string) (data : option ChgData) :
  next_frame (next_frame cur data) data = next_frame cur data.
Proof.
  destruct data as [d|]; [|reflexivity].
  destruct (frameNames d) as [|first rest] eqn:Hf.
  - unfold next_frame. now rewrite Hf.
  - destruct (next_frame_member cur d) as [cf [Hcf Hin]]; [congruence|].
    rewrite Hcf. unfold next_frame in *. rewrite Hf in *.
    cbn [truthy_str].
    destruct (String.eqb cf "") eqn:E; cbn [negb orb].
    + (* the empty name was chosen, so it is the first name *)
      apply String.eqb_eq in E. subst cf.
      destruct cur as [c|]; cbn [truthy_str] in Hcf.
      * destruct (negb (negb (String.eqb c ""))) eqn:Ec; cbn [orb] in Hcf.
        -- exact Hcf.
        -- destruct (negb (includes (first :: rest) c)); [exact Hcf|].
           injection Hcf as ->. rewrite String.eqb_refl in Ec. discriminate.
      * exact Hcf.
    + apply ChgStateFacts.includes_In in Hin. now rewrite Hin.
Qed.

Lemma onDataChange_fields (st : ChgState.t) :
  _data (ChgSimulateProvider.onDataChange st) = _data st /\
  _currentFrame (ChgSimulateProvider.onDataChange st) = _currentFrame st /\
  _kind (ChgSimulateProvider.onDataChange st) = _kind st /\
  _label (ChgSimulateProvider.onDataChange st) = _label st /\
  _layout (ChgSimulateProvider.onDataChange st) = _layout st.
Proof.
  unfold ChgSimulateProvider.onDataChange.
  destruct (_simPath st); [destruct (negb _)|]; repeat split; reflexivity.
Qed.

Lemma fire_fields (subs : nat) (st : ChgState.t) :
  _data (ChgSimulateProvider.fire subs st) = _data st /\
  _currentFrame (ChgSimulateProvider.fire subs st) = _currentFrame st /\
  _kind (ChgSimulateProvider.fire subs st) = _kind st /\
  _label (ChgSimulateProvider.fire subs st) = _label st /\
  _layout (ChgSimulateProvider.fire subs st) = _layout st.
Proof.
  destruct subs as [|n]; [cbn; auto|].
  rewrite ChgStateFacts.fire_once. apply onDataChange_fields.
Qed.

(** X2.  After a document that parses and has at least one frame is loaded,
    the store holds its model and the current frame is one of the model's
    frame names; unless that name is [__proto__], [frames] has an entry of
    its own under it. *)
Theorem active_frame_resolves_after_load
        (JSON_parse : string -> completion json) (subs : nat)
        (p : ChgOutlineProvider.t) (st : ChgState.t) (text : string) (d : ChgData) :
  parseChgData JSON_parse text = Some d ->
  frameNames d <> [] ->
  _data (snd (Extension.updateFromDocument JSON_parse subs p st text)) = Some d /\
  exists cf,
    _currentFrame (snd (Extension.updateFromDocument JSON_parse subs p st text)) = Some cf /\
    In cf (frameNames d) /\
    (cf <> "__proto__" -> exists frame, lookup cf (frames d) = Some frame).
Proof.
  intros Hp Hne.
  unfold Extension.updateFromDocument, ChgOutlineProvider.loadFromDocument.
  rewrite Hp. cbn [snd ChgOutlineProvider.getData ChgOutlineProvider.data].
  destruct (fire_fields subs (setData st (Some d))) as (Hd & Hc & _).
  rewrite Hd, Hc.
  destruct (ChgStateFacts.setData_other_fields st (Some d)) as (Hd' & _).
  split; [exact Hd'|].
  destruct (next_frame_member (_currentFrame st) d Hne) as [cf [Hcf Hin]].
  rewrite setData_frame.
  assert (Hraw : exists raw, parse_raw raw = Normal d).
  { unfold parseChgData in Hp. destruct (JSON_parse text) as [raw|]; cbn in Hp;
      [|discriminate].
    exists raw. destruct (parse_raw raw); cbn in Hp; congruence. }
  destruct Hraw as [raw Hraw].
  pose proof (parse_frames_names_match (get_opt (Some raw) "frames")) as H.
  rewrite <- (parse_raw_frames _ _ Hraw) in H.
  exists cf. split; [exact Hcf|]. split; [exact Hin|]. intros _.
  destruct (lookup cf (frames d)) as [frame|] eqn:El.
  - now exists frame.
  - exfalso. apply (H cf); auto.
Qed.

Lemma active_frame_resolves_after_load_witness :
  let JSON_parse := fun _ : string => Normal ChgSimulateSpec.scenario_document in
  exists d,
    parseChgData JSON_parse "text" = Some d /\
    _data (snd (Extension.updateFromDocument JSON_parse 1
                  (ChgOutlineProvider.mk None) init "text")) = Some d /\
    exists cf,
      _currentFrame (snd (Extension.updateFromDocument JSON_parse 1
                            (ChgOutlineProvider.mk None) init "text")) = Some cf /\
      In cf (frameNames d) /\
      (cf <> "__proto__" -> exists frame, lookup cf (frames d) = Some frame).
Proof.
  intros JSON_parse. eexists. split; [reflexivity|].
  apply (active_frame_resolves_after_load JSON_parse 1 (ChgOutlineProvider.mk None)
           init "text").
  - reflexivity.
  - discriminate.
Defined.

Lemma setData_idempotent (st : ChgState.t) (data : option ChgData) :
  setData (setData st data) data = setData st data.
Proof.
  destruct (ChgStateFacts.setData_other_fields (setData st data) data)
    as (H1 & H2 & H3 & H4 & H5).
  destruct (ChgStateFacts.setData_other_fields st data) as (G1 & _).
  apply state_ext; try assumption.
  - congruence.
  - rewrite !setData_frame. apply next_frame_idempotent.
Qed.

Lemma setData_after_onDataChange (st : ChgState.t) (data : option ChgData) :
  setData (ChgSimulateProvider.onDataChange (setData st data)) data
  = ChgSimulateProvider.onDataChange (setData st data).
Proof.
  destruct (ChgStateFacts.setData_other_fields
              (ChgSimulateProvider.onDataChange (setData st data)) data)
    as (H1 & H2 & H3 & H4 & H5).
  destruct (onDataChange_fields (setData st data)) as (G1 & G2 & G3 & G4 & G5).
  destruct (ChgStateFacts.setData_other_fields st data) as (K1 & _).
  apply state_ext; try assumption.
  - congruence.
  - rewrite setData_frame, G2, setData_frame. apply next_frame_idempotent.
Qed.

Lemma fire_idempotent (subs : nat) (st : ChgState.t) :
  ChgSimulateProvider.fire subs (ChgSimulateProvider.fire subs st)
  = ChgSimulateProvider.fire subs st.
Proof.
  destruct subs as [|n]; [reflexivity|].
  rewrite !ChgStateFacts.fire_once. apply ChgStateFacts.onDataChange_idempotent.
Qed.

Lemma setData_after_fire (subs : nat) (st : ChgState.t) (data : option ChgData) :
  setData (ChgSimulateProvider.fire subs (setData st data)) data
  = ChgSimulateProvider.fire subs (setData st data).
Proof.
  destruct subs as [|n]; [apply setData_idempotent|].
  rewrite ChgStateFacts.fire_once. apply setData_after_onDataChange.
Qed.

(** X3.  An update whose text does not parse leaves the provider as it is.
    It leaves the store as it is exactly when [setData] with the
    provider's last good model changes nothing (the store holds that model
    and the current frame is the one [setData] chooses) and the subscribed
    listeners leave the simulation path.  This is the case directly after
    an update, provided a listener was subscribed then if one is now. *)
Theorem failed_parse_is_a_no_op
        (JSON_parse : string -> completion json) (subs : nat)
        (p : ChgOutlineProvider.t) (st : ChgState.t) (bad : string) :
  parseChgData JSON_parse bad = None ->
  fst (Extension.updateFromDocument JSON_parse subs p st bad) = p /\
  (snd (Extension.updateFromDocument JSON_parse subs p st bad) = st
   <-> setData st (ChgOutlineProvider.getData p) = st /\
       ChgSimulateProvider.fire subs st = st) /\
  (forall (before : nat) (text : string),
      ((0 < subs)%nat -> (0 < before)%nat) ->
      let '(p1, st1) := Extension.updateFromDocument JSON_parse before p st text in
      Extension.updateFromDocument JSON_parse subs p1 st1 bad = (p1, st1)).
Proof.
  intros Hbad.
  assert (Hupd : forall q s,
             Extension.updateFromDocument JSON_parse subs q s bad
             = (q, ChgSimulateProvider.fire subs (setData s (ChgOutlineProvider.getData q)))).
  { intros q s. unfold Extension.updateFromDocument, ChgOutlineProvider.loadFromDocument.
    now rewrite Hbad. }
  rewrite Hupd. cbn [fst snd]. split; [reflexivity|]. split.
  - set (data := ChgOutlineProvider.getData p). split.
    + intros E.
      destruct (fire_fields subs (setData st data)) as (G1 & G2 & _).
      destruct (ChgStateFacts.setData_other_fields st data) as (_ & K2 & K3 & K4 & K5).
      assert (Hs : setData st data = st).
      { apply state_ext; try assumption.
        - rewrite <- G1, E. reflexivity.
        - rewrite <- G2, E. reflexivity. }
      split; [exact Hs|]. now rewrite Hs in E.
    + intros [Hs Hf]. now rewrite Hs.
  - intros before text Hsub.
    unfold Extension.updateFromDocument at 1.
    destruct (ChgOutlineProvider.loadFromDocument JSON_parse p text) as [p1 ok].
    rewrite Hupd. f_equal.
    set (data := ChgOutlineProvider.getData p1).
    rewrite setData_after_fire.
    destruct subs as [|n]; [reflexivity|].
    destruct before as [|m]; [exfalso; specialize (Hsub ltac:(lia)); lia|].
    rewrite !ChgStateFacts.fire_once. apply ChgStateFacts.onDataChange_idempotent.
Qed.

Lemma failed_parse_is_a_no_op_witness :
  let JSON_parse := fun text : string =>
                      if String.eqb text "good" then Normal ChgSimulateSpec.scenario_document
                      else Throw SyntaxError in
  let '(p1, st1) := Extension.updateFromDocument JSON_parse 1
                      (ChgOutlineProvider.mk None) init "good" in
  Extension.updateFromDocument JSON_parse 1 p1 st1 "{" = (p1, st1).
Proof.
  intros JSON_parse.
  refine (proj2 (proj2 (failed_parse_is_a_no_op JSON_parse 1 (ChgOutlineProvider.mk None)
                          init "{" eq_refl)) 1%nat "good" _).
  intros H; exact H.
Defined.

End FramesFacts.

(** ** Whether the selected node has a value *)

Module SelectionFacts.
Import SelectionSpec.
Import ChgState ChgSimulateProvider ChgDetailsProvider.

(** X4.  For the selected node, [_selectedNodeHasValue] agrees with the
    value the details view displays ([_getNodeValue]): it is true exactly
    when that value is neither [undefined], [null] nor the empty string (a
    member inherited from [Object.prototype] counts as a value), except
    that it is false whenever the node is non-constant and nothing is
    found for it in the active frame, although the details view then
    displays the legacy [node.value]. *)
Theorem hasValue_matches_displayed_value
        (st : ChgState.t) (label : string) (d : ChgData) (node : ChgNode.t) :
  _kind st = Some NODE -> _label st = Some label -> label <> "" ->
  _data st = Some d ->
  find (fun n => String.eqb (ChgNode.label n) label) (nodes d) = Some node ->
  _selectedNodeHasValue st
  = match _getNodeValue st node with
    | Value v => Some (negb (shows_legacy_value st node) && has_content v)
    | Member _ => Some true
    | Unresolved => None
    end.
Proof.
  intros Hk Hl Hne Hd Hf.
  assert (Hlab : ChgNode.label node = label).
  { apply find_some in Hf as [_ E]. now apply String.eqb_eq in E. }
  unfold _selectedNodeHasValue, shows_legacy_value, _getNodeValue.
  rewrite Hk, Hl, Hd, Hf, Hlab. cbn [truthy_str].
  apply String.eqb_neq in Hne. rewrite Hne. cbn [negb].
  destruct (truthy (coalesce (ChgNode.is_constant node) (ChgNode.constant node)));
    cbn [negb andb]; [reflexivity|].
  destruct (_currentFrame st) as [cf|]; cbn [truthy_str andb]; [|reflexivity].
  destruct (String.eqb cf ""); cbn [negb andb]; [reflexivity|].
  destruct (read cf (frames d)) as [frame| | |]; cbn [negb andb]; try reflexivity.
  destruct (read label frame) as [[|v0 rest]| | |]; reflexivity.
Qed.

Lemma hasValue_matches_displayed_value_witness :
  let d := mkChgData [ChgNode.mk "n" (Some (JNum 7)) None None None None] []
                     [("f0", [])] ["f0"] in
  let st := select_node (setData init (Some d)) "n" in
  let node := ChgNode.mk "n" (Some (JNum 7)) None None None None in
  _selectedNodeHasValue st = Some false /\
  _getNodeValue st node = Value (Some (JNum 7)) /\
  _selectedNodeHasValue st
  = match _getNodeValue st node with
    | Value v => Some (negb (shows_legacy_value st node) && has_content v)
    | Member _ => Some true
    | Unresolved => None
    end.
Proof.
  intros d st node. split; [reflexivity|]. split; [reflexivity|].
  apply (hasValue_matches_displayed_value st "n" d node);
    solve [reflexivity | discriminate].
Defined.

End SelectionFacts.

(** ** HTML escaping *)

Module EscFacts.
Import EscSpec.
Import ChgDetailsProvider.

Lemma occurs_app (c : ascii) (a b : string) :
  occurs c (a ++ b) = occurs c a || occurs c b.
Proof.
  induction a as [|x a IH]; cbn; auto. rewrite IH. now rewrite orb_assoc.
Qed.

(** X5.  [esc] escapes each character of [String(v ?? '')] once: the
    ampersand, the angle brackets and the double quote become their
    entities, every other character stays, and the ampersand of an entity
    produced by a later pass is not escaped again. *)
Theorem esc_is_characterwise (v : JS.value) : esc v = esc_chars (text_of v).
Proof.
  unfold esc. fold (text_of v).
  induction (text_of v) as [|a s IH]; [reflexivity|].
  cbn [esc_chars]. rewrite <- IH. unfold esc_char.
  destruct (Ascii.eqb a "&") eqn:E1.
  { apply Ascii.eqb_eq in E1. subst a. cbn. reflexivity. }
  destruct (Ascii.eqb a "<") eqn:E2.
  { apply Ascii.eqb_eq in E2. subst a. cbn. reflexivity. }
  destruct (Ascii.eqb a ">") eqn:E3.
  { apply Ascii.eqb_eq in E3. subst a. cbn. reflexivity. }
  destruct (Ascii.eqb a double_quote) eqn:E4.
  { apply Ascii.eqb_eq in E4. subst a. cbn. reflexivity. }
  cbn [replace_all]. rewrite E1. cbn [replace_all]. rewrite E2.
  cbn [replace_all]. rewrite E3. cbn [replace_all]. rewrite E4. reflexivity.
Qed.

Lemma replace_all_removes (c : ascii) (rep s : string) :
  occurs c rep = false -> occurs c (replace_all c rep s) = false.
Proof.
  intros Hrep. induction s as [|a s IH]; cbn [replace_all]; [reflexivity|].
  destruct (Ascii.eqb a c) eqn:E.
  - now rewrite occurs_app, Hrep, IH.
  - cbn [occurs]. now rewrite E, IH.
Qed.

Lemma replace_all_keeps_out (c d : ascii) (rep s : string) :
  occurs d rep = false -> occurs d s = false ->
  occurs d (replace_all c rep s) = false.
Proof.
  intros Hrep. induction s as [|a s IH]; cbn [replace_all occurs]; [reflexivity|].
  intros Hs. apply orb_false_elim in Hs as [Ha Hs].
  destruct (Ascii.eqb a c).
  - now rewrite occurs_app, Hrep, IH.
  - cbn [occurs]. now rewrite Ha, IH.
Qed.

(** X6.  Whatever value is passed, the text [esc] returns contains no
    angle bracket and no double quote. *)
Theorem esc_output_has_no_markup (v : JS.value) :
  occurs "<" (esc v) = false /\
  occurs ">" (esc v) = false /\
  occurs double_quote (esc v) = false.
Proof.
  unfold esc. split; [|split].
  - apply replace_all_keeps_out; [reflexivity|].
    apply replace_all_keeps_out; [reflexivity|].
    now apply replace_all_removes.
  - apply replace_all_keeps_out; [reflexivity|].
    now apply replace_all_removes.
  - now apply replace_all_removes.
Qed.

End EscFacts.

(** ** The outline tree *)

Module OutlineFacts.
Import OutlineSpec.
Import ChgOutlineTree.

Lemma existsb_or_filters {A} (p q : A -> bool) (l : list A) :
  existsb (fun x => p x || q x) l = true <-> filter p l ++ filter q l <> [].
Proof.
  rewrite existsb_exists. split.
  - intros [x [Hx Hpq]] Hnil. apply app_eq_nil in Hnil as [Hp Hq].
    apply orb_prop in Hpq as [H | H].
    + assert (Hin : In x (filter p l)) by (apply filter_In; auto).
      rewrite Hp in Hin. contradiction.
    + assert (Hin : In x (filter q l)) by (apply filter_In; auto).
      rewrite Hq in Hin. contradiction.
  - intros Hne.
    destruct (filter p l) as [|x xs] eqn:Hp.
    + destruct (filter q l) as [|y ys] eqn:Hq; [contradiction|].
      assert (Hin : In y (filter q l)) by (rewrite Hq; now left).
      apply filter_In in Hin as [Hy Hqy]. exists y. split; auto.
      rewrite Hqy. apply orb_true_r.
    + assert (Hin : In x (filter p l)) by (rewrite Hp; now left).
      apply filter_In in Hin as [Hx Hpx]. exists x. split; auto. now rewrite Hpx.
Qed.

(** X7.  A node item of the outline is shown as expandable exactly when
    expanding it yields children: the edges that lead to the node or trail
    from it. *)
Theorem node_item_expandable_iff_it_has_children
        (d : ChgData) (root item : ChgOutlineItem) :
  itemKind root = nodes_root ->
  In item (getChildren (Some d) (Some root)) ->
  (collapsibleState item = Collapsed <-> getChildren (Some d) (Some item) <> []).
Proof.
  intros Hroot Hin. cbn [getChildren] in Hin. rewrite Hroot in Hin.
  apply in_map_iff in Hin as [n [<- Hn]].
  cbn [getChildren itemKind new_ChgOutlineItem collapsibleState].
  set (p := fun e => String.eqb (ChgEdge.target e) (ChgNode.label n)).
  set (q := references_node (ChgNode.label n)).
  assert (Hlen : forall (f g : ChgEdge.t -> ChgOutlineItem),
             map f (filter p (edges d)) ++ map g (filter q (edges d)) <> []
             <-> filter p (edges d) ++ filter q (edges d) <> []).
  { intros f g. destruct (filter p (edges d)), (filter q (edges d)); cbn;
      split; intros H; try discriminate; try contradiction; auto. }
  rewrite Hlen, <- existsb_or_filters. subst p q. cbn beta.
  destruct (existsb _ (edges d)); split; intros H;
    try reflexivity; try discriminate.
Qed.

Lemma node_item_expandable_iff_it_has_children_witness :
  (collapsibleState (item_of_node outline_example "a" true) = Collapsed
   <-> getChildren (Some outline_example) (Some (item_of_node outline_example "a" true))
       <> []) /\
  (collapsibleState (item_of_node outline_example "lonely" false) = Collapsed
   <-> getChildren (Some outline_example)
         (Some (item_of_node outline_example "lonely" false)) <> []).
Proof.
  split.
  - apply (node_item_expandable_iff_it_has_children outline_example nodes_root_item).
    + reflexivity.
    + left. reflexivity.
  - apply (node_item_expandable_iff_it_has_children outline_example nodes_root_item).
    + reflexivity.
    + right. left. reflexivity.
Defined.

(** X8.  The node items of the outline carry pairwise distinct tree ids
    exactly when the node labels of the model are pairwise distinct. *)
Theorem node_item_ids_distinct_iff_labels_distinct (d : ChgData) (root : ChgOutlineItem) :
  itemKind root = nodes_root ->
  (NoDup (map id (getChildren (Some d) (Some root)))
   <-> NoDup (map ChgNode.label (nodes d))).
Proof.
  intros Hroot. cbn [getChildren]. rewrite Hroot.
  rewrite map_map. cbn [id new_ChgOutlineItem kindToId].
  rewrite <- (map_map ChgNode.label (fun l => ("node:" ++ l)%string)).
  split.
  - apply NoDup_map_inv.
  - intros Hnd. apply NoDup_map_NoDup_ForallPairs; auto.
    intros a b _ _ E. cbn in E. now injection E.
Qed.

Lemma node_item_ids_distinct_iff_labels_distinct_witness :
  NoDup (map id (getChildren (Some outline_example) (Some nodes_root_item)))
  <-> NoDup ["a"; "lonely"].
Proof.
  exact (node_item_ids_distinct_iff_labels_distinct outline_example nodes_root_item eq_refl).
Defined.

End OutlineFacts.

(** ** The graph built from a document *)

Module GraphFacts.
Import GraphSpec ChgEditorSpec ChgStateSpec.
Import ChgEditorWebview ChgEditorFacts.

Lemma hasElementWithId_app (c : cy) (x : ele) (i : string) :
  hasElementWithId c i = true -> hasElementWithId (c ++ [x]) i = true.
Proof.
  unfold hasElementWithId, getElementById. induction c as [|e c IH]; cbn.
  - discriminate.
  - destruct (String.eqb (id e) i); auto.
Qed.

Lemma hasElementWithId_last (c : cy) (x : ele) :
  hasElementWithId (c ++ [x]) (id x) = true.
Proof.
  unfold hasElementWithId, getElementById. induction c as [|e c IH]; cbn.
  - now rewrite String.eqb_refl.
  - destruct (String.eqb (id e) (id x)); auto.
Qed.

Lemma restore_cases (c : cy) (d : ele_data) :
  restore c d = c \/
  (restore c d = c ++ [mkEle d []] /\
   forall i s t, d = CyEdge i s t ->
                 hasElementWithId c s = true /\ hasElementWithId c t = true).
Proof.
  unfold restore. destruct d as [i l t | i s t].
  - right. split; auto. discriminate.
  - destruct (hasElementWithId c s && hasElementWithId c t) eqn:E; auto.
    right. split; auto. intros i' s' t' [= _ <- <-]. now apply andb_prop in E.
Qed.

Lemma restore_closed (c : cy) (d : ele_data) :
  links_closed c -> links_closed (restore c d).
Proof.
  intros Hc. destruct (restore_cases c d) as [-> | [-> Hd]]; auto.
  intros e i s t He Hdata. apply in_app_iff in He as [He | [<- | []]].
  - destruct (Hc e i s t He Hdata). split; now apply hasElementWithId_app.
  - cbn in Hdata. destruct (Hd i s t Hdata). split; now apply hasElementWithId_app.
Qed.

Lemma fold_restore_closed (l : list ele_data) (c : cy) :
  links_closed c -> links_closed (fold_left restore l c).
Proof.
  revert c. induction l as [|d l IH]; intros c Hc; cbn; auto using restore_closed.
Qed.

Lemma rebuild_data_in (d : option ChgData) (e : ele) :
  In e (rebuild d) -> In (data e) (buildElements d).
Proof.
  unfold rebuild, add. cbn [map]. intros He.
  destruct (fresh_ids_spec [] (buildElements d)) as [Hnd Hin].
  destruct (fold_restore_spec
              (filter (fun x => negb (data_isEdge x)) (fresh_ids [] (buildElements d))
               ++ filter data_isEdge (fresh_ids [] (buildElements d))) [])
    as [_ H2].
  { cbn. now apply distinct_ids_nodes_then_edges. }
  destruct (H2 e He) as [[] | Hd].
  apply Hin. apply in_app_iff in Hd as [Hd | Hd]; apply filter_In in Hd; tauto.
Qed.

Lemma buildElements_link (d : option ChgData) (i s t : string) :
  In (CyEdge i s t) (buildElements d) ->
  exists x, In x (snapshot_labels d) /\ (s = ("n:" ++ x)%string \/ t = ("n:" ++ x)%string).
Proof.
  destruct d as [d|]; cbn [buildElements snapshot_labels]; [|intros []].
  intros Hin. apply in_app_iff in Hin as [Hin | Hin].
  - apply in_map_iff in Hin as [n [E _]]. discriminate.
  - apply in_flat_map in Hin as [edge [_ Hin]]. destruct Hin as [E | Hin]; [discriminate|].
    apply in_app_iff in Hin as [Hin | Hin].
    + unfold source_links in Hin. apply in_flat_map in Hin as [src [_ Hin]].
      destruct (has _ (ChgSource.label src)) eqn:Hh; [|destruct Hin].
      destruct Hin as [[= _ <- _] | []].
      exists (ChgSource.label src). split; [now apply has_In | now left].
    + unfold target_link in Hin.
      destruct (negb _ && has _ _) eqn:Hh; [|destruct Hin].
      destruct Hin as [[= _ _ <-] | []].
      apply andb_prop in Hh as [_ Hh].
      exists (ChgEdge.target edge). split; [now apply has_In | now right].
Qed.

(** X9.  In the graph built from a document, every connecting link has both
    of its endpoints in the graph, and one of them is a node of the
    document: a source or target that names no node is not drawn. *)
Theorem links_join_existing_elements
        (d : option ChgData) (e : ele) (i s t : string) :
  In e (rebuild d) -> data e = CyEdge i s t ->
  hasElementWithId (rebuild d) s = true /\
  hasElementWithId (rebuild d) t = true /\
  exists x, In x (snapshot_labels d)
            /\ (s = ("n:" ++ x)%string \/ t = ("n:" ++ x)%string).
Proof.
  intros He Hd.
  assert (Hc : links_closed (rebuild d)).
  { unfold rebuild, add. apply fold_restore_closed. intros e' ? ? ? []. }
  destruct (Hc e i s t He Hd) as [Hs Ht]. split; [exact Hs|]. split; [exact Ht|].
  apply (buildElements_link d i s t). rewrite <- Hd. now apply rebuild_data_in.
Qed.

Lemma links_join_existing_elements_witness :
  map data (rebuild dangling_data)
  = [CyNode "n:a" "a" "chg-node"; CyNode "e:e1" "e1" "chg-edge";
     CyEdge "se:e1:a" "n:a" "e:e1"] /\
  hasElementWithId (rebuild dangling_data) "n:a" = true /\
  hasElementWithId (rebuild dangling_data) "e:e1" = true /\
  exists x, In x (snapshot_labels dangling_data)
            /\ ("n:a" = ("n:" ++ x)%string \/ "e:e1" = ("n:" ++ x)%string).
Proof.
  split; [reflexivity|].
  apply (links_join_existing_elements dangling_data
           (mkEle (CyEdge "se:e1:a" "n:a" "e:e1") []) "se:e1:a" "n:a" "e:e1").
  - vm_compute. right; right; left; reflexivity.
  - reflexivity.
Defined.


Lemma hasElementWithId_as_has (c : cy) (i : string) :
  hasElementWithId c i = has (map id c) i.
Proof.
  unfold hasElementWithId, getElementById, has.
  induction c as [|e c IH]; cbn; auto.
  rewrite (String.eqb_sym i (id e)). destruct (String.eqb (id e) i); auto.
Qed.

Lemma hasElementWithId_same_data (c c' : cy) (i : string) :
  map data c = map data c' -> hasElementWithId c i = hasElementWithId c' i.
Proof.
  intros E. rewrite !hasElementWithId_as_has. unfold id.
  now rewrite <- !(map_map data data_id), E.
Qed.

Lemma map_data_addClassById (cls i : string) (c : cy) :
  map data (addClassById cls i c) = map data c.
Proof.
  unfold addClassById. rewrite map_map. apply map_ext. intros e.
  destruct (String.eqb (id e) i); auto using data_addClass.
Qed.

Lemma map_data_fold_addClassById (cls prefix : string) (labels : list string) (c : cy) :
  map data (fold_left (fun acc l => addClassById cls (prefix ++ l) acc) labels c)
  = map data c.
Proof.
  revert c. induction labels as [|l labels IH]; intros c; cbn; auto.
  now rewrite IH, map_data_addClassById.
Qed.

Lemma hasClassById_has_element (cls s : string) (c : cy) :
  hasClassById cls s c = true -> hasElementWithId c s = true.
Proof.
  unfold hasClassById, hasElementWithId. destruct (getElementById c s); auto.
Qed.

Lemma hasClassById_addClassById (cls i s : string) (c : cy) :
  hasClassById cls s (addClassById cls i c)
  = if String.eqb i s then hasElementWithId c s else hasClassById cls s c.
Proof.
  destruct (String.eqb i s) eqn:E.
  - apply String.eqb_eq in E. subst i.
    unfold hasClassById, hasElementWithId, addClassById.
    rewrite getElementById_map.
    2: { intros e. unfold id. destruct (String.eqb _ s); auto.
         now rewrite data_addClass. }
    destruct (getElementById c s) as [e|] eqn:Eg; cbn; auto.
    apply find_some in Eg as [_ Eg]. rewrite Eg. apply hasClass_addClass.
  - apply String.eqb_neq in E. unfold addClassById. apply hasClassById_map.
    + intros e. unfold id. destruct (String.eqb _ i); auto. now rewrite data_addClass.
    + intros e He. destruct (String.eqb (id e) i) eqn:E'; auto.
      apply String.eqb_eq in E'. congruence.
Qed.

Lemma fold_addClassById_class (prefix : string) (labels : list string) (c : cy) (s : string) :
  hasClassById "sim-path" s
    (fold_left (fun acc l => addClassById "sim-path" (prefix ++ l) acc) labels c)
  = hasClassById "sim-path" s c
    || (hasElementWithId c s && existsb (fun l => String.eqb (prefix ++ l) s) labels).
Proof.
  revert c. induction labels as [|l labels IH]; intros c; cbn [fold_left existsb].
  - now rewrite andb_false_r, orb_false_r.
  - rewrite IH, hasClassById_addClassById.
    rewrite (hasElementWithId_same_data _ c s (map_data_addClassById _ _ c)).
    destruct (String.eqb (prefix ++ l) s); cbn [orb].
    + destruct (hasClassById "sim-path" s c) eqn:Hc.
      * rewrite (hasClassById_has_element _ _ _ Hc). reflexivity.
      * destruct (hasElementWithId c s); reflexivity.
    + reflexivity.
Qed.

(** The class of a graph node after the overlay. *)
Lemma applySimPath_node_class (path : SimPath.t) (c : cy) (s : string) :
  ok_store c -> node_like s = true ->
  hasClassById "sim-path" s (applySimPath path c)
  = hasElementWithId c s
    && (existsb (fun l => String.eqb ("n:" ++ l) s) (SimPath.nodes path)
        || existsb (fun l => String.eqb ("e:" ++ l) s) (SimPath.edges path)).
Proof.
  intros Hc Hs. unfold applySimPath.
  set (c1 := map (removeClass "sim-path") c).
  set (c2 := fold_left (fun acc nodeLabel => addClassById "sim-path" ("n:" ++ nodeLabel) acc)
                       (SimPath.nodes path) c1).
  set (c3 := fold_left (fun acc edgeLabel => addClassById "sim-path" ("e:" ++ edgeLabel) acc)
                       (SimPath.edges path) c2).
  assert (H1d : map data c1 = map data c).
  { unfold c1. rewrite map_map. apply map_ext. reflexivity. }
  assert (H2d : map data c2 = map data c).
  { unfold c2. now rewrite map_data_fold_addClassById. }
  assert (H3d : map data c3 = map data c).
  { unfold c3. now rewrite map_data_fold_addClassById. }
  destruct (ok_store_same_data _ _ H3d Hc) as [_ H3ok].
  assert (HL : Forall (fun l => data_ok (data l) = true /\ isEdge l = true)
                      (filter isEdge c3)).
  { apply Forall_forall. intros l Hl. apply filter_In in Hl as [Hl He].
    rewrite Forall_forall in H3ok. auto. }
  rewrite (fold_mark_link_as_map (fun x => hasClassById "sim-path" x c3)); auto.
  rewrite hasClassById_mark by assumption.
  unfold c3. rewrite fold_addClassById_class. fold c3.
  unfold c2 at 1. rewrite fold_addClassById_class. fold c2.
  rewrite (hasElementWithId_same_data c2 c s H2d),
          (hasElementWithId_same_data c1 c s H1d).
  assert (H1c : hasClassById "sim-path" s c1 = false).
  { unfold c1, hasClassById. rewrite getElementById_map by reflexivity.
    destruct (getElementById c s); cbn [option_map];
      [apply hasClass_removeClass | reflexivity]. }
  rewrite H1c. cbn [orb].
  destruct (hasElementWithId c s); cbn [andb]; reflexivity.
Qed.

Lemma fresh_ids_covers (seen : list string) (jsons : list ele_data) (x : ele_data) :
  In x jsons ->
  In (data_id x) seen \/
  exists y, In y (fresh_ids seen jsons) /\ data_id y = data_id x.
Proof.
  revert seen. induction jsons as [|d jsons IH]; intros seen; [intros []|].
  cbn [fresh_ids]. intros [-> | Hx].
  - destruct (has seen (data_id x)) eqn:E.
    + left. now apply has_In.
    + right. exists x. split; [now left | reflexivity].
  - destruct (has seen (data_id d)) eqn:E.
    + destruct (IH seen Hx) as [H | [y [Hy Ey]]]; [now left | right; eauto].
    + destruct (IH (data_id d :: seen) Hx) as [[H | H] | [y [Hy Ey]]].
      * right. exists d. split; [now left | exact H].
      * now left.
      * right. exists y. split; [now right | exact Ey].
Qed.

Lemma fold_restore_keeps (l : list ele_data) (c : cy) (i : string) :
  hasElementWithId c i = true -> hasElementWithId (fold_left restore l c) i = true.
Proof.
  revert c. induction l as [|d l IH]; intros c Hc; cbn; auto.
  apply IH. destruct (restore_cases c d) as [-> | [-> _]]; auto.
  now apply hasElementWithId_app.
Qed.

Lemma fold_restore_adds_nodes (l : list ele_data) (c : cy) (y : ele_data) :
  In y l -> data_isEdge y = false ->
  hasElementWithId (fold_left restore l c) (data_id y) = true.
Proof.
  revert c. induction l as [|d l IH]; intros c; [intros []|].
  cbn [fold_left]. intros [-> | Hy] Hn; auto.
  apply fold_restore_keeps. destruct y; [|discriminate]. cbn [restore].
  apply (hasElementWithId_last c (mkEle (CyNode id0 label type) [])).
Qed.

Lemma rebuild_has_graph_node (d : option ChgData) (x : ele_data) :
  In x (buildElements d) -> node_like (data_id x) = true ->
  hasElementWithId (rebuild d) (data_id x) = true.
Proof.
  intros Hx Hn. unfold rebuild, add. cbn [map].
  destruct (fresh_ids_covers [] _ _ Hx) as [[] | [y [Hy Ey]]].
  destruct (fresh_ids_spec [] (buildElements d)) as [_ Hin].
  destruct (Hin y Hy) as [Hyb _].
  pose proof (buildElements_ok d) as Hok. rewrite Forall_forall in Hok.
  specialize (Hok y Hyb).
  assert (Hnode : data_isEdge y = false).
  { destruct y as [i l t | i s t]; auto. cbn in Hok, Ey. subst i.
    rewrite Hn in Hok. discriminate. }
  rewrite <- Ey. apply fold_restore_adds_nodes; auto.
  apply in_app_iff. left. apply filter_In. split; auto. now rewrite Hnode.
Qed.

Lemma existsb_prefixed (prefix l : string) (labels : list string) :
  existsb (fun x => String.eqb (prefix ++ x) (prefix ++ l)) labels = true <-> In l labels.
Proof.
  rewrite existsb_exists. split.
  - intros [x [Hx E]]. apply String.eqb_eq in E.
    assert (x = l); [|now subst].
    clear Hx. induction prefix as [|a p IH]; cbn in E; auto. injection E. auto.
  - intros H. exists l. split; auto. apply String.eqb_refl.
Qed.

Lemma existsb_other_prefix (a b : ascii) (l : string) (labels : list string) :
  a <> b ->
  existsb (fun x => String.eqb (String a (String ":" x)) (String b (String ":" l))) labels
  = false.
Proof.
  intros Hab. induction labels as [|x labels IH]; cbn [existsb]; auto.
  rewrite IH, orb_false_r. apply String.eqb_neq. intros [= E _]. contradiction.
Qed.

(** X10.  After the overlay is applied, a node of the document is
    highlighted exactly when its label is listed in the path's nodes, and a
    hyperedge exactly when its label is listed in the path's edges; a node
    and an edge that share a label are not confused. *)
Theorem overlay_highlights_listed_elements
        (d : option ChgData) (path : SimPath.t) (c : cy) (l : string) :
  map data c = map data (rebuild d) ->
  (In l (snapshot_labels d) ->
   (highlighted (applySimPath path c) ("n:" ++ l) = true <-> In l (SimPath.nodes path))) /\
  (In l (edge_labels d) ->
   (highlighted (applySimPath path c) ("e:" ++ l) = true <-> In l (SimPath.edges path))).
Proof.
  intros Hc.
  pose proof (ok_store_same_data _ _ Hc (rebuild_ok d)) as Hok.
  unfold highlighted. split; intros Hl.
  - rewrite (applySimPath_node_class path c ("n:" ++ l) Hok eq_refl).
    rewrite (hasElementWithId_same_data c (rebuild d) _ Hc).
    assert (Hx : In (CyNode ("n:" ++ l) l "chg-node") (buildElements d)).
    { destruct d as [d|]; [|destruct Hl]. cbn [buildElements snapshot_labels] in *.
      apply in_app_iff. left. apply in_map_iff in Hl as [n [<- Hn]].
      apply in_map_iff. eauto. }
    assert (He : hasElementWithId (rebuild d) ("n:" ++ l) = true)
      by exact (rebuild_has_graph_node d _ Hx eq_refl).
    rewrite He. cbn [andb].
    change ("e:" ++ ?x)%string with (String "e" (String ":" x)).
    change ("n:" ++ l)%string with (String "n" (String ":" l)) at 2.
    rewrite (existsb_other_prefix "e" "n") by discriminate.
    rewrite orb_false_r. apply (existsb_prefixed "n:").
  - rewrite (applySimPath_node_class path c ("e:" ++ l) Hok eq_refl).
    rewrite (hasElementWithId_same_data c (rebuild d) _ Hc).
    assert (Hx : In (CyNode ("e:" ++ l) l "chg-edge") (buildElements d)).
    { destruct d as [d|]; [|destruct Hl]. cbn [buildElements edge_labels] in *.
      apply in_app_iff. right. apply in_map_iff in Hl as [e [<- He]].
      apply in_flat_map. exists e. split; auto. now left. }
    assert (He : hasElementWithId (rebuild d) ("e:" ++ l) = true)
      by exact (rebuild_has_graph_node d _ Hx eq_refl).
    rewrite He. cbn [andb].
    change ("n:" ++ ?x)%string with (String "n" (String ":" x)).
    change ("e:" ++ l)%string with (String "e" (String ":" l)) at 1.
    rewrite (existsb_other_prefix "n" "e") by discriminate.
    cbn [orb]. apply (existsb_prefixed "e:").
Qed.

Lemma overlay_highlights_listed_elements_witness :
  (highlighted (applySimPath only_node_a (rebuild scenario_data)) "n:a" = true
   <-> In "a" (SimPath.nodes only_node_a)) /\
  (highlighted (applySimPath only_node_a (rebuild scenario_data)) "e:e1" = true
   <-> In "e1" (SimPath.edges only_node_a)).
Proof.
  split.
  - apply (overlay_highlights_listed_elements scenario_data only_node_a
             (rebuild scenario_data) "a" eq_refl).
    left. reflexivity.
  - apply (overlay_highlights_listed_elements scenario_data only_node_a
             (rebuild scenario_data) "e1" eq_refl).
    left. reflexivity.
Defined.

End GraphFacts.

(** ** Focus layout *)

Module FocusLayoutFacts.
Import QArith.
Import ChgEditorWebview FocusLayout.

Lemma position_each_nth (n i : nat) (x0 : Q) (arr : list ele) (k : nat)
      (p : string * position) :
  nth_error (position_each n i x0 arr) k = Some p ->
  x (snd p) = x0 /\
  y (snd p) = (inject_Z (Z.of_nat (i + k)) - (inject_Z (Z.of_nat n) - 1) / 2) * STEP /\
  (k < List.length arr)%nat.
Proof.
  revert i k. induction arr as [|el arr IH]; intros i k; cbn [position_each].
  - destruct k; discriminate.
  - destruct k as [|k]; cbn [nth_error].
    + intros [= <-]. cbn [snd x y]. rewrite Nat.add_0_r.
      repeat split. cbn. lia.
    + intros Hp. destruct (IH (S i) k Hp) as (Hx & Hy & Hk).
      rewrite Nat.add_succ_r. cbn [Nat.add] in Hy. repeat split; auto. cbn. lia.
Qed.

(** X11.  [positionGroup] puts every element of a group at the given x,
    stacks them in array order 90 apart, and centres the stack on y = 0: the
    k-th element from the top and the k-th from the bottom are mirror
    images. *)
Theorem positionGroup_stacks_centred
        (arr : list ele) (x0 : Q) (i j : nat) (p q : string * position) :
  nth_error (positionGroup arr x0) i = Some p ->
  nth_error (positionGroup arr x0) j = Some q ->
  x (snd p) = x0 /\
  (j = S i -> y (snd q) - y (snd p) == 90) /\
  ((i + j + 1 = List.length arr)%nat -> y (snd p) + y (snd q) == 0).
Proof.
  unfold positionGroup. intros Hp Hq.
  destruct (position_each_nth _ _ _ _ _ _ Hp) as (Hx & Hy & _).
  destruct (position_each_nth _ _ _ _ _ _ Hq) as (_ & Hy' & _).
  cbn [Nat.add] in Hy, Hy'. rewrite Hy, Hy'. unfold STEP.
  split; [exact Hx|]. split.
  - intros ->. rewrite Nat2Z.inj_succ. unfold Z.succ. rewrite inject_Z_plus. field.
  - intros Hn. rewrite <- Hn. rewrite !Nat2Z.inj_add, !inject_Z_plus. cbn. field.
Qed.

Lemma positionGroup_stacks_centred_witness :
  let arr := [mkEle (CyNode "e:e1" "e1" "chg-edge") [];
              mkEle (CyNode "e:e2" "e2" "chg-edge") [];
              mkEle (CyNode "e:e3" "e3" "chg-edge") []] in
  let p0 := ("e:e1", mkPosition (-220) ((0 - (3 - 1) / 2) * 90)) in
  let p1 := ("e:e2", mkPosition (-220) ((1 - (3 - 1) / 2) * 90)) in
  let p2 := ("e:e3", mkPosition (-220) ((2 - (3 - 1) / 2) * 90)) in
  positionGroup arr (-220) = [p0; p1; p2] /\
  y (snd p1) - y (snd p0) == 90 /\
  y (snd p0) + y (snd p2) == 0.
Proof.
  intros arr p0 p1 p2. split; [reflexivity|]. split.
  - exact (proj1 (proj2 (positionGroup_stacks_centred arr (-220) 0 1 p0 p1
                           eq_refl eq_refl)) eq_refl).
  - exact (proj2 (proj2 (positionGroup_stacks_centred arr (-220) 0 2 p0 p2
                           eq_refl eq_refl)) eq_refl).
Defined.

End FocusLayoutFacts.

(** ** Edge sources *)

Module SourcesFacts.
Import NormalizerSpec.
Import Normalizer.

Lemma index_to_string_injective (a b : nat) :
  index_to_string a = index_to_string b -> a = b.
Proof.
  unfold index_to_string, Z_to_string. intros E.
  apply (f_equal NilEmpty.int_of_string) in E. rewrite !NilEmpty.isi in E.
  injection E as E. apply (f_equal Z.of_int) in E. rewrite !DecimalZ.of_to in E.
  now apply Nat2Z.inj.
Qed.

Lemma indexed_from_keys {A} (i : nat) (items : list A) :
  map fst (indexed_from i items) = map index_to_string (seq i (List.length items)).
Proof.
  revert i. induction items as [|x items IH]; intros i; cbn; auto.
  now rewrite IH.
Qed.

Lemma indexed_from_values {A} (i : nat) (items : list A) :
  map snd (indexed_from i items) = items.
Proof.
  revert i. induction items as [|x items IH]; intros i; cbn; auto.
  now rewrite IH.
Qed.

Lemma listed_handles (v : JS.value) :
  map ChgSource.handle (listed_sources v)
  = match v with
    | Some (JArr items) => map index_to_string (seq 0 (List.length items))
    | Some (JObj m) => map fst m
    | _ => []
    end.
Proof.
  unfold listed_sources.
  destruct v as [[| b | z | s | items | m]|]; try reflexivity;
    rewrite map_map; cbn [ChgSource.handle entries].
  - apply indexed_from_keys.
  - reflexivity.
Qed.

Lemma listed_labels (v : JS.value) :
  map ChgSource.label (listed_sources v) = map ToString (source_values v).
Proof.
  unfold listed_sources, source_values.
  destruct v as [[| b | z | s | items | m]|]; try reflexivity;
    rewrite map_map; cbn [ChgSource.label entries].
  - now rewrite <- (map_map snd ToString), indexed_from_values.
  - now rewrite map_map.
Qed.

(** X12.  An edge with a string label is kept with one source per element
    of its raw sources, in order, whether or not a node of that label
    exists, unless the conversion of one of them to a string raises, which
    fails the edge and with it the parse.  Sources given as an array get
    their positions as handles, which are pairwise distinct, and sources
    given as an object keep its keys; the labels are the texts the
    conversion gives, which for strings and exactly represented integers
    are the values themselves. *)
Theorem sources_are_kept_and_array_handles_distinct
        (o : list (string * json)) (l : string) :
  lookup "label" o = Some (JStr l) ->
  let rawSources := coalesce (lookup "source_nodes" o) (lookup "sources" o) in
  if existsb raises (source_values rawSources)
  then parse_edge (JObj o) = Throw TypeError
  else
    exists edge,
      parse_edge (JObj o) = Normal [edge] /\
      ChgEdge.label edge = l /\
      List.length (ChgEdge.sources edge)
      = List.length (source_values rawSources) /\
      (forallb exact (source_values rawSources) = true ->
       map ChgSource.label (ChgEdge.sources edge)
       = map ToString (source_values rawSources)) /\
      match rawSources with
      | Some (JArr items) =>
          map ChgSource.handle (ChgEdge.sources edge)
          = map index_to_string (seq 0 (List.length items)) /\
          NoDup (map ChgSource.handle (ChgEdge.sources edge))
      | Some (JObj entries) =>
          map ChgSource.handle (ChgEdge.sources edge) = map fst entries
      | _ => ChgEdge.sources edge = []
      end.
Proof.
  intros Hl rawSources. rewrite NormalizerFacts.parse_edge_object, Hl.
  change (raw_sources (JObj o)) with rawSources.
  destruct (existsb raises (source_values rawSources)); [reflexivity|].
  eexists. split; [reflexivity|]. split; [reflexivity|]. cbn [ChgEdge.sources].
  split; [|split].
  - rewrite <- (length_map ChgSource.label), listed_labels. apply length_map.
  - intros _. apply listed_labels.
  - pose proof (listed_handles rawSources) as Hh.
    destruct rawSources as [[| b | z | s | items | entries]|]; try reflexivity.
    + split; [exact Hh|]. rewrite Hh.
      apply NoDup_map_NoDup_ForallPairs; [|apply seq_NoDup].
      intros a b _ _. apply index_to_string_injective.
    + exact Hh.
Qed.

Lemma sources_are_kept_and_array_handles_distinct_witness :
  exists edge,
    parse_edge (JObj [("label", JStr "e1");
                      ("source_nodes", JArr [JStr "a"; JStr "ghost"; JNum 7])])
    = Normal [edge] /\
    ChgEdge.label edge = "e1" /\
    List.length (ChgEdge.sources edge) = 3%nat /\
    map ChgSource.label (ChgEdge.sources edge) = ["a"; "ghost"; "7"] /\
    map ChgSource.handle (ChgEdge.sources edge) = ["0"; "1"; "2"] /\
    NoDup (map ChgSource.handle (ChgEdge.sources edge)).
Proof.
  destruct (sources_are_kept_and_array_handles_distinct
              [("label", JStr "e1");
               ("source_nodes", JArr [JStr "a"; JStr "ghost"; JNum 7])] "e1" eq_refl)
    as (edge & H1 & H2 & H3 & H4 & H5 & H6).
  exists edge. split; [exact H1|]. split; [exact H2|]. split; [exact H3|].
  split; [exact (H4 eq_refl)|]. split; [exact H5 | exact H6].
Defined.

End SourcesFacts.

(** ** The operations view and the parser *)

Module OperationsFacts.
Import OperationsSpec.
Import Normalizer ChgState Raw Props ChgOperationsProvider JSFacts.

Lemma for_of_array_of {B} (body : json -> completion (list B)) (v : JS.value) :
  match v with
  | Some (JArr items) => for_of body items
  | _ => Normal []
  end = for_of body (array_of v).
Proof. destruct v as [[| b | z | s | items | o]|]; reflexivity. Qed.

Lemma get_container (o : list (string * json)) (k : string) :
  get (container o) k = Normal (part k o).
Proof.
  unfold part, container, coalesce.
  destruct (lookup "hypergraph" o) as [[| b | z | s | items | hg]|]; reflexivity.
Qed.

Lemma parse_raw_parts (o : list (string * json)) :
  parse_raw (JObj o)
  = parse_parts (part "nodes" o) (part "edges" o) (lookup "frames" o).
Proof.
  unfold parse_raw, parse_parts.
  change (get (Some (JObj o)) "hypergraph") with (Normal (lookup "hypergraph" o)).
  cbn [bind].
  change (coalesce (lookup "hypergraph" o) (Some (JObj o))) with (container o).
  rewrite !get_container. cbn [bind].
  rewrite !for_of_array_of. reflexivity.
Qed.

Lemma parsed_parts (o : list (string * json)) (d : ChgData) :
  parse_raw (JObj o) = Normal d ->
  for_of parse_node (array_of (part "nodes" o)) = Normal (nodes d) /\
  for_of parse_edge (array_of (part "edges" o)) = Normal (edges d) /\
  parse_frames (lookup "frames" o) = (frames d, frameNames d).
Proof.
  rewrite parse_raw_parts. unfold parse_parts.
  destruct (for_of parse_node _) as [ns|]; cbn [bind]; [|discriminate].
  destruct (for_of parse_edge _) as [es|]; cbn [bind]; [|discriminate].
  destruct (parse_frames _) as [fr fn]. intros [= <-]. auto.
Qed.

(** A document object parses as soon as its edges do. *)
Lemma parse_raw_object (o : list (string * json)) (es : list ChgEdge.t) :
  for_of parse_edge (array_of (part "edges" o)) = Normal es ->
  exists d, parse_raw (JObj o) = Normal d.
Proof.
  intros He. rewrite parse_raw_parts. unfold parse_parts.
  destruct (NormalizerFacts.for_of_normal parse_node (array_of (part "nodes" o))
              NormalizerFacts.parse_node_normal) as [ns ->].
  rewrite He. cbn [bind]. destruct (parse_frames (lookup "frames" o)). eauto.
Qed.

Lemma lookup_repaired (k k' : string) (o : list (string * json)) :
  k <> k' ->
  lookup k' (match lookup k o with
             | Some (JArr _) => o
             | _ => set k (JArr []) o
             end) = lookup k' o.
Proof.
  intros Hne.
  destruct (lookup k o) as [[| b | z | s | items | o1]|]; auto using lookup_set_other.
Qed.

(** The array [getNodes]/[getEdges] hands out is the one the parser reads,
    and writing it back changes that part of the document only. *)
Lemma edit_array (k : string) (o : list (string * json)) (X : list json) :
  plain o = true -> k <> "hypergraph" -> k <> "frames" ->
  exists raw1 o',
    get_mutable_array k (JObj o) = Normal (raw1, array_of (part k o)) /\
    put_mutable_array k raw1 X = JObj o' /\
    plain o' = true /\
    part k o' = Some (JArr X) /\
    (forall k', k' <> k -> k' <> "hypergraph" -> part k' o' = part k' o) /\
    lookup "frames" o' = lookup "frames" o.
Proof.
  intros Hp Hk Hf. unfold plain in Hp.
  unfold get_mutable_array, put_mutable_array, part, container, coalesce, plain.
  change (get (Some (JObj o)) "hypergraph") with (Normal (lookup "hypergraph" o)).
  cbn [bind].
  destruct (lookup "hypergraph" o) as [[| b | z | s | items | hg]|] eqn:Eh;
    try discriminate; cbn [truthy nullish get_opt].
  - (* hypergraph: null *)
    exists (JObj (match lookup k o with Some (JArr _) => o | _ => set k (JArr []) o end)).
    exists (set k (JArr X) (match lookup k o with Some (JArr _) => o | _ => set k (JArr []) o end)).
    assert (Hh : lookup "hypergraph"
                   (match lookup k o with Some (JArr _) => o | _ => set k (JArr []) o end)
                 = Some JNull) by (rewrite lookup_repaired; auto).
    split; [destruct (lookup k o) as [[| b | z | s | items | o1]|]; reflexivity|].
    rewrite Hh. cbn [truthy].
    rewrite (lookup_set_other k "hypergraph"), Hh by auto. cbn [nullish get_opt].
    split; [reflexivity|]. split; [reflexivity|].
    split; [apply lookup_set_same|].
    split.
    + intros k' Hk' _. rewrite lookup_set_other by auto. now apply lookup_repaired.
    + rewrite lookup_set_other by auto. now apply lookup_repaired.
  - (* hypergraph: an object *)
    set (hg1 := match lookup k hg with Some (JArr _) => hg | _ => set k (JArr []) hg end).
    exists (JObj (match lookup k hg with
                  | Some (JArr _) => o
                  | _ => set "hypergraph" (JObj hg1) o
                  end)).
    exists (set "hypergraph" (JObj (set k (JArr X) hg1)) 
                (match lookup k hg with
                  | Some (JArr _) => o
                  | _ => set "hypergraph" (JObj hg1) o
                  end)).
    assert (Hh : lookup "hypergraph"
                   (match lookup k hg with
                    | Some (JArr _) => o
                    | _ => set "hypergraph" (JObj hg1) o
                    end) = Some (JObj hg1)).
    { subst hg1. destruct (lookup k hg) as [[| b | z | s | items | o1]|];
        auto using lookup_set_same. }
    split; [subst hg1; destruct (lookup k hg) as [[| b | z | s | items | o1]|]; reflexivity|].
    rewrite Hh. cbn [truthy]. rewrite lookup_set_same. cbn [nullish get_opt].
    split; [reflexivity|]. split; [reflexivity|].
    split; [apply lookup_set_same|].
    split.
    + intros k' Hk' _. rewrite lookup_set_other by auto. subst hg1.
      now apply lookup_repaired.
    + rewrite lookup_set_other by discriminate.
      destruct (lookup k hg) as [[| b | z | s | items | o1]|]; auto;
        apply lookup_set_other; discriminate.
  - (* no hypergraph *)
    exists (JObj (match lookup k o with Some (JArr _) => o | _ => set k (JArr []) o end)).
    exists (set k (JArr X) (match lookup k o with Some (JArr _) => o | _ => set k (JArr []) o end)).
    assert (Hh : lookup "hypergraph"
                   (match lookup k o with Some (JArr _) => o | _ => set k (JArr []) o end)
                 = None) by (rewrite lookup_repaired; auto).
    split; [destruct (lookup k o) as [[| b | z | s | items | o1]|]; reflexivity|].
    rewrite Hh. cbn [truthy].
    rewrite (lookup_set_other k "hypergraph"), Hh by auto. cbn [nullish get_opt].
    split; [reflexivity|]. split; [reflexivity|].
    split; [apply lookup_set_same|].
    split.
    + intros k' Hk' _. rewrite lookup_set_other by auto. now apply lookup_repaired.
    + rewrite lookup_set_other by auto. now apply lookup_repaired.
Qed.

Lemma for_of_app {A B} (body : A -> completion (list B)) (l1 l2 : list A)
      (a b : list B) :
  for_of body l1 = Normal a -> for_of body l2 = Normal b ->
  for_of body (l1 ++ l2) = Normal (a ++ b).
Proof.
  revert a. induction l1 as [|x l1 IH]; cbn [for_of app]; intros a Ha Hb.
  - injection Ha as <-. exact Hb.
  - destruct (body x) as [out|]; cbn [bind] in *; [|discriminate].
    destruct (for_of body l1) as [outs|]; cbn [bind] in *; [|discriminate].
    injection Ha as <-. rewrite (IH outs eq_refl Hb). cbn [bind].
    now rewrite app_assoc.
Qed.

Lemma parse_node_by_label (n : json) :
  match label_of n with
  | Some l => exists x, parse_node n = Normal [x] /\ ChgNode.label x = l
  | None => parse_node n = Normal []
  end.
Proof.
  unfold label_of, parse_node.
  destruct (get_opt (Some n) "label") as [[| b | z | s | items | o1]|] eqn:E; auto.
  destruct n as [| b | z | s0 | items | o]; try discriminate.
  cbn [get bind]. eexists. split; reflexivity.
Qed.

Lemma get_label (n : json) (l : string) :
  n <> JNull ->
  exists v, get (Some n) "label" = Normal v /\
            (strict_eq_str v l = true <-> label_of n = Some l).
Proof.
  intros Hn. exists (get_opt (Some n) "label"). split.
  - destruct n; try reflexivity. contradiction.
  - unfold label_of.
    destruct (get_opt (Some n) "label") as [[| b | z | s | items | o1]|]; cbn;
      try (split; discriminate).
    rewrite String.eqb_eq. split; congruence.
Qed.

(** What [findIndex] finds, in terms of the nodes the parser makes of the
    same array. *)
Lemma find_by_label_parsed (l : string) (items : list json) (ns : list ChgNode.t) :
  ~ In JNull items ->
  for_of parse_node items = Normal ns ->
  match find_by_label l items with
  | Normal None => ~ In l (map ChgNode.label ns)
  | Normal (Some i) =>
      In l (map ChgNode.label ns) /\
      for_of parse_node (splice_one i items) = Normal (remove_first l ns)
  | Throw _ => False
  end.
Proof.
  revert ns. induction items as [|n items IH]; intros ns Hnn Hp.
  - injection Hp as <-. cbn. auto.
  - cbn [for_of] in Hp. cbn [find_by_label].
    assert (Hn : n <> JNull) by (intros ->; apply Hnn; now left).
    assert (Hrest : ~ In JNull items) by (intros H; apply Hnn; now right).
    destruct (get_label n l Hn) as [v [-> Hv]]. cbn [bind].
    pose proof (parse_node_by_label n) as Hpn.
    destruct (for_of parse_node items) as [outs|] eqn:Eo.
    2: { destruct (parse_node n); cbn in Hp; discriminate. }
    specialize (IH outs Hrest eq_refl).
    destruct (strict_eq_str v l) eqn:Es.
    + assert (El : label_of n = Some l) by (now apply Hv).
      rewrite El in Hpn. destruct Hpn as [x [Hx Hl]].
      rewrite Hx in Hp. cbn in Hp. injection Hp as <-.
      cbn [splice_one map In remove_first]. rewrite Hl, String.eqb_refl.
      split; [now left | exact Eo].
    + assert (Hne : label_of n <> Some l).
      { intros H. apply Hv in H. discriminate. }
      destruct (find_by_label l items) as [[i|]|]; cbn [bind option_map]; try contradiction.
      * destruct IH as [Hin Hsp].
        destruct (label_of n) as [l'|].
        -- destruct Hpn as [x [Hx Hl]]. rewrite Hx in *. cbn in Hp. injection Hp as <-.
           cbn [splice_one for_of map In remove_first]. rewrite Hx, Hsp. cbn [bind app].
           assert (E : String.eqb (ChgNode.label x) l = false).
           { apply String.eqb_neq. congruence. }
           rewrite E. split; [now right | reflexivity].
        -- rewrite Hpn in *. cbn in Hp. injection Hp as <-.
           cbn [splice_one for_of]. rewrite Hpn, Hsp. cbn. auto.
      * destruct (label_of n) as [l'|].
        -- destruct Hpn as [x [Hx Hl]]. rewrite Hx in *. cbn in Hp. injection Hp as <-.
           cbn [map In app]. intros [H | H]; [congruence | contradiction].
        -- rewrite Hpn in *. cbn in Hp. injection Hp as <-. exact IH.
Qed.

(** X13.  Adding a node to a document whose [hypergraph] entry is missing,
    [null] or an object and whose node array holds no [null]: the edit
    goes through, and the document parses afterwards to the same edges and
    frames.  When the label is already a node label of the model the
    document is left as it was; otherwise the model gains one node, last,
    with that label and nothing else.  Distinct labels stay distinct. *)
Theorem addNode_extends_the_model
        (o : list (string * json)) (label uri : string) (d : ChgData) :
  plain o = true ->
  ~ In JNull (NormalizerSpec.raw_nodes (JObj o)) ->
  parse_raw (JObj o) = Normal d ->
  exists raw' d',
    _addNode (Some label) (Some uri) (Normal (JObj o)) = Normal (Normal raw') /\
    parse_raw raw' = Normal d' /\
    (includes (map ChgNode.label (nodes d)) label = true -> raw' = JObj o) /\
    nodes d' = (if includes (map ChgNode.label (nodes d)) label
                then nodes d
                else nodes d ++ [ChgStateSpec.plain_node label]) /\
    edges d' = edges d /\ frames d' = frames d /\ frameNames d' = frameNames d /\
    (NoDup (map ChgNode.label (nodes d)) -> NoDup (map ChgNode.label (nodes d'))).
Proof.
  intros Hp Hnn Hd.
  change (NormalizerSpec.raw_nodes (JObj o)) with (array_of (part "nodes" o)) in Hnn.
  destruct (parsed_parts o d Hd) as (HN & HE & HF).
  destruct (edit_array "nodes" o
              (array_of (part "nodes" o) ++ [JObj [("label", JStr label)]]) Hp)
    as (raw1 & o' & Hget & Hput & _ & Hn' & Hother & Hfr); try discriminate.
  pose proof (find_by_label_parsed label _ _ Hnn HN) as Hfind.
  unfold _addNode, _editJson, mutate_addNode, getNodes. rewrite Hget. cbn [bind].
  destruct (find_by_label label (array_of (part "nodes" o))) as [[i|]|];
    cbn [bind]; try contradiction.
  - (* the label is taken *)
    destruct Hfind as [Hin _]. apply ChgStateFacts.includes_In in Hin.
    exists (JObj o), d. rewrite Hin. auto 10.
  - apply ChgStateFacts.includes_not_In in Hfind as Hinc.
    rewrite Hput. destruct (parse_raw_object o' (edges d)) as [d' Hd'].
    { now rewrite (Hother "edges") by discriminate. }
    exists (JObj o'), d'. rewrite Hinc.
    destruct (parsed_parts o' d' Hd') as (HN' & HE' & HF').
    rewrite Hn' in HN'. cbn [array_of] in HN'.
    rewrite (for_of_app parse_node _ [JObj [("label", JStr label)]] _
               [ChgStateSpec.plain_node label] HN eq_refl) in HN'.
    rewrite (Hother "edges"), HE in HE' by discriminate.
    rewrite Hfr, HF in HF'.
    injection HN' as HN'. injection HE' as HE'. injection HF' as HF1 HF2.
    repeat split; auto; try discriminate.
    intros Hnd. rewrite <- HN', map_app. cbn [map ChgNode.label ChgStateSpec.plain_node].
    apply NoDup_app; [exact Hnd | repeat constructor; intros [] | ].
    intros x Hx [<- | []]. contradiction.
Qed.

Lemma addNode_extends_the_model_witness :
  plain small_props = true /\
  ~ In JNull (NormalizerSpec.raw_nodes (JObj small_props)) /\
  exists d,
    parse_raw (JObj small_props) = Normal d /\
    exists raw' d',
      _addNode (Some "z") (Some "doc.chg") (Normal (JObj small_props))
      = Normal (Normal raw') /\
      parse_raw raw' = Normal d' /\
      (includes (map ChgNode.label (nodes d)) "z" = true -> raw' = JObj small_props) /\
      nodes d' = (if includes (map ChgNode.label (nodes d)) "z"
                  then nodes d
                  else nodes d ++ [ChgStateSpec.plain_node "z"]) /\
      edges d' = edges d /\ frames d' = frames d /\ frameNames d' = frameNames d /\
      (NoDup (map ChgNode.label (nodes d)) -> NoDup (map ChgNode.label (nodes d'))).
Proof.
  split; [reflexivity|].
  split; [cbn; intuition discriminate|].
  eexists. split; [reflexivity|].
  apply (addNode_extends_the_model small_props "z" "doc.chg");
    [reflexivity | cbn; intuition discriminate | reflexivity].
Defined.

(** *** Removing a node *)

Lemma remove_refs_object (l : string) (eo : list (string * json)) :
  exists eo',
    remove_refs l (JObj eo) = Normal (JObj eo') /\
    lookup "source_nodes" eo' = scrub_array l (lookup "source_nodes" eo) /\
    lookup "sources" eo' = scrub_array l (lookup "sources" eo) /\
    lookup "target" eo'
    = (if strict_eq_str (lookup "target" eo) l then Some (JStr "") else lookup "target" eo) /\
    (forall k, k <> "source_nodes" -> k <> "sources" -> k <> "target" ->
               lookup k eo' = lookup k eo).
Proof.
  unfold remove_refs.
  set (o1 := match lookup "source_nodes" eo with
             | Some (JArr items) => set "source_nodes" (JArr (filter (other_than l) items)) eo
             | _ => eo
             end).
  set (o2 := match lookup "sources" o1 with
             | Some (JArr items) => set "sources" (JArr (filter (other_than l) items)) o1
             | _ => o1
             end).
  set (o3 := if strict_eq_str (lookup "target" o2) l then set "target" (JStr "") o2 else o2).
  assert (H1 : lookup "source_nodes" o1 = scrub_array l (lookup "source_nodes" eo) /\
               forall k, k <> "source_nodes" -> lookup k o1 = lookup k eo).
  { subst o1. destruct (lookup "source_nodes" eo) as [[| b | z | s | items | o']|] eqn:E;
      cbn [scrub_array]; auto.
    split; [apply lookup_set_same | intros k Hk; apply lookup_set_other; congruence]. }
  destruct H1 as [H1 H1'].
  assert (H2 : lookup "sources" o2 = scrub_array l (lookup "sources" eo) /\
               forall k, k <> "sources" -> lookup k o2 = lookup k o1).
  { subst o2. rewrite <- (H1' "sources") by discriminate.
    destruct (lookup "sources" o1) as [[| b | z | s | items | o']|] eqn:E;
      cbn [scrub_array]; auto.
    split; [apply lookup_set_same | intros k Hk; apply lookup_set_other; congruence]. }
  destruct H2 as [H2 H2'].
  assert (H3 : lookup "target" o3
               = (if strict_eq_str (lookup "target" eo) l
                  then Some (JStr "") else lookup "target" eo) /\
               forall k, k <> "target" -> lookup k o3 = lookup k o2).
  { subst o3. rewrite <- (H1' "target"), <- (H2' "target") by discriminate.
    destruct (strict_eq_str (lookup "target" o2) l); auto.
    split; [apply lookup_set_same | intros k Hk; apply lookup_set_other; congruence]. }
  destruct H3 as [H3 H3'].
  exists o3. split; [reflexivity|].
  split; [rewrite H3', H2' by discriminate; exact H1|].
  split; [rewrite H3' by discriminate; exact H2|].
  split; [exact H3|].
  intros k Ha Hb Hc. now rewrite H3', H2', H1'.
Qed.

Lemma renumbered_sources (l : string) (items : list json) (i j : nat) :
  forallb is_string items = true ->
  map (fun hs => ChgSource.mk (fst hs) (ChgSource.label (snd hs)))
      (indexed_from j
         (filter (fun s => negb (String.eqb (ChgSource.label s) l))
                 (map (fun hl => ChgSource.mk (fst hl) (ToString (snd hl)))
                      (indexed_from i items))))
  = map (fun hl => ChgSource.mk (fst hl) (ToString (snd hl)))
        (indexed_from j (filter (other_than l) items)).
Proof.
  revert i j. induction items as [|x items IH]; intros i j Hs; [reflexivity|].
  cbn [forallb] in Hs. apply andb_true_iff in Hs as [Hx Hs].
  destruct x as [| b | z | s | its | o']; try discriminate.
  cbn [indexed_from map filter fst snd ToString ChgSource.label].
  change (other_than l (JStr s)) with (negb (String.eqb s l)).
  destruct (String.eqb s l); cbn [negb indexed_from map fst snd ToString ChgSource.label].
  - apply IH, Hs.
  - f_equal. apply IH, Hs.
Qed.

Lemma strings_do_not_raise (items : list json) :
  forallb is_string items = true -> existsb raises items = false.
Proof.
  induction items as [|x items IH]; cbn [forallb existsb]; [reflexivity|].
  intros H. apply andb_true_iff in H as [Hx Hs].
  destruct x; try discriminate. cbn [raises orb]. now apply IH.
Qed.

Lemma listed_do_not_raise (v : JS.value) :
  strings_listed v = true -> existsb raises (NormalizerSpec.source_values v) = false.
Proof.
  destruct v as [[| b | z | s | items | o']|]; try reflexivity; try discriminate.
  apply strings_do_not_raise.
Qed.

Lemma scrubbed_strings_listed (l : string) (v : JS.value) :
  strings_listed v = true -> strings_listed (scrub_array l v) = true.
Proof.
  destruct v as [[| b | z | s | items | o']|]; try reflexivity; try discriminate.
  cbn [strings_listed scrub_array]. intros Hs.
  apply forallb_forall. intros x Hx. apply filter_In in Hx as [Hx _].
  rewrite forallb_forall in Hs. now apply Hs.
Qed.

Lemma parse_sources_scrubbed (l : string) (v : JS.value) :
  strings_listed v = true ->
  NormalizerSpec.listed_sources (scrub_array l v)
  = map (fun hs => ChgSource.mk (fst hs) (ChgSource.label (snd hs)))
        (indexed_from 0
           (filter (fun s => negb (String.eqb (ChgSource.label s) l))
                   (NormalizerSpec.listed_sources v))).
Proof.
  destruct v as [[| b | z | s | items | o']|]; try reflexivity; try discriminate.
  intros Hs. cbn [scrub_array NormalizerSpec.listed_sources entries]. symmetry.
  now apply renumbered_sources.
Qed.

Lemma coalesce_scrubbed (l : string) (a b : JS.value) :
  coalesce (scrub_array l a) (scrub_array l b) = scrub_array l (coalesce a b).
Proof.
  unfold coalesce. destruct a as [[| b0 | z | s | items | o']|]; reflexivity.
Qed.

Lemma sources_listed_object (eo : list (string * json)) :
  sources_listed (JObj eo)
  = strings_listed (coalesce (lookup "source_nodes" eo) (lookup "sources" eo)).
Proof. reflexivity. Qed.

Lemma parse_edge_scrubbed (l : string) (e : json) (out : list ChgEdge.t) :
  sources_listed e = true ->
  parse_edge e = Normal out ->
  exists e', remove_refs l e = Normal e' /\ parse_edge e' = Normal (map (scrub l) out).
Proof.
  intros Hs Hp.
  destruct e as [| b | z | s | items | eo]; try discriminate;
    try (eexists; split; [reflexivity|]; injection Hp as <-; reflexivity).
  destruct (remove_refs_object l eo) as (eo' & -> & Hsn & Hss & Ht & Hk).
  exists (JObj eo'). split; [reflexivity|].
  rewrite sources_listed_object in Hs.
  rewrite NormalizerFacts.parse_edge_object in *.
  unfold NormalizerSpec.raw_sources in *. cbn [get_opt] in *.
  rewrite Hsn, Hss, Ht, !Hk by discriminate.
  destruct (lookup "label" eo) as [[| b | z | s | items | o1]|];
    try (injection Hp as <-; reflexivity).
  rewrite coalesce_scrubbed.
  rewrite (listed_do_not_raise _ Hs) in Hp.
  rewrite (listed_do_not_raise _ (scrubbed_strings_listed l _ Hs)).
  injection Hp as <-. f_equal.
  cbn [map scrub ChgEdge.label ChgEdge.weight ChgEdge.constant ChgEdge.sources
           ChgEdge.target ChgEdge.rel].
  rewrite (parse_sources_scrubbed l _ Hs).
  assert (Ht' : match (if strict_eq_str (lookup "target" eo) l
                       then Some (JStr "") else lookup "target" eo) with
                | Some (JStr t) => t
                | _ => ""
                end
                = (if String.eqb match lookup "target" eo with
                                 | Some (JStr t) => t
                                 | _ => ""
                                 end l
                   then ""
                   else match lookup "target" eo with
                        | Some (JStr t) => t
                        | _ => ""
                        end)).
  { destruct (lookup "target" eo) as [[| b | z | t | items | o1]|];
      cbn [strict_eq_str]; try (destruct (String.eqb "" l); reflexivity).
    destruct (String.eqb t l); reflexivity. }
  rewrite Ht'. reflexivity.
Qed.

Lemma edges_scrubbed (l : string) (es : list json) (out : list ChgEdge.t) :
  forallb sources_listed es = true ->
  for_of parse_edge es = Normal out ->
  exists es',
    mapM (remove_refs l) es = Normal es' /\
    for_of parse_edge es' = Normal (map (scrub l) out).
Proof.
  revert out. induction es as [|e es IH]; intros out Hs Hp.
  - injection Hp as <-. exists []. split; reflexivity.
  - cbn [forallb] in Hs. apply andb_true_iff in Hs as [He Hs].
    cbn [for_of] in Hp.
    destruct (parse_edge e) as [o1|] eqn:E1; cbn [bind] in Hp; [|discriminate].
    destruct (for_of parse_edge es) as [o2|] eqn:E2; cbn [bind] in Hp; [|discriminate].
    injection Hp as <-.
    destruct (parse_edge_scrubbed l e o1 He E1) as (e' & He' & Hpe').
    destruct (IH o2 Hs eq_refl) as (es' & Hes' & Hpes').
    exists (e' :: es'). cbn [mapM for_of]. rewrite He', Hes', Hpe', Hpes'. cbn [bind].
    split; [reflexivity | now rewrite map_app].
Qed.

Lemma delete_set {A} (l k : string) (v : A) (acc : list (string * A)) :
  delete l (set k v acc)
  = if String.eqb k l then delete l acc else set k v (delete l acc).
Proof.
  unfold delete. induction acc as [|[k' v'] acc IH]; cbn [set filter fst].
  - destruct (String.eqb k l); reflexivity.
  - destruct (String.eqb k' k) eqn:Ek; cbn [filter fst].
    + apply String.eqb_eq in Ek. subst k'.
      destruct (String.eqb k l) eqn:El; cbn [negb set]; [reflexivity|].
      now rewrite String.eqb_refl.
    + rewrite IH. destruct (String.eqb k l) eqn:El.
      * reflexivity.
      * destruct (String.eqb k' l); cbn [negb set]; [reflexivity|]. now rewrite Ek.
Qed.

Lemma parse_frame_delete (l : string) (fo : list (string * json)) :
  parse_frame (JObj (delete l fo)) = delete l (parse_frame (JObj fo)).
Proof.
  unfold parse_frame. cbn [entries].
  change (@nil (string * list json)) with (delete l (@nil (string * list json))) at 1.
  generalize (@nil (string * list json)) as acc.
  induction fo as [|[k v] fo IH]; intros acc; [reflexivity|].
  cbn [fold_left fst snd]. rewrite <- IH, delete_set.
  unfold delete at 1. cbn [filter fst].
  destruct (String.eqb k l); reflexivity.
Qed.

Lemma set_without_entry (l name : string) (fr : list (string * list json))
      (fs : list (string * list (string * list json))) :
  set name (delete l fr) (map (without_entry l) fs)
  = map (without_entry l) (set name fr fs).
Proof.
  induction fs as [|[k v] fs IH]; cbn [map set without_entry fst snd]; [reflexivity|].
  destruct (String.eqb k name); cbn [map without_entry fst snd]; [reflexivity|].
  now rewrite IH.
Qed.

Lemma lookup_without_entry (l name : string)
      (fs : list (string * list (string * list json))) :
  lookup name (map (without_entry l) fs) = option_map (delete l) (lookup name fs).
Proof.
  induction fs as [|[k v] fs IH]; cbn [map lookup without_entry fst snd]; [reflexivity|].
  destruct (String.eqb k name); auto.
Qed.

Lemma parse_frames_object (f : list (string * json)) :
  parse_frames (Some (JObj f)) = fold_left frame_step f ([], []).
Proof. reflexivity. Qed.

Lemma frames_scrubbed (l : string) (f : list (string * json)) :
  forallb (fun kv => is_object (snd kv)) f = true ->
  exists f',
    mapM_values (delete_prop l) f = Normal f' /\
    forall fs ns,
      fold_left frame_step f' (map (without_entry l) fs, ns)
      = (map (without_entry l) (fst (fold_left frame_step f (fs, ns))),
         snd (fold_left frame_step f (fs, ns))).
Proof.
  induction f as [|[k v] f IH]; intros Hs.
  - exists []. split; reflexivity.
  - cbn [forallb snd] in Hs. apply andb_true_iff in Hs as [Hv Hs].
    destruct v as [| b | z | s | items | fo]; try discriminate.
    destruct (IH Hs) as (f' & Hf' & Hfold).
    exists ((k, JObj (delete l fo)) :: f'). cbn [mapM_values delete_prop bind].
    rewrite Hf'. cbn [bind]. split; [reflexivity|].
    intros fs ns. cbn [fold_left frame_step truthy typeof_object andb].
    rewrite parse_frame_delete, set_without_entry. apply Hfold.
Qed.

Lemma part_set_frames (k : string) (v : json) (o : list (string * json)) :
  k <> "frames" -> part k (set "frames" v o) = part k o.
Proof.
  intros Hk. unfold part, container, coalesce.
  rewrite (lookup_set_other "frames" "hypergraph") by discriminate.
  destruct (nullish (lookup "hypergraph" o)); [|reflexivity].
  cbn [get_opt]. apply lookup_set_other. congruence.
Qed.

Lemma frame_entries_removed (l : string) (o : list (string * json)) :
  frames_are_objects o = true ->
  exists o',
    remove_frame_entries l (JObj o) = Normal (JObj o') /\
    (forall k, k <> "frames" -> part k o' = part k o) /\
    parse_frames (lookup "frames" o')
    = (map (without_entry l) (fst (parse_frames (lookup "frames" o))),
       snd (parse_frames (lookup "frames" o))).
Proof.
  unfold frames_are_objects, remove_frame_entries. cbn [get bind].
  destruct (lookup "frames" o) as [[| b | z | s | items | f]|] eqn:Ef;
    try discriminate; intros Hs; cbn [truthy].
  - exists o. rewrite Ef. repeat split; reflexivity.
  - destruct (frames_scrubbed l f Hs) as (f' & -> & Hfold). cbn [bind].
    exists (set "frames" (JObj f') o). split; [reflexivity|].
    split; [intros k Hk; now apply part_set_frames|].
    rewrite lookup_set_same, !parse_frames_object. apply (Hfold [] []).
  - exists o. rewrite Ef. repeat split; reflexivity.
Qed.

Lemma scrub_is_clean (l : string) (e : ChgEdge.t) :
  l <> "" ->
  ChgEdge.target (scrub l e) <> l /\
  ~ In l (map ChgSource.label (ChgEdge.sources (scrub l e))).
Proof.
  intros Hl. unfold scrub. cbn [ChgEdge.target ChgEdge.sources]. split.
  - destruct (String.eqb (ChgEdge.target e) l) eqn:E; [congruence|].
    now apply String.eqb_neq.
  - rewrite map_map. cbn [ChgSource.label].
    rewrite <- (map_map snd ChgSource.label), SourcesFacts.indexed_from_values.
    rewrite in_map_iff. intros (s & Hs & Hin). apply filter_In in Hin as [_ Hne].
    rewrite Hs, String.eqb_refl in Hne. discriminate.
Qed.

Lemma remove_first_unique (l : string) (ns : list ChgNode.t) :
  NoDup (map ChgNode.label ns) -> ~ In l (map ChgNode.label (remove_first l ns)).
Proof.
  induction ns as [|x ns IH]; cbn [remove_first map]; intros Hnd; [intros []|].
  inversion Hnd as [|? ? Hx Hrest]; subst.
  destruct (String.eqb (ChgNode.label x) l) eqn:E.
  - apply String.eqb_eq in E. now subst l.
  - cbn [map In]. intros [H | H]; [apply String.eqb_neq in E; contradiction|].
    now apply IH.
Qed.

(** X14.  Removing the selected node from a well-formed document (the
    [hypergraph] entry missing, [null] or an object; no [null] node; the
    sources of every edge an array of strings or missing; every frame an
    object): the edit goes through and the selection is cleared.  The
    re-parsed model is the old one without the first node of that label,
    with every edge scrubbed of it and every frame without its entry, so
    no target, source or frame entry names the node any more; when labels
    are distinct no node does either. *)
Theorem removeNode_leaves_no_reference
        (o : list (string * json)) (st : ChgState.t) (l uri : string) (d : ChgData) :
  plain o = true ->
  ~ In JNull (NormalizerSpec.raw_nodes (JObj o)) ->
  forallb sources_listed (array_of (part "edges" o)) = true ->
  frames_are_objects o = true ->
  parse_raw (JObj o) = Normal d ->
  _kind st = Some NODE -> _label st = Some l -> l <> "" ->
  In l (map ChgNode.label (nodes d)) ->
  exists raw' d',
    _removeNode st (Some uri) (Normal (JObj o))
    = Normal (Normal raw', setSelection st None None) /\
    parse_raw raw' = Normal d' /\
    nodes d' = remove_first l (nodes d) /\
    edges d' = map (scrub l) (edges d) /\
    frames d' = map (without_entry l) (frames d) /\
    frameNames d' = frameNames d /\
    Forall (fun e => ChgEdge.target e <> l /\
                     ~ In l (map ChgSource.label (ChgEdge.sources e))) (edges d') /\
    (forall name fr, lookup name (frames d') = Some fr -> lookup l fr = None) /\
    (NoDup (map ChgNode.label (nodes d)) -> ~ In l (map ChgNode.label (nodes d'))).
Proof.
  intros Hp Hnn Hsl Hfo Hd Hk Hlab Hl Hin.
  change (NormalizerSpec.raw_nodes (JObj o)) with (array_of (part "nodes" o)) in Hnn.
  destruct (parsed_parts o d Hd) as (HN & HE & HF).
  pose proof (find_by_label_parsed l _ _ Hnn HN) as Hfind.
  destruct (find_by_label l (array_of (part "nodes" o))) as [[i|]|] eqn:Efind;
    try contradiction.
  destruct Hfind as [_ Hsplice].
  destruct (edit_array "nodes" o (splice_one i (array_of (part "nodes" o))) Hp)
    as (raw1 & o2 & Hget1 & Hput1 & Hp2 & Hn2 & Hother2 & Hfr2); try discriminate.
  destruct (edges_scrubbed l _ _ Hsl HE) as (es' & Hes' & Hpes').
  destruct (edit_array "edges" o2 es' Hp2)
    as (raw3 & o4 & Hget3 & Hput3 & Hp4 & He4 & Hother4 & Hfr4); try discriminate.
  rewrite (Hother2 "edges") in Hget3 by discriminate.
  assert (Hfo4 : frames_are_objects o4 = true).
  { unfold frames_are_objects in *. now rewrite Hfr4, Hfr2. }
  destruct (frame_entries_removed l o4 Hfo4) as (o5 & Hrem & Hother5 & Hfr5).
  assert (Hop : mutate_removeNode l (JObj o) = Normal (JObj o5, true)).
  { unfold mutate_removeNode, getNodes, getEdges. rewrite Hget1. cbn [bind].
    rewrite Efind. cbn [bind]. rewrite Hput1, Hget3. cbn [bind].
    rewrite Hes'. cbn [bind]. rewrite Hput3, Hrem. reflexivity. }
  destruct (parse_raw_object o5 (map (scrub l) (edges d))) as [d' Hd'].
  { rewrite (Hother5 "edges"), He4 by discriminate. exact Hpes'. }
  exists (JObj o5), d'.
  destruct (parsed_parts o5 d' Hd') as (HN' & HE' & HF').
  rewrite (Hother5 "nodes"), (Hother4 "nodes"), Hn2 in HN' by discriminate.
  cbn [array_of] in HN'. rewrite Hsplice in HN'. injection HN' as HN'.
  rewrite (Hother5 "edges"), He4 in HE' by discriminate.
  cbn [array_of] in HE'. rewrite Hpes' in HE'. injection HE' as HE'.
  rewrite Hfr5, Hfr4, Hfr2, HF in HF'. cbn [fst snd] in HF'.
  injection HF' as HF1 HF2.
  split.
  { unfold _removeNode. rewrite Hk, Hlab. cbn [truthy_str].
    apply String.eqb_neq in Hl. rewrite Hl. cbn [negb].
    unfold _editJson. rewrite Hop. reflexivity. }
  split; [exact Hd'|].
  split; [auto|]. split; [auto|]. split; [auto|]. split; [auto|].
  split; [|split].
  - rewrite <- HE'. apply Forall_forall. intros e He.
    apply in_map_iff in He as (e0 & <- & _). now apply scrub_is_clean.
  - intros name fr. rewrite <- HF1, lookup_without_entry.
    destruct (lookup name (frames d)) as [fr0|]; cbn [option_map]; [|discriminate].
    intros [= <-]. apply lookup_delete_same.
  - intros Hnd. rewrite <- HN'. now apply remove_first_unique.
Qed.

Lemma removeNode_leaves_no_reference_witness :
  let st := setSelection init (Some NODE) (Some "x") in
  exists d,
    parse_raw (JObj small_props) = Normal d /\
    In "x" (map ChgNode.label (nodes d)) /\
    exists raw' d',
      _removeNode st (Some "doc.chg") (Normal (JObj small_props))
      = Normal (Normal raw', setSelection st None None) /\
      parse_raw raw' = Normal d' /\
      nodes d' = remove_first "x" (nodes d) /\
      edges d' = map (scrub "x") (edges d) /\
      frames d' = map (without_entry "x") (frames d) /\
      frameNames d' = frameNames d /\
      Forall (fun e => ChgEdge.target e <> "x" /\
                       ~ In "x" (map ChgSource.label (ChgEdge.sources e))) (edges d') /\
      (forall name fr, lookup name (frames d') = Some fr -> lookup "x" fr = None) /\
      (NoDup (map ChgNode.label (nodes d)) -> ~ In "x" (map ChgNode.label (nodes d'))).
Proof.
  intros st. eexists. split; [reflexivity|].
  split; [cbn; auto|].
  apply (removeNode_leaves_no_reference small_props st "x" "doc.chg");
    [reflexivity | cbn; intuition discriminate | reflexivity | reflexivity | reflexivity
     | reflexivity | reflexivity | discriminate | cbn; auto].
Defined.

(** X15.  [_removeNode] rewrites the sources of an edge only when they are
    an array: sources keyed by handle are left as they are, so the edge
    keeps naming the removed node.  (The edge is one the parser keeps: none
    of its sources fails to convert to a string.) *)
Theorem removeNode_keeps_keyed_sources
        (l l0 : string) (eo m : list (string * json)) :
  lookup "label" eo = Some (JStr l0) ->
  lookup "source_nodes" eo = Some (JObj m) ->
  existsb raises (map snd m) = false ->
  exists eo' x x',
    remove_refs l (JObj eo) = Normal (JObj eo') /\
    lookup "source_nodes" eo' = Some (JObj m) /\
    parse_edge (JObj eo) = Normal [x] /\
    parse_edge (JObj eo') = Normal [x'] /\
    ChgEdge.sources x' = ChgEdge.sources x /\
    map ChgSource.handle (ChgEdge.sources x') = map fst m /\
    (forallb exact (map snd m) = true ->
     map ChgSource.label (ChgEdge.sources x') = map (fun hl => ToString (snd hl)) m).
Proof.
  intros Hl Hsn Hr.
  destruct (remove_refs_object l eo) as (eo' & -> & Hsn' & _ & _ & Hk).
  exists eo'.
  rewrite !NormalizerFacts.parse_edge_object, (Hk "label"), Hl by discriminate.
  unfold NormalizerSpec.raw_sources. cbn [get_opt].
  rewrite Hsn', Hsn.
  cbn [scrub_array coalesce nullish NormalizerSpec.source_values
       NormalizerSpec.listed_sources entries].
  rewrite Hr.
  do 2 eexists. split; [reflexivity|]. split; [reflexivity|].
  split; [reflexivity|]. split; [reflexivity|]. split; [reflexivity|].
  cbn [ChgEdge.sources].
  rewrite SourcesFacts.listed_handles, SourcesFacts.listed_labels.
  cbn [NormalizerSpec.source_values]. rewrite map_map. auto.
Qed.

Lemma removeNode_keeps_keyed_sources_witness :
  exists eo' x x',
    remove_refs "x" (JObj keyed_edge) = Normal (JObj eo') /\
    lookup "source_nodes" eo' = Some (JObj [("a", JStr "x"); ("b", JStr "y")]) /\
    parse_edge (JObj keyed_edge) = Normal [x] /\
    parse_edge (JObj eo') = Normal [x'] /\
    ChgEdge.sources x' = ChgEdge.sources x /\
    map ChgSource.handle (ChgEdge.sources x') = ["a"; "b"] /\
    map ChgSource.label (ChgEdge.sources x') = ["x"; "y"].
Proof.
  destruct (removeNode_keeps_keyed_sources "x" "e" keyed_edge
              [("a", JStr "x"); ("b", JStr "y")] eq_refl eq_refl eq_refl)
    as (eo' & x & x' & H1 & H2 & H3 & H4 & H5 & H6 & H7).
  exists eo', x, x'. repeat (split; [assumption|]). exact (H7 eq_refl).
Defined.

(** *** Frames *)

Lemma fold_frames_names (f : list (string * json))
      (fs : list (string * list (string * list json))) (ns : list string) :
  snd (fold_left frame_step f (fs, ns))
  = ns ++ map fst (filter (fun kv => visible (snd kv)) f).
Proof.
  revert fs ns. induction f as [|[k v] f IH]; intros fs ns; cbn [fold_left filter snd].
  - now rewrite app_nil_r.
  - unfold frame_step at 2. fold (visible v).
    destruct (visible v); rewrite IH; [|reflexivity].
    cbn [map fst]. now rewrite <- app_assoc.
Qed.

Lemma lookup_none_iff {A} (k : string) (f : list (string * A)) :
  lookup k f = None <-> ~ In k (map fst f).
Proof.
  induction f as [|[k' v] f IH]; cbn [lookup map fst In]; [tauto|].
  destruct (String.eqb k' k) eqn:E.
  - apply String.eqb_eq in E. split; [discriminate | intros H; exfalso; auto].
  - apply String.eqb_neq in E. rewrite IH. tauto.
Qed.

(** With distinct keys, the frames of the model are the visible entries of
    the document, parsed. *)
Lemma fold_frames_lookup (k : string) (f : list (string * json))
      (fs : list (string * list (string * list json))) (ns : list string) :
  NoDup (map fst f) ->
  lookup k (fst (fold_left frame_step f (fs, ns)))
  = match lookup k f with
    | Some v => if visible v then Some (parse_frame v) else lookup k fs
    | None => lookup k fs
    end.
Proof.
  revert fs ns. induction f as [|[k0 v0] f IH]; intros fs ns Hnd; [reflexivity|].
  cbn [map fst] in Hnd. inversion Hnd as [|? ? Hk0 Hrest]; subst.
  cbn [fold_left lookup]. unfold frame_step at 2. fold (visible v0).
  destruct (String.eqb k0 k) eqn:E.
  - apply String.eqb_eq in E. subst k0.
    apply lookup_none_iff in Hk0.
    destruct (visible v0); rewrite IH, Hk0 by assumption; [apply lookup_set_same | reflexivity].
  - apply String.eqb_neq in E.
    destruct (visible v0); rewrite IH by assumption; [|reflexivity].
    rewrite (lookup_set_other k0 k) by assumption. reflexivity.
Qed.

Lemma set_absent {A} (k : string) (v : A) (f : list (string * A)) :
  lookup k f = None -> set k v f = f ++ [(k, v)].
Proof.
  induction f as [|[k' v'] f IH]; cbn [lookup set app]; [reflexivity|].
  destruct (String.eqb k' k); [discriminate|]. intros H. now rewrite IH.
Qed.

Lemma keys_delete {A} (k : string) (f : list (string * A)) :
  map fst (delete k f) = filter (other_name k) (map fst f).
Proof.
  unfold delete, other_name.
  induction f as [|[k' v'] f IH]; cbn [filter map fst]; [reflexivity|].
  destruct (String.eqb k' k); cbn [negb map fst]; now rewrite IH.
Qed.

Lemma distinct_keys_delete {A} (k : string) (f : list (string * A)) :
  NoDup (map fst f) -> NoDup (map fst (delete k f)).
Proof. rewrite keys_delete. apply NoDup_filter. Qed.

Lemma visible_names_delete (cf : string) (f : list (string * json)) :
  map fst (filter (fun kv => visible (snd kv)) (delete cf f))
  = filter (other_name cf) (map fst (filter (fun kv => visible (snd kv)) f)).
Proof.
  unfold delete, other_name.
  induction f as [|[k v] f IH]; cbn [filter map fst snd]; [reflexivity|].
  destruct (String.eqb k cf) eqn:E; cbn [negb filter snd].
  - destruct (visible v); cbn [map fst filter]; rewrite ?E; cbn [negb]; exact IH.
  - destruct (visible v); cbn [map fst filter]; rewrite ?E; cbn [negb]; now rewrite IH.
Qed.

Lemma parts_with_frames (o : list (string * json)) (fr : json) (d : ChgData) :
  parse_raw (JObj o) = Normal d ->
  exists d',
    parse_raw (JObj (set "frames" fr o)) = Normal d' /\
    nodes d' = nodes d /\ edges d' = edges d /\
    parse_frames (Some fr) = (frames d', frameNames d').
Proof.
  intros Hd. destruct (parsed_parts o d Hd) as (HN & HE & _).
  destruct (parse_raw_object (set "frames" fr o) (edges d)) as [d' Hd'].
  { now rewrite part_set_frames by discriminate. }
  exists d'. split; [exact Hd'|].
  destruct (parsed_parts _ d' Hd') as (HN' & HE' & HF').
  rewrite part_set_frames, HN in HN' by discriminate.
  rewrite part_set_frames, HE in HE' by discriminate.
  rewrite lookup_set_same in HF'.
  injection HN' as HN'. injection HE' as HE'. auto.
Qed.

Lemma next_frame_keeps (name : string) (d : ChgData) :
  name <> "" -> In name (frameNames d) ->
  FramesSpec.next_frame (Some name) (Some d) = Some name.
Proof.
  intros Hn Hin. unfold FramesSpec.next_frame.
  destruct (frameNames d) as [|first rest] eqn:E; [reflexivity|].
  apply ChgStateFacts.includes_In in Hin. rewrite Hin.
  cbn [truthy_str]. apply String.eqb_neq in Hn. now rewrite Hn.
Qed.

Lemma next_frame_first (d : ChgData) :
  FramesSpec.next_frame (hd_error (frameNames d)) (Some d) = hd_error (frameNames d).
Proof.
  unfold FramesSpec.next_frame.
  destruct (frameNames d) as [|first rest] eqn:E; [reflexivity|].
  cbn [hd_error]. destruct (negb _ || negb _); reflexivity.
Qed.

(** X16.  Adding a frame, under a name that is not an array index, to a
    document whose [frames] entry is an object or falsy: the typed name
    becomes the current frame either way.  When the object already has an
    entry of that name (whatever its value), or the name is that of a
    member every object inherits, the document is left as it was;
    otherwise the re-parsed model has the same nodes and edges and one more
    frame, last and empty, and reloading it keeps the new frame current. *)
Theorem addFrame_appends_or_selects
        (o : list (string * json)) (st : ChgState.t) (name uri : string) (d : ChgData) :
  name <> "" ->
  array_index name = None ->
  frames_writable o = true ->
  parse_raw (JObj o) = Normal d ->
  exists raw' d',
    _addFrame (Some name) st (Some uri) (Normal (JObj o))
    = Normal (Normal raw', setCurrentFrame st (Some name)) /\
    parse_raw raw' = Normal d' /\
    nodes d' = nodes d /\ edges d' = edges d /\
    match lookup name (frame_entries o) with
    | Some _ => raw' = JObj o
    | None =>
        if inherited name then raw' = JObj o
        else
          frames d' = set name [] (frames d) /\
          frameNames d' = frameNames d ++ [name] /\
          _currentFrame (setData (setCurrentFrame st (Some name)) (Some d')) = Some name
    end.
Proof.
  intros Hn Hidx Hw Hd.
  assert (Hname : negb (truthy_str (Some name)) = false).
  { cbn [truthy_str]. apply String.eqb_neq in Hn. now rewrite Hn. }
  assert (Hreload : forall d', frameNames d' = frameNames d ++ [name] ->
             _currentFrame (setData (setCurrentFrame st (Some name)) (Some d')) = Some name).
  { intros d' Hnames. rewrite FramesFacts.setData_frame.
    apply next_frame_keeps; [exact Hn|]. rewrite Hnames, in_app_iff. right. now left. }
  destruct (parsed_parts o d Hd) as (_ & _ & HF).
  unfold _addFrame. rewrite Hname. unfold _editJson, mutate_addFrame.
  cbn [get bind].
  assert (Hcases : (exists f, lookup "frames" o = Some (JObj f)) \/
                   (truthy (lookup "frames" o) = false /\ frame_entries o = [])).
  { unfold frames_writable, frame_entries in *.
    destruct (lookup "frames" o) as [[| b | z | s | items | f]|]; eauto;
      right; split; try reflexivity; now apply negb_true_iff. }
  destruct Hcases as [[f Ef] | [Ef Ee]].
  - unfold frame_entries. rewrite Ef in *. cbn [truthy]. unfold defined_prop.
    cbn [get_prop].
    destruct (lookup name f) as [x|] eqn:El.
    + exists (JObj o), d. cbn [bind]. auto.
    + destruct (inherited name) eqn:Ei.
      * exists (JObj o), d. cbn [bind]. auto.
      * cbn [set_new_prop bind].
        rewrite (put_ordinary name (JObj []) f)
          by (unfold ordinary; now rewrite Ei, Hidx).
        destruct (parts_with_frames o (JObj (set name (JObj []) f)) d Hd)
          as (d' & Hd' & HN' & HE' & HF').
        exists (JObj (set "frames" (JObj (set name (JObj []) f)) o)), d'.
        rewrite (set_absent _ _ _ El), parse_frames_object, fold_left_app in HF'.
        rewrite parse_frames_object in HF.
        rewrite HF in HF'. cbn in HF'. injection HF' as HF1 HF2.
        repeat split; auto.
  - rewrite Ef, Ee. cbn [bind lookup].
    destruct (inherited name) eqn:Ei.
    + exists (JObj o), d. cbn [bind]. auto.
    + destruct (parts_with_frames o (JObj [(name, JObj [])]) d Hd)
        as (d' & Hd' & HN' & HE' & HF').
      exists (JObj (set "frames" (JObj [(name, JObj [])]) o)), d'.
      cbn in HF'. injection HF' as HF1 HF2.
      unfold parse_frames in HF. rewrite Ef in HF. cbn [andb] in HF.
      injection HF as HF3 HF4.
      rewrite <- HF3, <- HF4. repeat split; auto.
      apply Hreload. now rewrite <- HF4.
Qed.

Lemma addFrame_appends_or_selects_witness :
  exists d,
    parse_raw (JObj small_props) = Normal d /\
    exists raw' d',
      _addFrame (Some "h") init (Some "doc.chg") (Normal (JObj small_props))
      = Normal (Normal raw', setCurrentFrame init (Some "h")) /\
      parse_raw raw' = Normal d' /\
      nodes d' = nodes d /\ edges d' = edges d /\
      frames d' = set "h" [] (frames d) /\
      frameNames d' = frameNames d ++ ["h"] /\
      _currentFrame (setData (setCurrentFrame init (Some "h")) (Some d')) = Some "h".
Proof.
  eexists. split; [reflexivity|].
  apply (addFrame_appends_or_selects small_props init "h" "doc.chg");
    [discriminate | reflexivity | reflexivity | reflexivity].
Defined.

Lemma frame_entries_object (o : list (string * json)) (k : string) (v : json) :
  lookup k (frame_entries o) = Some v ->
  lookup "frames" o = Some (JObj (frame_entries o)).
Proof.
  unfold frame_entries.
  destruct (lookup "frames" o) as [[| b | z | s | items | f]|]; try discriminate.
  reflexivity.
Qed.

Lemma model_frames (o : list (string * json)) (d : ChgData) (k : string) (v : json) :
  lookup k (frame_entries o) = Some v ->
  parse_raw (JObj o) = Normal d ->
  fold_left frame_step (frame_entries o) ([], []) = (frames d, frameNames d).
Proof.
  intros Hk Hd. destruct (parsed_parts o d Hd) as (_ & _ & HF).
  now rewrite (frame_entries_object o k v Hk), parse_frames_object in HF.
Qed.

(** X17.  Renaming the current frame (not [__proto__]) to a name no frame
    of the document has, which is neither an array index nor the name of a
    member every object inherits: the edit goes through and the new name
    becomes the current frame.
    The re-parsed model has the same nodes and edges; the old name is gone
    from [frameNames] and [frames], the new name comes last and holds the
    data the old one held, every other frame is as before, and reloading
    keeps the renamed frame current. *)
Theorem renameFrame_moves_the_frame
        (o : list (string * json)) (st : ChgState.t) (cf newName uri : string)
        (data : json) (d : ChgData) :
  NoDup (map fst (frame_entries o)) ->
  lookup cf (frame_entries o) = Some data ->
  truthy (Some data) = true ->
  lookup newName (frame_entries o) = None ->
  ordinary newName = true ->
  _currentFrame st = Some cf -> cf <> "" -> cf <> "__proto__" ->
  newName <> "" -> newName <> cf ->
  parse_raw (JObj o) = Normal d ->
  exists raw' d',
    _renameFrame (Some newName) st (Some uri) (Normal (JObj o))
    = Normal (Normal raw', setCurrentFrame st (Some newName)) /\
    parse_raw raw' = Normal d' /\
    nodes d' = nodes d /\ edges d' = edges d /\
    frameNames d'
    = filter (other_name cf) (frameNames d) ++ (if visible data then [newName] else []) /\
    lookup newName (frames d') = lookup cf (frames d) /\
    lookup cf (frames d') = None /\
    (forall k, k <> cf -> k <> newName -> lookup k (frames d') = lookup k (frames d)) /\
    (visible data = true ->
     _currentFrame (setData (setCurrentFrame st (Some newName)) (Some d')) = Some newName).
Proof.
  intros Hnd Hcf Ht Hnew Hord Hcur Hcfne _ Hnewne Hne Hd.
  assert (Hinh : inherited newName = false).
  { unfold ordinary in Hord. apply andb_true_iff in Hord as [Hi _].
    now apply negb_true_iff in Hi. }
  pose proof (frame_entries_object o cf data Hcf) as Ef.
  pose proof (model_frames o d cf data Hcf Hd) as HF.
  set (f := frame_entries o) in *.
  set (f' := delete cf (set newName data f)).
  destruct (parts_with_frames o (JObj f') d Hd) as (d' & Hd' & HN' & HE' & HF').
  rewrite parse_frames_object in HF'.
  assert (Hnd' : NoDup (map fst f')).
  { subst f'. apply distinct_keys_delete. rewrite (set_absent _ _ _ Hnew), map_app.
    apply NoDup_app; [exact Hnd | repeat constructor; intros [] |].
    intros x Hx [<- | []]. now apply lookup_none_iff in Hnew. }
  assert (Hlk : forall k, lookup k (frames d)
                          = match lookup k f with
                            | Some v => if visible v then Some (parse_frame v) else None
                            | None => None
                            end).
  { intros k. pose proof (fold_frames_lookup k f [] [] Hnd) as H.
    rewrite HF in H. exact H. }
  assert (Hlk' : forall k, lookup k (frames d')
                           = match lookup k f' with
                             | Some v => if visible v then Some (parse_frame v) else None
                             | None => None
                             end).
  { intros k. pose proof (fold_frames_lookup k f' [] [] Hnd') as H.
    rewrite HF' in H. exact H. }
  assert (Hnames : frameNames d'
                   = filter (other_name cf) (frameNames d)
                     ++ (if visible data then [newName] else [])).
  { pose proof (fold_frames_names f' [] []) as H1. rewrite HF' in H1.
    pose proof (fold_frames_names f [] []) as H2. rewrite HF in H2.
    cbn [snd app] in H1, H2. rewrite H1, H2. subst f'.
    rewrite visible_names_delete, (set_absent _ _ _ Hnew), filter_app, map_app, filter_app.
    f_equal. cbn [filter snd]. destruct (visible data); [|reflexivity].
    cbn [map fst filter]. unfold other_name.
    apply String.eqb_neq in Hne. now rewrite Hne. }
  exists (JObj (set "frames" (JObj f') o)), d'.
  split.
  { unfold _renameFrame. rewrite Hcur. cbn [truthy_str].
    apply String.eqb_neq in Hcfne, Hnewne, Hne. rewrite Hcfne, Hnewne, Hne.
    cbn [negb orb]. unfold _editJson, mutate_renameFrame, frame_of.
    cbn [get bind]. rewrite Ef. cbn [nullish get_prop]. fold f.
    rewrite Hcf, Ht. cbn [negb]. unfold defined_prop. cbn [get_prop]. fold f.
    rewrite Hnew, Hinh. cbn [set_new_prop bind]. fold f.
    rewrite (put_ordinary newName data f Hord). reflexivity. }
  split; [exact Hd'|]. split; [exact HN'|]. split; [exact HE'|].
  split; [exact Hnames|].
  split; [|split; [|split]].
  - rewrite Hlk, Hlk'. subst f'.
    rewrite lookup_delete_other, lookup_set_same, Hcf by congruence. reflexivity.
  - rewrite Hlk'. subst f'. now rewrite lookup_delete_same.
  - intros k Hk1 Hk2. rewrite Hlk, Hlk'. subst f'.
    rewrite lookup_delete_other, lookup_set_other by congruence. reflexivity.
  - intros Hv. rewrite FramesFacts.setData_frame.
    apply next_frame_keeps; [exact Hnewne|].
    rewrite Hnames, Hv, in_app_iff. right. now left.
Qed.

Lemma renameFrame_moves_the_frame_witness :
  exists d data,
    parse_raw (JObj small_props) = Normal d /\
    lookup "f" (frame_entries small_props) = Some data /\
    exists raw' d',
      _renameFrame (Some "h") (viewing (Some d) "f") (Some "doc.chg")
                   (Normal (JObj small_props))
      = Normal (Normal raw', setCurrentFrame (viewing (Some d) "f") (Some "h")) /\
      parse_raw raw' = Normal d' /\
      nodes d' = nodes d /\ edges d' = edges d /\
      frameNames d'
      = filter (other_name "f") (frameNames d) ++ (if visible data then ["h"] else []) /\
      lookup "h" (frames d') = lookup "f" (frames d) /\
      lookup "f" (frames d') = None /\
      (forall k, k <> "f" -> k <> "h" -> lookup k (frames d') = lookup k (frames d)) /\
      (visible data = true ->
       _currentFrame (setData (setCurrentFrame (viewing (Some d) "f") (Some "h")) (Some d'))
       = Some "h").
Proof.
  do 2 eexists. split; [reflexivity|]. split; [reflexivity|].
  apply (renameFrame_moves_the_frame small_props _ "f" "h" "doc.chg");
    [ cbn; repeat constructor; cbn; intuition discriminate
    | reflexivity | reflexivity | reflexivity | reflexivity | reflexivity
    | discriminate | discriminate | discriminate | discriminate | reflexivity ].
Defined.

(** X18.  Deleting the current frame, confirmed, while the store holds the
    model of the document: the edit goes through; the re-parsed model has
    the same nodes and edges and the same frames without the deleted one;
    and the frame chosen as current from the stale model is the first
    frame of the re-parsed one (none when no frame is left), which a
    reload keeps. *)
Theorem deleteFrame_selects_first_remaining
        (o : list (string * json)) (st : ChgState.t) (cf uri : string)
        (data : json) (d : ChgData) :
  NoDup (map fst (frame_entries o)) ->
  lookup cf (frame_entries o) = Some data ->
  truthy (Some data) = true ->
  _currentFrame st = Some cf -> cf <> "" ->
  _data st = Some d ->
  parse_raw (JObj o) = Normal d ->
  exists raw' d',
    _deleteFrame (Some "Delete") st (Some uri) (Normal (JObj o))
    = Normal (Normal raw', setCurrentFrame st (hd_error (frameNames d'))) /\
    parse_raw raw' = Normal d' /\
    nodes d' = nodes d /\ edges d' = edges d /\
    frameNames d' = filter (other_name cf) (frameNames d) /\
    lookup cf (frames d') = None /\
    (forall k, k <> cf -> lookup k (frames d') = lookup k (frames d)) /\
    _currentFrame (setData (setCurrentFrame st (hd_error (frameNames d'))) (Some d'))
    = hd_error (frameNames d').
Proof.
  intros Hnd Hcf Ht Hcur Hcfne Hdata Hd.
  pose proof (frame_entries_object o cf data Hcf) as Ef.
  pose proof (model_frames o d cf data Hcf Hd) as HF.
  set (f := frame_entries o) in *.
  destruct (parts_with_frames o (JObj (delete cf f)) d Hd) as (d' & Hd' & HN' & HE' & HF').
  rewrite parse_frames_object in HF'.
  assert (Hnames : frameNames d' = filter (other_name cf) (frameNames d)).
  { pose proof (fold_frames_names (delete cf f) [] []) as H1. rewrite HF' in H1.
    pose proof (fold_frames_names f [] []) as H2. rewrite HF in H2.
    cbn [snd app] in H1, H2. rewrite H1, H2. apply visible_names_delete. }
  exists (JObj (set "frames" (JObj (delete cf f)) o)), d'.
  split.
  { unfold _deleteFrame. rewrite Hcur, Hdata. cbn [truthy_str].
    apply String.eqb_neq in Hcfne. rewrite Hcfne. cbn [negb String.eqb Ascii.eqb Bool.eqb andb].
    unfold _editJson, mutate_deleteFrame, frame_of.
    cbn [get bind]. rewrite Ef. cbn [nullish get_prop]. fold f.
    rewrite Hcf, Ht. cbn [negb delete_prop bind].
    rewrite Hnames. reflexivity. }
  split; [exact Hd'|]. split; [exact HN'|]. split; [exact HE'|].
  split; [exact Hnames|].
  pose proof (fold_frames_lookup cf (delete cf f) [] []
                (distinct_keys_delete cf f Hnd)) as Hgone.
  rewrite HF', lookup_delete_same in Hgone.
  split; [exact Hgone|]. split.
  - intros k Hk.
    pose proof (fold_frames_lookup k (delete cf f) [] []
                  (distinct_keys_delete cf f Hnd)) as H1.
    pose proof (fold_frames_lookup k f [] [] Hnd) as H2.
    rewrite HF' in H1. rewrite HF in H2. cbn [fst] in H1, H2.
    rewrite H1, H2, lookup_delete_other by congruence. reflexivity.
  - rewrite FramesFacts.setData_frame. apply next_frame_first.
Qed.

Lemma deleteFrame_selects_first_remaining_witness :
  exists d,
    parse_raw (JObj small_props) = Normal d /\
    exists raw' d',
      _deleteFrame (Some "Delete") (viewing (Some d) "f") (Some "doc.chg")
                   (Normal (JObj small_props))
      = Normal (Normal raw',
                setCurrentFrame (viewing (Some d) "f") (hd_error (frameNames d'))) /\
      parse_raw raw' = Normal d' /\
      nodes d' = nodes d /\ edges d' = edges d /\
      frameNames d' = filter (other_name "f") (frameNames d) /\
      lookup "f" (frames d') = None /\
      (forall k, k <> "f" -> lookup k (frames d') = lookup k (frames d)) /\
      _currentFrame (setData (setCurrentFrame (viewing (Some d) "f")
                                              (hd_error (frameNames d'))) (Some d'))
      = hd_error (frameNames d').
Proof.
  eexists. split; [reflexivity|].
  apply (deleteFrame_selects_first_remaining small_props _ "f" "doc.chg"
           (JObj [("x", JNum 1); ("y", JNum 2)]));
    [ cbn; repeat constructor; cbn; intuition discriminate
    | reflexivity | reflexivity | reflexivity | discriminate | reflexivity | reflexivity ].
Defined.

End OperationsFacts.

(** ** Adding and removing an edge; the first frame *)

Module RoundTripFacts.
Import OperationsSpec RoundTripSpec.
Import Normalizer ChgState Raw Props ChgOperationsProvider Bootstrap JSFacts OperationsFacts.

Lemma parse_edge_by_label (e : json) (out : list ChgEdge.t) :
  parse_edge e = Normal out ->
  match label_of e with
  | Some l => exists x, out = [x] /\ ChgEdge.label x = l
  | None => out = []
  end.
Proof.
  unfold label_of.
  destruct e as [| b | z | s0 | items | o]; cbn [get_opt];
    try (intros [= <-]; reflexivity).
  rewrite NormalizerFacts.parse_edge_object.
  destruct (lookup "label" o) as [[| b | z | s | items | o1]|];
    try (intros [= <-]; reflexivity).
  destruct (existsb raises _); [discriminate|].
  intros [= <-]. eexists. split; reflexivity.
Qed.

Lemma find_by_label_fresh (l : string) (items : list json) (es : list ChgEdge.t) :
  ~ In JNull items ->
  for_of parse_edge items = Normal es ->
  ~ In l (map ChgEdge.label es) ->
  find_by_label l items = Normal None.
Proof.
  revert es. induction items as [|e items IH]; intros es Hnn Hp Hfresh; [reflexivity|].
  cbn [for_of] in Hp. cbn [find_by_label].
  assert (He : e <> JNull) by (intros ->; apply Hnn; now left).
  assert (Hrest : ~ In JNull items) by (intros H; apply Hnn; now right).
  destruct (get_label e l He) as [v [-> Hv]]. cbn [bind].
  destruct (parse_edge e) as [out|] eqn:Eout; cbn [bind] in Hp; [|discriminate].
  pose proof (parse_edge_by_label e out Eout) as Hpe.
  destruct (for_of parse_edge items) as [outs|]; cbn [bind] in Hp; [|discriminate].
  injection Hp as <-. rewrite map_app, in_app_iff in Hfresh.
  destruct (strict_eq_str v l) eqn:Es.
  - exfalso. assert (El : label_of e = Some l) by (now apply Hv).
    rewrite El in Hpe. destruct Hpe as [x [-> Hx]].
    apply Hfresh. left. cbn. auto.
  - rewrite (IH outs Hrest eq_refl) by tauto. reflexivity.
Qed.

Lemma find_by_label_appended (l : string) (items : list json) (n : json) :
  find_by_label l items = Normal None ->
  label_of n = Some l ->
  find_by_label l (items ++ [n]) = Normal (Some (List.length items)).
Proof.
  intros Hnone Hn. induction items as [|e items IH]; cbn [app find_by_label List.length].
  - unfold label_of in Hn.
    destruct n as [| b | z | s | its | o]; try discriminate. cbn [get get_opt bind] in *.
    destruct (lookup "label" o) as [[| b | z | s | its | o1]|]; try discriminate.
    injection Hn as ->. cbn [strict_eq_str]. now rewrite String.eqb_refl.
  - cbn [find_by_label] in Hnone.
    destruct (get (Some e) "label") as [v|]; cbn [bind] in *; [|discriminate].
    destruct (strict_eq_str v l); [discriminate|].
    destruct (find_by_label l items) as [[i|]|]; cbn [bind option_map] in Hnone;
      try discriminate.
    rewrite (IH eq_refl). reflexivity.
Qed.

Lemma splice_one_last {A} (items : list A) (n : A) :
  splice_one (List.length items) (items ++ [n]) = items.
Proof.
  induction items as [|x items IH]; cbn [List.length app splice_one]; [reflexivity|].
  now rewrite IH.
Qed.

(** X19.  Adding an edge under a label no edge of the model carries and
    then removing it again while it is selected gives back a document that
    parses to the model one started from; in between the model has the one
    new edge, last, without sources and with an empty target. *)
Theorem addEdge_then_removeEdge_restores_the_model
        (o : list (string * json)) (st : ChgState.t) (label uri : string) (d : ChgData) :
  plain o = true ->
  ~ In JNull (array_of (part "edges" o)) ->
  parse_raw (JObj o) = Normal d ->
  label <> "" ->
  ~ In label (map ChgEdge.label (edges d)) ->
  exists raw1 d1 raw2,
    _addEdge (Some label) (Some uri) (Normal (JObj o)) = Normal (Normal raw1) /\
    parse_raw raw1 = Normal d1 /\
    nodes d1 = nodes d /\
    edges d1 = edges d ++ [fresh_edge label] /\
    frames d1 = frames d /\ frameNames d1 = frameNames d /\
    _removeEdge (setSelection st (Some EDGE) (Some label)) (Some uri) (Normal raw1)
    = Normal (Normal raw2, setSelection st None None) /\
    parse_raw raw2 = Normal d.
Proof.
  intros Hp Hnn Hd Hl Hfresh.
  destruct (parsed_parts o d Hd) as (HN & HE & HF).
  pose proof (find_by_label_fresh label _ _ Hnn HE Hfresh) as Hnone.
  destruct (edit_array "edges" o
              (array_of (part "edges" o)
               ++ [JObj [("label", JStr label); ("source_nodes", JArr []);
                         ("target", JStr "")]]) Hp)
    as (raw0 & o1 & Hget & Hput & Hp1 & He1 & Hother1 & Hfr1); try discriminate.
  destruct (edit_array "edges" o1 (array_of (part "edges" o)) Hp1)
    as (raw1' & o2 & Hget2 & Hput2 & _ & He2 & Hother2 & Hfr2); try discriminate.
  rewrite He1 in Hget2. cbn [array_of] in Hget2.
  destruct (parse_raw_object o1 (edges d ++ [fresh_edge label])) as [d1 Hd1].
  { rewrite He1. cbn [array_of].
    exact (for_of_app parse_edge _
             [JObj [("label", JStr label); ("source_nodes", JArr []); ("target", JStr "")]]
             _ [fresh_edge label] HE eq_refl). }
  exists (JObj o1), d1, (JObj o2).
  destruct (parsed_parts o1 d1 Hd1) as (HN1 & HE1 & HF1).
  rewrite (Hother1 "nodes"), HN in HN1 by discriminate. injection HN1 as HN1.
  rewrite He1 in HE1. cbn [array_of] in HE1.
  rewrite (for_of_app parse_edge _
             [JObj [("label", JStr label); ("source_nodes", JArr []); ("target", JStr "")]]
             _ [fresh_edge label] HE eq_refl) in HE1.
  injection HE1 as HE1.
  rewrite Hfr1, HF in HF1. injection HF1 as HF1 HF1'.
  split.
  { unfold _addEdge, _editJson, mutate_addEdge, getEdges.
    rewrite Hget. cbn [bind]. rewrite Hnone. cbn [bind]. now rewrite Hput. }
  split; [exact Hd1|]. split; [auto|]. split; [auto|]. split; [auto|]. split; [auto|].
  split.
  { unfold _removeEdge. cbn [setSelection _kind _label truthy_str].
    apply String.eqb_neq in Hl. rewrite Hl. cbn [negb].
    unfold _editJson, mutate_removeEdge, getEdges. rewrite Hget2. cbn [bind].
    rewrite (find_by_label_appended label _
               (JObj [("label", JStr label); ("source_nodes", JArr []); ("target", JStr "")])
               Hnone eq_refl).
    cbn [bind].
    rewrite splice_one_last, Hput2. reflexivity. }
  rewrite (parse_raw_parts o2), (parse_raw_parts o) in *.
  rewrite (Hother2 "nodes"), (Hother1 "nodes"), He2, Hfr2, Hfr1 by discriminate.
  exact Hd.
Qed.

Lemma addEdge_then_removeEdge_restores_the_model_witness :
  exists d,
    parse_raw (JObj small_props) = Normal d /\
    exists raw1 d1 raw2,
      _addEdge (Some "e2") (Some "doc.chg") (Normal (JObj small_props))
      = Normal (Normal raw1) /\
      parse_raw raw1 = Normal d1 /\
      nodes d1 = nodes d /\
      edges d1 = edges d ++ [fresh_edge "e2"] /\
      frames d1 = frames d /\ frameNames d1 = frameNames d /\
      _removeEdge (setSelection init (Some EDGE) (Some "e2")) (Some "doc.chg") (Normal raw1)
      = Normal (Normal raw2, setSelection init None None) /\
      parse_raw raw2 = Normal d.
Proof.
  eexists. split; [reflexivity|].
  apply (addEdge_then_removeEdge_restores_the_model small_props init "e2" "doc.chg");
    [ reflexivity | cbn; intuition discriminate | reflexivity | discriminate
    | cbn; intuition discriminate ].
Defined.

(** X20.  [ensureFrame0] on a document object whose [frames] entry is an
    object or falsy: when [frames] has no entry the document gains the
    single empty frame [frame0], the re-parsed model has the same nodes and
    edges, and loading it makes [frame0] the current frame whatever it was
    before; when [frames] has an entry, even one the parser does not keep,
    the document is left as it is. *)
Theorem ensureFrame0_creates_the_first_frame
        (o : list (string * json)) (st : ChgState.t) (d : ChgData) :
  frames_writable o = true ->
  parse_raw (JObj o) = Normal d ->
  match frame_entries o with
  | [] =>
      exists raw' d',
        ensureFrame0 (Normal (JObj o)) = Normal (Normal raw') /\
        parse_raw raw' = Normal d' /\
        nodes d' = nodes d /\ edges d' = edges d /\
        frames d' = [("frame0", [])] /\ frameNames d' = ["frame0"] /\
        _currentFrame (setData st (Some d')) = Some "frame0"
  | _ :: _ => ensureFrame0 (Normal (JObj o)) = Normal (Normal (JObj o))
  end.
Proof.
  intros Hw Hd.
  assert (Hload : forall d', frameNames d' = ["frame0"] ->
                             _currentFrame (setData st (Some d')) = Some "frame0").
  { intros d' Hn. rewrite FramesFacts.setData_frame. unfold FramesSpec.next_frame.
    rewrite Hn. destruct (_currentFrame st) as [cf|]; cbn [truthy_str]; [|reflexivity].
    destruct (negb (negb (String.eqb cf ""))); cbn [orb]; [reflexivity|].
    unfold includes. cbn [existsb]. rewrite orb_false_r.
    destruct (String.eqb cf "frame0") eqn:E; cbn [negb]; [|reflexivity].
    apply String.eqb_eq in E. now subst. }
  assert (Hnew : exists d',
             parse_raw (JObj (set "frames" (JObj [("frame0", JObj [])]) o)) = Normal d' /\
             nodes d' = nodes d /\ edges d' = edges d /\
             frames d' = [("frame0", [])] /\ frameNames d' = ["frame0"] /\
             _currentFrame (setData st (Some d')) = Some "frame0").
  { destruct (parts_with_frames o (JObj [("frame0", JObj [])]) d Hd)
      as (d' & Hd' & HN' & HE' & HF').
    cbn in HF'. injection HF' as HF1 HF2.
    exists d'. repeat split; auto. }
  unfold ensureFrame0, frames_writable, frame_entries in *. cbn [get bind].
  destruct (lookup "frames" o) as [[| b | z | s | items | f]|] eqn:Ef.
  5: discriminate.
  5: { cbn [truthy negb keys_length]. destruct f as [|kv f]; cbn [List.length Nat.eqb].
       - cbn [set_new_prop bind set]. destruct Hnew as (d' & Hd' & H).
         exists (JObj (set "frames" (JObj [("frame0", JObj [])]) o)), d'. auto.
       - reflexivity. }
  all: rewrite Hw; destruct Hnew as (d' & Hd' & H);
    exists (JObj (set "frames" (JObj [("frame0", JObj [])]) o)), d'; auto.
Qed.

Lemma ensureFrame0_creates_the_first_frame_witness :
  exists d,
    parse_raw (JObj [("nodes", JArr []); ("frames", JObj [])]) = Normal d /\
    exists raw' d',
      ensureFrame0 (Normal (JObj [("nodes", JArr []); ("frames", JObj [])]))
      = Normal (Normal raw') /\
      parse_raw raw' = Normal d' /\
      nodes d' = nodes d /\ edges d' = edges d /\
      frames d' = [("frame0", [])] /\ frameNames d' = ["frame0"] /\
      _currentFrame (setData init (Some d')) = Some "frame0".
Proof.
  eexists. split; [reflexivity|].
  exact (ensureFrame0_creates_the_first_frame
           [("nodes", JArr []); ("frames", JObj [])] init _ eq_refl eq_refl).
Defined.

End RoundTripFacts.

(** ** Node edits in the details view and the value then shown *)

Module DetailsEditFacts.
Import OperationsSpec DetailsEditSpec.
Import Normalizer ChgState Raw Props ChgOperationsProvider ChgDetailsEdits JSFacts
       OperationsFacts.

Lemma parse_node_object (no : list (string * json)) (l : string) :
  lookup "label" no = Some (JStr l) ->
  parse_node (JObj no) = Normal [node_of no l].
Proof. intros Hl. unfold parse_node. cbn [get_opt get bind]. now rewrite Hl. Qed.

Lemma find_skips (l : string) (out ns : list ChgNode.t) :
  ~ In l (map ChgNode.label out) ->
  find (fun n => String.eqb (ChgNode.label n) l) (out ++ ns)
  = find (fun n => String.eqb (ChgNode.label n) l) ns.
Proof.
  induction out as [|x out IH]; cbn [app find map In]; intros H; [reflexivity|].
  destruct (String.eqb (ChgNode.label x) l) eqn:E.
  - apply String.eqb_eq in E. exfalso. auto.
  - apply IH. tauto.
Qed.

(** The first node labelled [l] of the model comes from the raw node
    [findIndex] finds, also after that raw node has been edited. *)
Lemma shown_after_update (l : string) (g : json -> json) (items : list json) (i : nat)
      (no no' : list (string * json)) :
  ~ In JNull items ->
  find_by_label l items = Normal (Some i) ->
  nth_error items i = Some (JObj no) ->
  g (JObj no) = JObj no' ->
  lookup "label" no' = Some (JStr l) ->
  exists ns',
    for_of parse_node (update_nth i g items) = Normal ns' /\
    find (fun n => String.eqb (ChgNode.label n) l) ns' = Some (node_of no' l).
Proof.
  intros Hnn Hfind Hnth Hg Hl'. revert i Hfind Hnth.
  induction items as [|n items IH]; intros i Hfind Hnth; [discriminate|].
  assert (Hn : n <> JNull) by (intros ->; apply Hnn; now left).
  assert (Hrest : ~ In JNull items) by (intros H; apply Hnn; now right).
  cbn [find_by_label] in Hfind.
  destruct (get_label n l Hn) as [v [Hv Hiff]]. rewrite Hv in Hfind. cbn [bind] in Hfind.
  destruct (strict_eq_str v l) eqn:Es.
  - injection Hfind as <-. cbn [nth_error] in Hnth. injection Hnth as ->.
    cbn [update_nth for_of]. rewrite Hg, (parse_node_object no' l Hl'). cbn [bind].
    destruct (NormalizerFacts.for_of_normal parse_node items
                NormalizerFacts.parse_node_normal) as [outs ->].
    cbn [bind app]. eexists. split; [reflexivity|].
    cbn [find node_of ChgNode.label]. now rewrite String.eqb_refl.
  - destruct (find_by_label l items) as [[j|]|] eqn:Ef; cbn [bind option_map] in Hfind;
      try discriminate.
    injection Hfind as <-. cbn [nth_error] in Hnth.
    destruct (IH Hrest j eq_refl Hnth) as (ns' & Hns' & Hshown).
    cbn [update_nth for_of]. rewrite Hns'.
    assert (Hne : label_of n <> Some l).
    { intros H. apply Hiff in H. congruence. }
    pose proof (parse_node_by_label n) as Hpn.
    destruct (label_of n) as [l0|].
    + destruct Hpn as [x [-> Hx]]. cbn [bind]. eexists. split; [reflexivity|].
      rewrite find_skips; [exact Hshown|]. cbn. intros [H | []]. congruence.
    + rewrite Hpn. cbn [bind app]. eauto.
Qed.

Lemma update_nth_same {A} (i : nat) (items : list A) :
  update_nth i (fun x => x) items = items.
Proof.
  revert i. induction items as [|x items IH]; intros [|i]; cbn [update_nth];
    try reflexivity. now rewrite IH.
Qed.

Lemma parse_frame_lookup (l : string) (fo : list (string * json)) :
  NoDup (map fst fo) ->
  lookup l (parse_frame (JObj fo)) = option_map wrap_values (lookup l fo).
Proof.
  unfold parse_frame. cbn [entries].
  assert (Hgen : forall acc,
             NoDup (map fst fo) ->
             lookup l (fold_left (fun acc nv => set (fst nv) (wrap_values (snd nv)) acc)
                                 fo acc)
             = match lookup l fo with
               | Some v => Some (wrap_values v)
               | None => lookup l acc
               end).
  { induction fo as [|[k v] fo IH]; intros acc Hnd; [reflexivity|].
    cbn [map fst] in Hnd. inversion Hnd as [|? ? Hk Hrest]; subst.
    cbn [fold_left lookup fst snd]. rewrite IH by assumption.
    destruct (String.eqb k l) eqn:E.
    - apply String.eqb_eq in E. subst k. apply lookup_none_iff in Hk. rewrite Hk.
      apply lookup_set_same.
    - apply String.eqb_neq in E. destruct (lookup l fo); [reflexivity|].
      now apply lookup_set_other. }
  intros Hnd. rewrite (Hgen [] Hnd). destruct (lookup l fo); reflexivity.
Qed.

Lemma distinct_keys_set {A} (k : string) (v : A) (f : list (string * A)) :
  NoDup (map fst f) -> NoDup (map fst (set k v f)).
Proof.
  induction f as [|[k' v'] f IH]; cbn [set map fst]; intros Hnd.
  - repeat constructor. intros [].
  - destruct (String.eqb k' k) eqn:E; cbn [map fst]; [exact Hnd|].
    inversion Hnd as [|? ? Hk Hrest]; subst. constructor; [|auto].
    intros Hin. apply Hk. clear IH Hnd Hrest Hk.
    induction f as [|[k0 v0] f IHf]; cbn [set map fst In] in *.
    + destruct Hin as [<- | []]. apply String.eqb_neq in E. congruence.
    + destruct (String.eqb k0 k); cbn [map fst In] in Hin; tauto.
Qed.

Lemma distinct_keys_put {A} (k : string) (v : A) (m : list (string * A)) :
  NoDup (map fst m) -> NoDup (map fst (put k v m)).
Proof.
  intros Hnd. unfold put. destruct (lookup k m) eqn:E.
  - now apply distinct_keys_set.
  - destruct (String.eqb k "__proto__"); [exact Hnd|].
    destruct (array_index k).
    + now apply distinct_keys_insert_index.
    + now apply distinct_keys_set.
Qed.

Lemma frame_is_named (raw : json) (d : ChgData) (cf : string)
      (fr : list (string * list json)) :
  parse_raw raw = Normal d -> lookup cf (frames d) = Some fr -> In cf (frameNames d).
Proof.
  intros Hd Hl.
  pose proof (FramesFacts.parse_frames_names_match (get_opt (Some raw) "frames")) as H.
  rewrite <- (FramesFacts.parse_raw_frames _ _ Hd) in H. apply H. cbn [fst].
  congruence.
Qed.

(** The frame a document shows under [cf], in the model. *)
Lemma model_frame (o : list (string * json)) (d : ChgData) (cf : string)
      (fo : list (string * json)) :
  current_frame_object o cf fo ->
  parse_raw (JObj o) = Normal d ->
  lookup cf (frames d) = Some (parse_frame (JObj fo)).
Proof.
  intros (Hnd & Hcf & _) Hd.
  pose proof (model_frames o d cf _ Hcf Hd) as HF.
  pose proof (fold_frames_lookup cf _ [] [] Hnd) as H.
  rewrite HF, Hcf in H. exact H.
Qed.

Lemma coalesce_twice (x : JS.value) : coalesce x x = x.
Proof. unfold coalesce. destruct (nullish x); reflexivity. Qed.

Lemma is_const_node_of (no : list (string * json)) (l : string) :
  is_const (node_of no l)
  = truthy (coalesce (lookup "is_constant" no) (lookup "constant" no)).
Proof. unfold is_const, node_of. cbn. now rewrite coalesce_twice. Qed.

(** The raw node behind the node the details view shows. *)
Lemma shown_node_raw (o : list (string * json)) (d : ChgData) (l : string) (n : ChgNode.t) :
  plain o = true ->
  ~ In JNull (array_of (part "nodes" o)) ->
  parse_raw (JObj o) = Normal d ->
  shown_node d l = Some n ->
  exists i no,
    getNodes (JObj o) = Normal (JObj o, array_of (part "nodes" o)) /\
    find_by_label l (array_of (part "nodes" o)) = Normal (Some i) /\
    nth_error (array_of (part "nodes" o)) i = Some (JObj no) /\
    lookup "label" no = Some (JStr l) /\
    n = node_of no l.
Proof.
  intros Hp Hnn Hd Hshown.
  destruct (parsed_parts o d Hd) as (HN & _ & _).
  assert (Hin : In l (map ChgNode.label (nodes d))).
  { unfold shown_node in Hshown. apply find_some in Hshown as [Hin E].
    apply String.eqb_eq in E. subst l. now apply in_map. }
  pose proof (find_by_label_parsed l _ _ Hnn HN) as Hfind.
  destruct (find_by_label l (array_of (part "nodes" o))) as [[i|]|] eqn:Ef;
    try contradiction.
  destruct (RawFacts.find_by_label_bound _ _ _ Ef) as (no & Hnth & Hl).
  destruct (edit_array "nodes" o [] Hp) as (raw1 & _ & Hget & _); try discriminate.
  assert (Hne : array_of (part "nodes" o) <> []).
  { intros E. rewrite E in Hnth. destruct i; discriminate. }
  destruct (RawFacts.get_mutable_array_nonempty _ _ _ _ Hget Hne) as (-> & _).
  exists i, no. split; [exact Hget|]. split; [reflexivity|]. split; [exact Hnth|].
  split; [exact Hl|].
  destruct (shown_after_update l (fun x => x) _ i no no Hnn Ef Hnth eq_refl Hl)
    as (ns' & Hns' & Hs).
  rewrite update_nth_same, HN in Hns'. injection Hns' as <-.
  unfold shown_node in Hshown. congruence.
Qed.

(** The model after the raw node behind the shown node has been edited,
    with [frames] as they are or replaced. *)
Lemma edited_model (o o2 : list (string * json)) (d : ChgData) (l : string)
      (g : json -> json) (i : nat) (no no' : list (string * json)) :
  plain o = true ->
  ~ In JNull (array_of (part "nodes" o)) ->
  parse_raw (JObj o) = Normal d ->
  find_by_label l (array_of (part "nodes" o)) = Normal (Some i) ->
  nth_error (array_of (part "nodes" o)) i = Some (JObj no) ->
  g (JObj no) = JObj no' ->
  lookup "label" no' = Some (JStr l) ->
  (o2 = o \/ exists F, o2 = set "frames" F o) ->
  exists o' d',
    put_mutable_array "nodes" (JObj o2) (update_nth i g (array_of (part "nodes" o)))
    = JObj o' /\
    parse_raw (JObj o') = Normal d' /\
    shown_node d' l = Some (node_of no' l) /\
    edges d' = edges d /\
    parse_frames (lookup "frames" o2) = (frames d', frameNames d').
Proof.
  intros Hp Hnn Hd Hfind Hnth Hg Hl' Ho2.
  destruct (parsed_parts o d Hd) as (_ & HE & _).
  assert (Hparts : plain o2 = true /\ forall k, k <> "frames" -> part k o2 = part k o).
  { destruct Ho2 as [-> | [F ->]]; [auto|]. split.
    - unfold plain in *. now rewrite (lookup_set_other "frames" "hypergraph") by discriminate.
    - intros k Hk. now apply part_set_frames. }
  destruct Hparts as [Hp2 Hsame].
  destruct (edit_array "nodes" o2 (update_nth i g (array_of (part "nodes" o))) Hp2)
    as (raw1 & o' & Hget & Hput & _ & Hn' & Hother & Hfr); try discriminate.
  rewrite (Hsame "nodes") in Hget by discriminate.
  assert (Hne : array_of (part "nodes" o) <> []).
  { intros E. rewrite E in Hnth. destruct i; discriminate. }
  destruct (RawFacts.get_mutable_array_nonempty _ _ _ _ Hget Hne) as (-> & _).
  destruct (parse_raw_object o' (edges d)) as [d' Hd'].
  { now rewrite (Hother "edges"), (Hsame "edges") by discriminate. }
  exists o', d'. split; [exact Hput|]. split; [exact Hd'|].
  destruct (parsed_parts o' d' Hd') as (HN' & HE' & HF').
  rewrite Hn' in HN'. cbn [array_of] in HN'.
  destruct (shown_after_update l g _ i no no' Hnn Hfind Hnth Hg Hl') as (ns' & Hns' & Hs).
  rewrite Hns' in HN'. injection HN' as HN'.
  rewrite (Hother "edges"), (Hsame "edges"), HE in HE' by discriminate.
  injection HE' as HE'. rewrite Hfr in HF'.
  unfold shown_node. rewrite <- HN'. auto.
Qed.

(** The frame rewritten in place, in the model. *)
Lemma rewritten_frame (o : list (string * json)) (cf : string)
      (fo fo2 : list (string * json))
      (fs : list (string * list (string * list json))) (ns : list string) :
  current_frame_object o cf fo ->
  parse_frames (Some (JObj (set cf (JObj fo2) (frame_entries o)))) = (fs, ns) ->
  lookup cf fs = Some (parse_frame (JObj fo2)).
Proof.
  intros (Hnd & Hcf & _) HF. rewrite parse_frames_object in HF.
  pose proof (fold_frames_lookup cf _ [] [] (distinct_keys_set cf (JObj fo2) _ Hnd)) as H.
  rewrite HF, lookup_set_same in H. exact H.
Qed.

Lemma nth_of_nth_error {A} (items : list A) (i : nat) (x d : A) :
  nth_error items i = Some x -> nth i items d = x.
Proof.
  revert i. induction items as [|y items IH]; intros [|i]; cbn; try discriminate.
  - now intros [= ->].
  - apply IH.
Qed.

Lemma lookup_assigned (k : string) (v : JS.value) (no : list (string * json)) :
  exists no',
    assign k v (JObj no) = JObj no' /\
    lookup k no' = v /\
    (forall k', k <> k' -> lookup k' no' = lookup k' no).
Proof.
  destruct v as [x|]; cbn [assign]; eexists; (split; [reflexivity|]).
  - split; [apply lookup_set_same | intros k'; apply lookup_set_other].
  - split; [apply lookup_delete_same | intros k'; apply lookup_delete_other].
Qed.

Lemma kept_frame (o : list (string * json)) (cf : string) (fo : list (string * json))
      (fs : list (string * list (string * list json))) (ns : list string) :
  current_frame_object o cf fo ->
  parse_frames (lookup "frames" o) = (fs, ns) ->
  lookup cf fs = Some (parse_frame (JObj fo)).
Proof.
  intros (Hnd & Hcf & _) HF.
  rewrite (frame_entries_object o cf _ Hcf), parse_frames_object in HF.
  pose proof (fold_frames_lookup cf _ [] [] Hnd) as H.
  rewrite HF, Hcf in H. exact H.
Qed.

(** What the details view shows once a parsed model is loaded whose
    [frames] hold [fr] under the current frame. *)
Lemma display_of (st : ChgState.t) (raw : json) (d : ChgData) (cf : string)
      (fr : list (string * list json)) (n : ChgNode.t) :
  _currentFrame st = Some cf -> cf <> "" ->
  parse_raw raw = Normal d ->
  lookup cf (frames d) = Some fr ->
  ChgDetailsProvider._getNodeValue (setData st (Some d)) n
  = if is_const n then ChgDetailsProvider.Value (ChgNode.value n)
    else match read (ChgNode.label n) fr with
         | Own frameNodeData => ChgDetailsProvider.Value (hd_error frameNodeData)
         | Builtin k => ChgDetailsProvider.Member k
         | Absent => ChgDetailsProvider.Value (ChgNode.value n)
         | Beyond => ChgDetailsProvider.Unresolved
         end.
Proof.
  intros Hcur Hcf Hd Hfr.
  unfold ChgDetailsProvider._getNodeValue, is_const.
  destruct (truthy (coalesce (ChgNode.is_constant n) (ChgNode.constant n)));
    [reflexivity|].
  rewrite FramesFacts.setData_frame, Hcur.
  rewrite (next_frame_keeps cf d Hcf (frame_is_named raw d cf fr Hd Hfr)).
  destruct (ChgStateFacts.setData_other_fields st (Some d)) as (-> & _).
  cbn [truthy_str]. apply String.eqb_neq in Hcf. rewrite Hcf. cbn [negb].
  unfold read at 1. now rewrite Hfr.
Qed.

(** The entry of [l] the parser makes of a frame object, as the details
    view reads it. *)
Lemma read_parsed_frame (l : string) (fo : list (string * json)) :
  NoDup (map fst fo) ->
  (lookup l fo = None -> inherited l = false /\ lookup "__proto__" fo = None) ->
  read l (parse_frame (JObj fo))
  = match lookup l fo with
    | Some v => Own (wrap_values v)
    | None => Absent
    end.
Proof.
  intros Hnd Hnone. unfold read.
  rewrite !(parse_frame_lookup _ fo Hnd).
  destruct (lookup l fo) as [v|]; cbn [option_map]; [reflexivity|].
  destruct (Hnone eq_refl) as [-> ->]. reflexivity.
Qed.

(** The document after the current frame has been rewritten into [fo2],
    and the value then shown for a non-constant node. *)
Lemma frame_entry_rewritten (o : list (string * json)) (st : ChgState.t) (cf l : string)
      (fo fo2 : list (string * json)) (d : ChgData) (n : ChgNode.t) :
  current_frame_object o cf fo ->
  NoDup (map fst fo2) ->
  (lookup l fo2 = None -> inherited l = false /\ lookup "__proto__" fo2 = None) ->
  _currentFrame st = Some cf -> cf <> "" ->
  parse_raw (JObj o) = Normal d ->
  shown_node d l = Some n ->
  is_const n = false ->
  exists d',
    parse_raw (JObj (set "frames" (JObj (set cf (JObj fo2) (frame_entries o))) o))
    = Normal d' /\
    shown_node d' l = Some n /\
    lookup cf (frames d') = Some (parse_frame (JObj fo2)) /\
    lookup l (parse_frame (JObj fo2)) = option_map wrap_values (lookup l fo2) /\
    displayed st d' l
    = Some (ChgDetailsProvider.Value
              match lookup l fo2 with
              | Some v => hd_error (wrap_values v)
              | None => ChgNode.value n
              end).
Proof.
  intros Hfr Hnd2 Hnone Hcur Hcf Hd Hshown Hc.
  destruct (parts_with_frames o (JObj (set cf (JObj fo2) (frame_entries o))) d Hd)
    as (d' & Hd' & HN' & _ & HF').
  pose proof (rewritten_frame o cf fo fo2 _ _ Hfr HF') as Hframe.
  assert (Hs' : shown_node d' l = Some n).
  { unfold shown_node. rewrite HN'. exact Hshown. }
  exists d'. split; [exact Hd'|]. split; [exact Hs'|]. split; [exact Hframe|].
  split; [now apply parse_frame_lookup|].
  unfold displayed. rewrite Hs'. cbn [option_map]. f_equal.
  rewrite (display_of st _ d' cf _ n Hcur Hcf Hd' Hframe), Hc.
  assert (El : ChgNode.label n = l).
  { unfold shown_node in Hshown. apply find_some in Hshown as [_ E].
    now apply String.eqb_eq in E. }
  rewrite El, (read_parsed_frame l fo2 Hnd2 Hnone).
  destruct (lookup l fo2); reflexivity.
Qed.

Section WithHost.
Variable Number : string -> number.
Variable refuses : string -> string -> bool.

(** X21.  Editing the value of the node shown in the details view, with a
    current frame (not [__proto__]) that is an object of the document, and
    a text [Number] does not read as a fraction: the edit goes through.
    In the re-parsed model the coerced text is the [value] of a constant
    node, the frames being as before; for a non-constant node (its label
    not [__proto__]) it is the one-element entry of the node in the
    current frame, [node.value] being as before.  After the reload the
    view shows it.  Clearing the field removes the value of a constant
    node, and removes the entry of a non-constant node, whose legacy
    [node.value] then shows through where the label names no member of
    [Object.prototype] and the frame has no key [__proto__]. *)
Theorem edited_value_is_shown
        (o : list (string * json)) (st : ChgState.t) (cf l : string)
        (fo : list (string * json)) (text : string) (v : JS.value)
        (d : ChgData) (n : ChgNode.t) :
  plain o = true ->
  ~ In JNull (NormalizerSpec.raw_nodes (JObj o)) ->
  current_frame_object o cf fo ->
  _currentFrame st = Some cf -> cf <> "" -> cf <> "__proto__" ->
  parse_raw (JObj o) = Normal d ->
  shown_node d l = Some n ->
  entered Number text = Some v ->
  (is_const n = false ->
   l <> "__proto__" /\
   (v = None -> inherited l = false /\ lookup "__proto__" fo = None)) ->
  exists raw' d' n' fr',
    _updateNode_value Number refuses st (JObj o) l (JStr text) = Normal (Some raw') /\
    parse_raw raw' = Normal d' /\
    shown_node d' l = Some n' /\
    lookup cf (frames d') = Some fr' /\
    (if is_const n
     then ChgNode.value n' = v /\ frames d' = frames d
     else ChgNode.value n' = ChgNode.value n /\
          lookup l fr' = option_map (fun c => [c]) v) /\
    displayed st d' l
    = Some (ChgDetailsProvider.Value
              match v with
              | Some c => Some c
              | None => if is_const n then undefined else ChgNode.value n
              end).
Proof.
  intros Hp Hnn Hfr Hcur Hcf _ Hd Hshown Hent Hlabel.
  change (NormalizerSpec.raw_nodes (JObj o)) with (array_of (part "nodes" o)) in Hnn.
  destruct (shown_node_raw o d l n Hp Hnn Hd Hshown)
    as (i & no & Hget & Hfind & Hnth & Hl & Hn).
  pose proof (is_const_node_of no l) as Hconst. rewrite <- Hn in Hconst.
  unfold _updateNode_value. rewrite Hget. cbn [bind]. rewrite Hfind. cbn [bind].
  rewrite (nth_of_nth_error _ _ _ JNull Hnth). cbn [get bind].
  rewrite <- Hconst.
  change (String_ (JStr text)) with (Normal text). cbn [bind].
  unfold entered in Hent.
  destruct (is_const n) eqn:Ec.
  - (* a constant node: the value is kept in the node *)
    destruct (lookup_assigned "value" v no) as (no' & Hg & Hv & Hk).
    destruct (edited_model o o d l (assign "value" v) i no no' Hp Hnn Hd Hfind Hnth Hg)
      as (o' & d' & Hput & Hd' & Hs' & _ & HF'); [rewrite Hk by discriminate; exact Hl | auto |].
    pose proof (kept_frame o cf fo _ _ Hfr HF') as Hframe.
    exists (JObj o'), d', (node_of no' l), (parse_frame (JObj fo)).
    split.
    { destruct (String.eqb text ""); [injection Hent as <-; now rewrite Hput|].
      destruct (coerceValue Number text) as [c|]; [|discriminate].
      injection Hent as <-. cbn [option_map]. now rewrite Hput. }
    split; [exact Hd'|]. split; [exact Hs'|]. split; [exact Hframe|].
    split.
    { split; [exact Hv|].
      destruct (parsed_parts o d Hd) as (_ & _ & HF). rewrite HF in HF'.
      now injection HF'. }
    unfold displayed. rewrite Hs'. cbn [option_map]. f_equal.
    rewrite (display_of st _ d' cf _ _ Hcur Hcf Hd' Hframe).
    rewrite is_const_node_of, !Hk by discriminate. rewrite <- Hconst.
    cbn [node_of ChgNode.value]. rewrite Hv. destruct v; reflexivity.
  - (* a non-constant node: the value is kept in the current frame *)
    destruct (Hlabel eq_refl) as [Hproto Hclear].
    rewrite Hcur. cbn [truthy_str]. apply String.eqb_neq in Hcf as Hcf'. rewrite Hcf'.
    cbn [negb]. destruct Hfr as (Hnd & Hfo & Hnd2).
    pose proof (frame_entries_object o cf _ Hfo) as Ef.
    destruct (String.eqb text "") eqn:Es.
    + injection Hent as <-. destruct (Hclear eq_refl) as [Hi Hp0].
      destruct (frame_entry_rewritten o st cf l fo (delete l fo) d n)
        as (d' & Hd' & Hs' & Hframe & Hentry & Hdisp);
        auto using distinct_keys_delete.
      { repeat split; assumption. }
      { intros _. split; [exact Hi|]. now rewrite lookup_delete_other. }
      exists (JObj (set "frames" (JObj (set cf (JObj (delete l fo)) (frame_entries o))) o)),
        d', n, (parse_frame (JObj (delete l fo))).
      split.
      { unfold clear_frame_entry. rewrite Ef. cbn [truthy]. rewrite Hfo. reflexivity. }
      split; [exact Hd'|]. split; [exact Hs'|]. split; [exact Hframe|].
      rewrite Hentry, Hdisp, lookup_delete_same. auto.
    + destruct (coerceValue Number text) as [c|]; [|discriminate].
      injection Hent as <-.
      destruct (frame_entry_rewritten o st cf l fo (put l (JArr [c]) fo) d n)
        as (d' & Hd' & Hs' & Hframe & Hentry & Hdisp);
        auto using distinct_keys_put.
      { repeat split; assumption. }
      { rewrite (lookup_put_same l _ fo Hproto). discriminate. }
      exists (JObj (set "frames"
                      (JObj (set cf (JObj (put l (JArr [c]) fo)) (frame_entries o))) o)),
        d', n, (parse_frame (JObj (put l (JArr [c]) fo))).
      split.
      { unfold ChgSimulateProvider.write_frame_entry. rewrite Ef. cbn [truthy].
        rewrite Hfo. reflexivity. }
      split; [exact Hd'|]. split; [exact Hs'|]. split; [exact Hframe|].
      rewrite Hentry, Hdisp, (lookup_put_same l _ fo Hproto). auto.
Qed.

End WithHost.

Lemma edited_value_is_shown_witness :
  let st := viewing None "f" in
  exists d n,
    parse_raw (JObj details_props) = Normal d /\
    shown_node d "x" = Some n /\
    exists raw' d' n' fr',
      _updateNode_value reads_five (fun _ _ => false) st (JObj details_props) "x"
        (JStr "5") = Normal (Some raw') /\
      parse_raw raw' = Normal d' /\
      shown_node d' "x" = Some n' /\
      lookup "f" (frames d') = Some fr' /\
      (if is_const n
       then ChgNode.value n' = Some (JNum 5) /\ frames d' = frames d
       else ChgNode.value n' = ChgNode.value n /\ lookup "x" fr' = Some [JNum 5]) /\
      displayed st d' "x" = Some (ChgDetailsProvider.Value (Some (JNum 5))).
Proof.
  intros st. do 2 eexists. split; [reflexivity|]. split; [reflexivity|].
  eapply (edited_value_is_shown reads_five (fun _ _ => false) details_props st "f" "x"
            [("x", JArr [JNum 3])] "5" (Some (JNum 5))).
  - reflexivity.
  - cbn. intuition discriminate.
  - split; [|split]; [| reflexivity |]; cbn; repeat constructor; cbn; intuition discriminate.
  - reflexivity.
  - discriminate.
  - discriminate.
  - reflexivity.
  - reflexivity.
  - reflexivity.
  - intros _. split; [discriminate | discriminate].
Defined.

(** The raw node after [_updateNode] has set or removed its value and
    rewritten its two constant flags. *)
Lemma flags_rewritten (v : option JS.value) (flag : JS.value) (no : list (string * json)) :
  exists no',
    assign "constant" undefined
      (assign "is_constant" flag
         (match v with
          | Some x => assign "value" x (JObj no)
          | None => JObj no
          end)) = JObj no' /\
    lookup "label" no' = lookup "label" no /\
    lookup "value" no' = match v with Some x => x | None => lookup "value" no end /\
    lookup "is_constant" no' = flag /\
    lookup "constant" no' = None.
Proof.
  assert (H0 : exists no0,
             match v with Some x => assign "value" x (JObj no) | None => JObj no end
             = JObj no0 /\
             lookup "label" no0 = lookup "label" no /\
             lookup "value" no0 = match v with Some x => x | None => lookup "value" no end).
  { destruct v as [x|]; [|eauto].
    destruct (lookup_assigned "value" x no) as (no0 & E & Hv & Hk).
    exists no0. rewrite Hk by discriminate. auto. }
  destruct H0 as (no0 & -> & Hl0 & Hv0).
  destruct (lookup_assigned "is_constant" flag no0) as (no1 & -> & Hf1 & Hk1).
  destruct (lookup_assigned "constant" undefined no1) as (no2 & -> & Hf2 & Hk2).
  exists no2. split; [reflexivity|].
  rewrite !Hk2, !Hk1 by discriminate. auto.
Qed.

Section Toggle.
Variable refuses : string -> string -> bool.

(** X22.  Toggling the constant flag of the node shown in the details
    view, with a current frame (not [__proto__]) that is an object of the
    document and a label other than [__proto__] which, where the frame has
    no entry for it, names no member of [Object.prototype] (the frame then
    having no key [__proto__]): the edit goes through, the flag the parser
    reads is flipped, and the value the view shows after the reload is the
    one it showed before.  Becoming constant, the node's entry of the
    current frame (its first element when an array) is pulled into
    [node.value] and the entry is gone; becoming non-constant, a non-empty
    [node.value] is pushed into the current frame as a one-element entry
    and [node.value] is gone.  (A constant node with an empty value is
    covered where the current frame holds no entry for it.) *)
Theorem constant_toggle_keeps_the_shown_value
        (o : list (string * json)) (st : ChgState.t) (cf l : string)
        (fo : list (string * json)) (value : json) (d : ChgData) (n : ChgNode.t) :
  plain o = true ->
  ~ In JNull (NormalizerSpec.raw_nodes (JObj o)) ->
  current_frame_object o cf fo ->
  _currentFrame st = Some cf -> cf <> "" -> cf <> "__proto__" ->
  parse_raw (JObj o) = Normal d ->
  shown_node d l = Some n ->
  is_const n = negb (truthy (Some value)) ->
  l <> "__proto__" ->
  (lookup l fo = None -> inherited l = false /\ lookup "__proto__" fo = None) ->
  (truthy (Some value) = false ->
   ChgSimulateProvider.has_content (ChgNode.value n) = true \/ lookup l fo = None) ->
  exists raw' d' n' fr',
    _updateNode_constant refuses st (JObj o) l value = Normal (Some raw') /\
    parse_raw raw' = Normal d' /\
    shown_node d' l = Some n' /\
    is_const n' = truthy (Some value) /\
    lookup cf (frames d') = Some fr' /\
    (if truthy (Some value)
     then ChgNode.value n'
          = match lookup l fo with
            | Some vals => hd_error (wrap_values vals)
            | None => ChgNode.value n
            end /\
          lookup l fr' = None
     else if ChgSimulateProvider.has_content (ChgNode.value n)
          then ChgNode.value n' = undefined /\
               lookup l fr' = option_map (fun v => [v]) (ChgNode.value n)
          else ChgNode.value n' = ChgNode.value n /\ lookup l fr' = None) /\
    displayed st d' l = displayed st d l.
Proof.
  intros Hp Hnn Hfr Hcur Hcf _ Hd Hshown Htoggle Hproto Hnone Hstale.
  change (NormalizerSpec.raw_nodes (JObj o)) with (array_of (part "nodes" o)) in Hnn.
  destruct (shown_node_raw o d l n Hp Hnn Hd Hshown)
    as (i & no & Hget & Hfind & Hnth & Hl & Hn).
  assert (El : ChgNode.label n = l) by (subst n; reflexivity).
  assert (Hvalue : ChgNode.value n = lookup "value" no) by (subst n; reflexivity).
  (* what is shown before *)
  assert (Hbefore : displayed st d l
                    = Some (ChgDetailsProvider.Value
                              (if is_const n then ChgNode.value n
                               else match lookup l fo with
                                    | Some v => hd_error (wrap_values v)
                                    | None => ChgNode.value n
                                    end))).
  { unfold displayed. rewrite Hshown. cbn [option_map]. f_equal.
    rewrite (display_of st _ d cf _ n Hcur Hcf Hd (model_frame o d cf fo Hfr Hd)).
    destruct (is_const n); [reflexivity|].
    destruct Hfr as (_ & _ & Hnd2). rewrite El, (read_parsed_frame l fo Hnd2 Hnone).
    destruct (lookup l fo); reflexivity. }
  (* the model after an edit of the node and possibly of the frame *)
  assert (Hafter : forall o2 fo2 g no',
             (o2 = o /\ fo2 = fo \/
              o2 = set "frames" (JObj (set cf (JObj fo2) (frame_entries o))) o) ->
             NoDup (map fst fo2) ->
             g (JObj no) = JObj no' ->
             lookup "label" no' = Some (JStr l) ->
             (truthy (coalesce (lookup "is_constant" no') (lookup "constant" no')) = false ->
              lookup l fo2 = None ->
              inherited l = false /\ lookup "__proto__" fo2 = None) ->
             exists o' d',
               put_mutable_array "nodes" (JObj o2)
                 (update_nth i g (array_of (part "nodes" o))) = JObj o' /\
               parse_raw (JObj o') = Normal d' /\
               shown_node d' l = Some (node_of no' l) /\
               lookup cf (frames d') = Some (parse_frame (JObj fo2)) /\
               lookup l (parse_frame (JObj fo2)) = option_map wrap_values (lookup l fo2) /\
               displayed st d' l
               = Some (ChgDetailsProvider.Value
                         (if truthy (coalesce (lookup "is_constant" no')
                                              (lookup "constant" no'))
                          then lookup "value" no'
                          else match lookup l fo2 with
                               | Some v => hd_error (wrap_values v)
                               | None => lookup "value" no'
                               end))).
  { intros o2 fo2 g no' Ho2 Hnd2 Hg Hl' Hnone2.
    destruct (edited_model o o2 d l g i no no' Hp Hnn Hd Hfind Hnth Hg Hl')
      as (o' & d' & Hput & Hd' & Hs' & _ & HF').
    { destruct Ho2 as [[-> _] | ->]; eauto. }
    exists o', d'. split; [exact Hput|]. split; [exact Hd'|]. split; [exact Hs'|].
    assert (Hframe : lookup cf (frames d') = Some (parse_frame (JObj fo2))).
    { destruct Ho2 as [[-> ->] | ->].
      - exact (kept_frame o cf fo _ _ Hfr HF').
      - rewrite lookup_set_same in HF'. exact (rewritten_frame o cf fo fo2 _ _ Hfr HF'). }
    split; [exact Hframe|]. split; [now apply parse_frame_lookup|].
    unfold displayed. rewrite Hs'. cbn [option_map]. f_equal.
    rewrite (display_of st _ d' cf _ _ Hcur Hcf Hd' Hframe), is_const_node_of.
    cbn [node_of ChgNode.value ChgNode.label].
    destruct (truthy (coalesce (lookup "is_constant" no') (lookup "constant" no')));
      [reflexivity|].
    rewrite (read_parsed_frame l fo2 Hnd2 (Hnone2 eq_refl)).
    destruct (lookup l fo2); reflexivity. }
  pose proof (is_const_node_of no l) as Hconst. rewrite <- Hn in Hconst.
  destruct Hfr as (Hnd & Hfo & Hndo).
  pose proof (frame_entries_object o cf _ Hfo) as Ef.
  unfold _updateNode_constant. rewrite Hget. cbn [bind]. rewrite Hfind. cbn [bind].
  rewrite (nth_of_nth_error _ _ _ JNull Hnth). rewrite Hbefore, Htoggle.
  apply String.eqb_neq in Hcf as Hcf'.
  destruct (truthy (Some value)) eqn:Eb; cbn [negb].
  - (* becoming constant *)
    rewrite Hcur. cbn [truthy_str]. rewrite Hcf'. cbn [negb].
    unfold frame_value, member_of. rewrite Ef. cbn [nullish get_prop]. rewrite Hfo.
    cbn [nullish get_prop].
    destruct (lookup l fo) as [vals|] eqn:Ev.
    + unfold drop_frame_value. rewrite Ef. cbn [get_prop]. rewrite Hfo.
      cbn [delete_prop bind put_prop].
      destruct (flags_rewritten
                  (Some match vals with JArr items => hd_error items | _ => Some vals end)
                  (Some (JBool true)) no) as (no' & Hg & Hl' & Hv' & Hic & Hc).
      destruct (Hafter _ (delete l fo)
                       (fun x => assign "constant" undefined
                                   (assign "is_constant" (Some (JBool true))
                                      (assign "value"
                                         match vals with
                                         | JArr items => hd_error items
                                         | _ => Some vals
                                         end x)))
                       no' (or_intror eq_refl)
                       (distinct_keys_delete l fo Hndo) Hg)
        as (o' & d' & Hput & Hd' & Hs' & Hframe & Hentry & Hdisp); [congruence | |].
      { rewrite Hic, Hc. discriminate. }
      exists (JObj o'), d', (node_of no' l), (parse_frame (JObj (delete l fo))).
      split; [exact (f_equal (fun x => Normal (Some x)) Hput)|].
      split; [exact Hd'|]. split; [exact Hs'|].
      rewrite is_const_node_of, Hdisp, Hic, Hc, Hentry, lookup_delete_same.
      cbn [coalesce nullish truthy node_of ChgNode.value option_map]. rewrite Hv'.
      split; [reflexivity|]. split; [exact Hframe|].
      split; [split; [|reflexivity] |]; destruct vals; reflexivity.
    + destruct (Hnone eq_refl) as [Hi Hp0]. rewrite Hi.
      destruct (flags_rewritten None (Some (JBool true)) no)
        as (no' & Hg & Hl' & Hv' & Hic & Hc).
      destruct (Hafter o fo
                       (fun x => assign "constant" undefined
                                   (assign "is_constant" (Some (JBool true)) x))
                       no' (or_introl (conj eq_refl eq_refl)) Hndo Hg)
        as (o' & d' & Hput & Hd' & Hs' & Hframe & Hentry & Hdisp); [congruence | |].
      { rewrite Hic, Hc. discriminate. }
      exists (JObj o'), d', (node_of no' l), (parse_frame (JObj fo)).
      split; [exact (f_equal (fun x => Normal (Some x)) Hput)|].
      split; [exact Hd'|]. split; [exact Hs'|].
      rewrite is_const_node_of, Hdisp, Hic, Hc, Hentry, Ev.
      cbn [coalesce nullish truthy node_of ChgNode.value option_map]. rewrite Hv'.
      split; [reflexivity|]. split; [exact Hframe|].
      rewrite Hvalue. auto.
  - (* becoming non-constant *)
    cbn [get bind]. rewrite <- Hvalue.
    destruct (ChgSimulateProvider.has_content (ChgNode.value n)) eqn:Hc.
    + rewrite Hcur. unfold ChgSimulateProvider.write_frame_entry.
      rewrite Ef. cbn [truthy]. rewrite Hfo. cbn [bind].
      destruct (flags_rewritten (Some undefined) undefined no)
        as (no' & Hg & Hl' & Hv' & Hic & Hcn).
      set (c := JArr [match ChgNode.value n with
                      | Some v => v
                      | None => JNull
                      end]).
      destruct (Hafter _ (put l c fo)
                       (fun x => assign "constant" undefined
                                   (assign "is_constant" undefined
                                      (assign "value" undefined x)))
                       no' (or_intror eq_refl)
                       (distinct_keys_put l _ fo Hndo) Hg)
        as (o' & d' & Hput & Hd' & Hs' & Hframe & Hentry & Hdisp); [congruence | |].
      { intros _. rewrite (lookup_put_same l c fo Hproto). discriminate. }
      exists (JObj o'), d', (node_of no' l), (parse_frame (JObj (put l c fo))).
      split; [exact (f_equal (fun x => Normal (Some x)) Hput)|].
      split; [exact Hd'|]. split; [exact Hs'|].
      rewrite is_const_node_of, Hdisp, Hic, Hcn, Hentry, (lookup_put_same l c fo Hproto).
      cbn [coalesce nullish truthy node_of ChgNode.value option_map]. rewrite Hv'.
      subst c. cbn [wrap_values hd_error].
      split; [reflexivity|]. split; [exact Hframe|].
      destruct (ChgNode.value n) as [x|]; [auto | discriminate].
    + destruct (Hstale eq_refl) as [H | Hnone']; [discriminate|].
      destruct (flags_rewritten None undefined no)
        as (no' & Hg & Hl' & Hv' & Hic & Hcn).
      destruct (Hafter o fo
                       (fun x => assign "constant" undefined
                                   (assign "is_constant" undefined x))
                       no' (or_introl (conj eq_refl eq_refl)) Hndo Hg)
        as (o' & d' & Hput & Hd' & Hs' & Hframe & Hentry & Hdisp); [congruence | |].
      { intros _ _. exact (Hnone Hnone'). }
      exists (JObj o'), d', (node_of no' l), (parse_frame (JObj fo)).
      split; [exact (f_equal (fun x => Normal (Some x)) Hput)|].
      split; [exact Hd'|]. split; [exact Hs'|].
      rewrite is_const_node_of, Hdisp, Hic, Hcn, Hentry, Hnone'.
      cbn [coalesce nullish truthy node_of ChgNode.value option_map]. rewrite Hv'.
      split; [reflexivity|]. split; [exact Hframe|].
      rewrite Hvalue. auto.
Qed.

End Toggle.

Lemma constant_toggle_keeps_the_shown_value_witness :
  let st := viewing None "f" in
  exists d n,
    parse_raw (JObj details_props) = Normal d /\
    shown_node d "x" = Some n /\
    exists raw' d' n' fr',
      _updateNode_constant (fun _ _ => false) st (JObj details_props) "x" (JBool true)
      = Normal (Some raw') /\
      parse_raw raw' = Normal d' /\
      shown_node d' "x" = Some n' /\
      is_const n' = true /\
      lookup "f" (frames d') = Some fr' /\
      (ChgNode.value n' = Some (JNum 3) /\ lookup "x" fr' = None) /\
      displayed st d' "x" = displayed st d "x".
Proof.
  intros st. do 2 eexists. split; [reflexivity|]. split; [reflexivity|].
  eapply (constant_toggle_keeps_the_shown_value (fun _ _ => false) details_props st
            "f" "x" [("x", JArr [JNum 3])] (JBool true)).
  - reflexivity.
  - cbn. intuition discriminate.
  - split; [|split]; [| reflexivity |]; cbn; repeat constructor; cbn; intuition discriminate.
  - reflexivity.
  - discriminate.
  - discriminate.
  - reflexivity.
  - reflexivity.
  - reflexivity.
  - discriminate.
  - discriminate.
  - intros H. discriminate.
Defined.

End DetailsEditFacts.

(** ** Renaming a node to the label it has *)

Module SameLabelFacts.
Import OperationsSpec.
Import Normalizer ChgState Raw Props ChgOperationsProvider ChgDetailsProvider JSFacts
       OperationsFacts.

Lemma set_same_value {A} (k : string) (v : A) (o : list (string * A)) :
  lookup k o = Some v -> set k v o = o.
Proof.
  induction o as [|[k' v'] o IH]; cbn [lookup set]; [discriminate|].
  destruct (String.eqb k' k); [now intros [= ->] | intros H; now rewrite IH].
Qed.

Lemma delete_absent {A} (k : string) (o : list (string * A)) :
  lookup k o = None -> delete k o = o.
Proof.
  unfold delete. induction o as [|[k' v'] o IH]; cbn [lookup filter fst]; [reflexivity|].
  destruct (String.eqb k' k); [discriminate | intros H; cbn [negb]; now rewrite IH].
Qed.

Lemma rename_ref_same (l : string) (items : list json) :
  map (rename_ref l l) items = items.
Proof.
  induction items as [|s items IH]; cbn [map]; [reflexivity|]. rewrite IH. f_equal.
  unfold rename_ref. destruct s as [| b | z | s | its | o]; try reflexivity.
  cbn [strict_eq_str]. destruct (String.eqb s l) eqn:E; [|reflexivity].
  apply String.eqb_eq in E. now subst.
Qed.

Lemma rename_edge_same (l : string) (e : json) :
  e <> JNull -> rename_edge l l e = Normal e.
Proof.
  intros He. destruct e as [| b | z | s | its | o]; try reflexivity; [contradiction|].
  unfold rename_edge.
  assert (H1 : match lookup "source_nodes" o with
               | Some (JArr items) =>
                   set "source_nodes" (JArr (map (rename_ref l l) items)) o
               | _ => o
               end = o).
  { destruct (lookup "source_nodes" o) as [[| b | z | s | items | o']|] eqn:E; auto.
    rewrite rename_ref_same. now apply set_same_value. }
  rewrite H1.
  assert (H2 : match lookup "sources" o with
               | Some (JArr items) => set "sources" (JArr (map (rename_ref l l) items)) o
               | _ => o
               end = o).
  { destruct (lookup "sources" o) as [[| b | z | s | items | o']|] eqn:E; auto.
    rewrite rename_ref_same. now apply set_same_value. }
  rewrite H2.
  destruct (lookup "target" o) as [[| b | z | s | items | o']|] eqn:E;
    cbn [strict_eq_str]; try reflexivity.
  destruct (String.eqb s l) eqn:Es; [|reflexivity].
  apply String.eqb_eq in Es. subst s. now rewrite set_same_value.
Qed.

Lemma rename_edges_same (l : string) (es : list json) :
  ~ In JNull es -> mapM (rename_edge l l) es = Normal es.
Proof.
  induction es as [|e es IH]; intros Hnn; [reflexivity|].
  cbn [mapM]. rewrite rename_edge_same, IH; [reflexivity | |].
  - intros H. apply Hnn. now right.
  - intros ->. apply Hnn. now left.
Qed.

Lemma rename_frame_same (l : string) (fo : list (string * json)) :
  rename_frame l l (JObj fo) = JObj (delete l fo).
Proof.
  unfold rename_frame, put. destruct (lookup l fo) as [v|] eqn:E.
  - now rewrite delete_set, String.eqb_refl.
  - rewrite (delete_absent l fo E).
    destruct (inherited l); [|reflexivity].
    destruct (String.eqb l "__proto__"); reflexivity.
Qed.

Lemma frames_renamed_same (l : string) (f : list (string * json)) :
  forallb (fun kv => is_object (snd kv)) f = true ->
  mapM_values (delete_prop l) f
  = Normal (map (fun kv => (fst kv, rename_frame l l (snd kv))) f).
Proof.
  induction f as [|[k v] f IH]; intros Hs; [reflexivity|].
  cbn [forallb snd] in Hs. apply andb_true_iff in Hs as [Hv Hs].
  destruct v as [| b | z | s | items | fo]; try discriminate.
  cbn [mapM_values delete_prop bind map fst snd]. rewrite (IH Hs). cbn [bind].
  now rewrite rename_frame_same.
Qed.

Lemma assign_same_label (l : string) (items : list json) (i : nat)
      (no : list (string * json)) :
  nth_error items i = Some (JObj no) ->
  lookup "label" no = Some (JStr l) ->
  update_nth i (assign "label" (Some (JStr l))) items = items.
Proof.
  revert i. induction items as [|x items IH]; intros [|i]; cbn [nth_error update_nth];
    try discriminate.
  - intros [= ->] Hl. cbn [assign]. now rewrite set_same_value.
  - intros Hnth Hl. now rewrite (IH i Hnth Hl).
Qed.

(** X23.  Renaming the shown node to the label it already has is not a
    no-op: nodes and edges of the re-parsed model are as before, but every
    frame has lost its entry for the node, because the entry is first
    copied onto itself and then deleted. *)
Theorem renaming_to_the_same_label_drops_frame_entries
        (o : list (string * json)) (st : ChgState.t) (l : string) (d : ChgData) :
  plain o = true ->
  ~ In JNull (NormalizerSpec.raw_nodes (JObj o)) ->
  ~ In JNull (array_of (part "edges" o)) ->
  frames_are_objects o = true ->
  parse_raw (JObj o) = Normal d ->
  In l (map ChgNode.label (nodes d)) ->
  exists raw' d',
    _updateNode_label st (JObj o) l (JStr l)
    = Normal (raw', setSelection st (Some NODE) (Some l)) /\
    parse_raw raw' = Normal d' /\
    nodes d' = nodes d /\ edges d' = edges d /\
    frameNames d' = frameNames d /\
    frames d' = map (without_entry l) (frames d) /\
    forall name fr, lookup name (frames d') = Some fr -> lookup l fr = None.
Proof.
  intros Hp Hnn Hne Hfo Hd Hin.
  change (NormalizerSpec.raw_nodes (JObj o)) with (array_of (part "nodes" o)) in Hnn.
  destruct (parsed_parts o d Hd) as (HN & HE & HF).
  pose proof (find_by_label_parsed l _ _ Hnn HN) as Hfind.
  destruct (find_by_label l (array_of (part "nodes" o))) as [[i|]|] eqn:Efind;
    try contradiction.
  clear Hfind.
  destruct (RawFacts.find_by_label_bound _ _ _ Efind) as (no & Hnth & Hl).
  assert (Hnonempty : array_of (part "nodes" o) <> []).
  { intros E. rewrite E in Hnth. destruct i; discriminate. }
  destruct (edit_array "nodes" o [] Hp) as (raw1 & _ & Hget1 & _); try discriminate.
  destruct (RawFacts.get_mutable_array_nonempty _ _ _ _ Hget1 Hnonempty) as (-> & _).
  destruct (edit_array "edges" o (array_of (part "edges" o)) Hp)
    as (raw2 & o3 & Hget2 & Hput2 & Hp3 & He3 & Hother3 & Hfr3); try discriminate.
  (* the frames *)
  assert (Hframes : exists o4,
             rename_frames l l (JObj o3) = JObj o4 /\
             plain o4 = true /\
             (forall k, k <> "frames" -> part k o4 = part k o3) /\
             parse_frames (lookup "frames" o4)
             = (map (without_entry l) (frames d), frameNames d)).
  { unfold frames_are_objects in Hfo. rewrite <- Hfr3 in Hfo, HF.
    unfold rename_frames.
    destruct (lookup "frames" o3) as [[| b | z | s | items | f]|] eqn:Ef;
      try discriminate; cbn [truthy].
    - exists o3. cbn in HF. injection HF as <- <-. rewrite Ef. repeat split; auto.
    - destruct (frames_scrubbed l f Hfo) as (f' & Hf' & Hfold).
      rewrite (frames_renamed_same l f Hfo) in Hf'. injection Hf' as <-.
      eexists. split; [reflexivity|]. split; [|split].
      + unfold plain in *.
        now rewrite (lookup_set_other "frames" "hypergraph") by discriminate.
      + intros k Hk. now apply part_set_frames.
      + rewrite lookup_set_same, parse_frames_object.
        rewrite parse_frames_object in HF.
        pose proof (Hfold [] []) as H. rewrite HF in H. exact H.
    - exists o3. cbn in HF. injection HF as <- <-. rewrite Ef. repeat split; auto. }
  destruct Hframes as (o4 & Hren & Hp4 & Hsame4 & Hpf4).
  destruct (edit_array "nodes" o4 (array_of (part "nodes" o)) Hp4)
    as (raw5 & o5 & Hget5 & Hput5 & _ & Hn5 & Hother5 & Hfr5); try discriminate.
  rewrite (Hsame4 "nodes"), (Hother3 "nodes") in Hget5 by discriminate.
  destruct (RawFacts.get_mutable_array_nonempty _ _ _ _ Hget5 Hnonempty) as (-> & _).
  destruct (parse_raw_object o5 (edges d)) as [d' Hd'].
  { rewrite (Hother5 "edges"), (Hsame4 "edges"), He3 by discriminate. exact HE. }
  exists (JObj o5), d'.
  destruct (parsed_parts o5 d' Hd') as (HN' & HE' & HF').
  rewrite Hn5 in HN'. cbn [array_of] in HN'. rewrite HN in HN'. injection HN' as HN'.
  rewrite (Hother5 "edges"), (Hsame4 "edges"), He3 in HE' by discriminate.
  cbn [array_of] in HE'. rewrite HE in HE'. injection HE' as HE'.
  rewrite Hfr5, Hpf4 in HF'. injection HF' as HF1 HF2.
  split.
  { unfold _updateNode_label, getNodes, getEdges. rewrite Hget1. cbn [bind].
    rewrite Efind. cbn [bind]. change (String_ (JStr l)) with (Normal l).
    cbn [bind]. rewrite Hget2. cbn [bind].
    rewrite (rename_edges_same l _ Hne). cbn [bind].
    rewrite Hput2, Hren, (assign_same_label l _ i no Hnth Hl), Hput5. reflexivity. }
  split; [exact Hd'|]. repeat (split; [auto|]).
  intros name fr. rewrite <- HF1, lookup_without_entry.
  destruct (lookup name (frames d)); cbn [option_map]; [|discriminate].
  intros [= <-]. apply lookup_delete_same.
Qed.

Lemma renaming_to_the_same_label_drops_frame_entries_witness :
  exists d,
    parse_raw (JObj small_props) = Normal d /\
    exists raw' d',
      _updateNode_label init (JObj small_props) "x" (JStr "x")
      = Normal (raw', setSelection init (Some NODE) (Some "x")) /\
      parse_raw raw' = Normal d' /\
      nodes d' = nodes d /\ edges d' = edges d /\
      frameNames d' = frameNames d /\
      frames d' = map (without_entry "x") (frames d) /\
      forall name fr, lookup name (frames d') = Some fr -> lookup "x" fr = None.
Proof.
  eexists. split; [reflexivity|].
  apply (renaming_to_the_same_label_drops_frame_entries small_props init "x");
    [ reflexivity | cbn; intuition discriminate | cbn; intuition discriminate
    | reflexivity | reflexivity | cbn; auto ].
Defined.

End SameLabelFacts.

(** ** Renaming the handle of a source *)

Module EdgeEditFacts.
Import EdgeEditSpec.
Import Normalizer ChgEdgeEdits JSFacts OperationsFacts.

Lemma source_at_keyed (h : string) (m : list (string * json)) :
  lookup h (map (fun s => (ChgSource.handle s, ChgSource.label s))
                (map (fun hl => ChgSource.mk (fst hl) (ToString (snd hl))) m))
  = option_map ToString (lookup h m).
Proof.
  induction m as [|[k v] m IH]; cbn [map lookup fst snd ChgSource.handle ChgSource.label];
    [reflexivity|].
  destruct (String.eqb k h); [reflexivity | exact IH].
Qed.

Lemma length_set {A} (k : string) (v : A) (m : list (string * A)) :
  List.length (set k v m)
  = match lookup k m with
    | Some _ => List.length m
    | None => S (List.length m)
    end.
Proof.
  induction m as [|[k' v'] m IH]; cbn [set lookup List.length]; [reflexivity|].
  destruct (String.eqb k' k); cbn [List.length]; [reflexivity|].
  rewrite IH. destruct (lookup k m); reflexivity.
Qed.

Lemma length_delete_present {A} (k : string) (v : A) (m : list (string * A)) :
  NoDup (map fst m) -> lookup k m = Some v ->
  S (List.length (delete k m)) = List.length m.
Proof.
  unfold delete. induction m as [|[k' v'] m IH]; cbn [map fst lookup filter List.length];
    intros Hnd Hl; [discriminate|].
  inversion Hnd as [|? ? Hk Hrest]; subst.
  destruct (String.eqb k' k) eqn:E; cbn [negb List.length].
  - apply String.eqb_eq in E. subst k'. f_equal.
    apply lookup_none_iff in Hk.
    change (filter (fun kv => negb (String.eqb (fst kv) k)) m) with (delete k m).
    now rewrite (SameLabelFacts.delete_absent k m Hk).
  - f_equal. now apply IH.
Qed.

Lemma length_put {A} (k : string) (v : A) (m : list (string * A)) :
  k <> "__proto__" ->
  List.length (put k v m)
  = match lookup k m with
    | Some _ => List.length m
    | None => S (List.length m)
    end.
Proof.
  intros Hk. unfold put. pose proof (length_set k v m) as Hs.
  destruct (lookup k m); [exact Hs|].
  apply String.eqb_neq in Hk. rewrite Hk.
  destruct (array_index k); [apply length_insert_index | exact Hs].
Qed.

Lemma values_set (k : string) (v x : json) (m : list (string * json)) :
  In x (map snd (set k v m)) -> x = v \/ In x (map snd m).
Proof.
  induction m as [|[k0 v0] m IH]; cbn [set map snd In]; [intuition|].
  destruct (String.eqb k0 k); cbn [map snd In]; intuition.
Qed.

Lemma values_insert_index (i : Z) (k : string) (v x : json) (m : list (string * json)) :
  In x (map snd (insert_index i k v m)) -> x = v \/ In x (map snd m).
Proof.
  induction m as [|[k0 v0] m IH]; cbn [insert_index map snd In]; [intuition|].
  destruct (array_index k0) as [j|]; [destruct (j <? i)%Z|]; cbn [map snd In];
    intuition.
Qed.

Lemma values_put (k : string) (v x : json) (m : list (string * json)) :
  In x (map snd (put k v m)) -> x = v \/ In x (map snd m).
Proof.
  unfold put. destruct (lookup k m); [apply values_set|].
  destruct (String.eqb k "__proto__"); [auto|].
  destruct (array_index k); [apply values_insert_index | apply values_set].
Qed.

Lemma values_delete (k : string) (x : json) (m : list (string * json)) :
  In x (map snd (delete k m)) -> In x (map snd m).
Proof.
  unfold delete. rewrite !in_map_iff. intros (kv & E & Hin).
  apply filter_In in Hin as [Hin _]. eauto.
Qed.

Lemma value_of_key (k : string) (v : json) (m : list (string * json)) :
  lookup k m = Some v -> In v (map snd m).
Proof.
  induction m as [|[k0 v0] m IH]; cbn [lookup map snd In]; [discriminate|].
  destruct (String.eqb k0 k); [intros [= ->]; now left | auto].
Qed.

(** X24.  Renaming the handle of a source of an edge whose [source_nodes]
    is keyed by handle (keys distinct, every source convertible to a
    string) to another, non-empty handle other than [__proto__]: in the
    re-parsed edge the source is found under the new handle and no longer
    under the old one, every other handle is as before, and label, target
    and weight are kept.  Nothing checks that the new handle is free: when
    it is taken, the source that held it is dropped and the edge has one
    source fewer. *)
Theorem renaming_a_handle_overwrites
        (eo m : list (string * json)) (l0 oldHandle newHandle : string) (v : json) :
  lookup "label" eo = Some (JStr l0) ->
  lookup "source_nodes" eo = Some (JObj m) ->
  NoDup (map fst m) ->
  existsb raises (map snd m) = false ->
  lookup oldHandle m = Some v ->
  newHandle <> "" -> newHandle <> oldHandle -> newHandle <> "__proto__" ->
  exists x x',
    parse_edge (JObj eo) = Normal [x] /\
    parse_edge (rename_source_key oldHandle newHandle (JObj eo)) = Normal [x'] /\
    ChgEdge.label x' = ChgEdge.label x /\
    ChgEdge.target x' = ChgEdge.target x /\
    ChgEdge.weight x' = ChgEdge.weight x /\
    source_at newHandle x' = source_at oldHandle x /\
    source_at oldHandle x' = None /\
    (forall h, h <> oldHandle -> h <> newHandle -> source_at h x' = source_at h x) /\
    List.length (ChgEdge.sources x')
    = match source_at newHandle x with
      | Some _ => List.length (ChgEdge.sources x) - 1
      | None => List.length (ChgEdge.sources x)
      end.
Proof.
  intros Hl Hsn Hnd Hr Hold Hne Hdiff Hproto.
  unfold rename_source_key. cbn [ChgState.truthy_str].
  apply String.eqb_neq in Hne as Hne'. apply String.eqb_neq in Hdiff as Hdiff'.
  rewrite Hne', Hdiff', Hsn, Hold. cbn [negb orb].
  assert (Hr' : existsb raises (map snd (delete oldHandle (put newHandle v m))) = false).
  { apply not_true_is_false. intros H. apply existsb_exists in H as (x & Hx & Hrx).
    apply values_delete, values_put in Hx.
    assert (Hin : In x (map snd m)).
    { destruct Hx as [-> | Hx]; [now apply (value_of_key oldHandle) | exact Hx]. }
    assert (Ht : existsb raises (map snd m) = true) by (apply existsb_exists; eauto).
    congruence. }
  rewrite !NormalizerFacts.parse_edge_object.
  unfold NormalizerSpec.raw_sources. cbn [get_opt].
  rewrite (lookup_set_other "source_nodes" "label"),
          (lookup_set_other "source_nodes" "weight"),
          (lookup_set_other "source_nodes" "cost"),
          (lookup_set_other "source_nodes" "constant"),
          (lookup_set_other "source_nodes" "sources"),
          (lookup_set_other "source_nodes" "target"),
          (lookup_set_other "source_nodes" "rel") by discriminate.
  rewrite lookup_set_same, Hl, Hsn.
  cbn [coalesce nullish NormalizerSpec.source_values]. rewrite Hr, Hr'.
  do 2 eexists. split; [reflexivity|]. split; [reflexivity|].
  cbn [ChgEdge.label ChgEdge.target ChgEdge.weight ChgEdge.sources].
  unfold source_at, NormalizerSpec.listed_sources.
  cbn [ChgEdge.sources entries]. rewrite !source_at_keyed.
  split; [reflexivity|]. split; [reflexivity|]. split; [reflexivity|].
  split; [|split; [|split]].
  - rewrite (lookup_delete_other oldHandle newHandle) by congruence.
    now rewrite lookup_put_same, Hold.
  - now rewrite lookup_delete_same.
  - intros h H1 H2. rewrite !source_at_keyed.
    rewrite (lookup_delete_other oldHandle h) by congruence.
    now rewrite (lookup_put_other newHandle h) by congruence.
  - rewrite !length_map.
    assert (Hold' : lookup oldHandle (put newHandle v m) = Some v).
    { rewrite lookup_put_other by congruence. exact Hold. }
    pose proof (length_delete_present oldHandle v _
                  (DetailsEditFacts.distinct_keys_put newHandle v m Hnd) Hold') as Hlen.
    rewrite length_put in Hlen by assumption.
    destruct (lookup newHandle m); cbn [option_map]; lia.
Qed.

Lemma renaming_a_handle_overwrites_witness :
  exists x x',
    parse_edge (JObj two_keyed_sources) = Normal [x] /\
    parse_edge (rename_source_key "a" "b" (JObj two_keyed_sources)) = Normal [x'] /\
    ChgEdge.label x' = ChgEdge.label x /\
    ChgEdge.target x' = ChgEdge.target x /\
    ChgEdge.weight x' = ChgEdge.weight x /\
    source_at "b" x' = source_at "a" x /\
    source_at "a" x' = None /\
    (forall h, h <> "a" -> h <> "b" -> source_at h x' = source_at h x) /\
    List.length (ChgEdge.sources x')
    = match source_at "b" x with
      | Some _ => List.length (ChgEdge.sources x) - 1
      | None => List.length (ChgEdge.sources x)
      end.
Proof.
  apply (renaming_a_handle_overwrites two_keyed_sources
           [("a", JStr "x"); ("b", JStr "y")] "e" "a" "b" (JStr "x")).
  - reflexivity.
  - reflexivity.
  - cbn. repeat constructor; cbn; intuition discriminate.
  - reflexivity.
  - reflexivity.
  - discriminate.
  - discriminate.
  - discriminate.
Defined.

End EdgeEditFacts.

(** ** Renaming a node in a document with array-form sources *)

Module RenameAllFacts.
Import OperationsSpec RenameAllSpec RenameSpec.
Import Normalizer ChgState Raw Props ChgOperationsProvider ChgDetailsProvider JSFacts
       OperationsFacts.

Lemma rename_edge_object (l m : string) (eo : list (string * json)) :
  exists eo',
    rename_edge l m (JObj eo) = Normal (JObj eo') /\
    lookup "source_nodes" eo' = rename_array l m (lookup "source_nodes" eo) /\
    lookup "sources" eo' = rename_array l m (lookup "sources" eo) /\
    lookup "target" eo'
    = (if strict_eq_str (lookup "target" eo) l then Some (JStr m) else lookup "target" eo) /\
    (forall k, k <> "source_nodes" -> k <> "sources" -> k <> "target" ->
               lookup k eo' = lookup k eo).
Proof.
  unfold rename_edge.
  set (o1 := match lookup "source_nodes" eo with
             | Some (JArr items) => set "source_nodes" (JArr (map (rename_ref l m) items)) eo
             | _ => eo
             end).
  set (o2 := match lookup "sources" o1 with
             | Some (JArr items) => set "sources" (JArr (map (rename_ref l m) items)) o1
             | _ => o1
             end).
  set (o3 := if strict_eq_str (lookup "target" o2) l then set "target" (JStr m) o2 else o2).
  assert (H1 : lookup "source_nodes" o1 = rename_array l m (lookup "source_nodes" eo) /\
               forall k, k <> "source_nodes" -> lookup k o1 = lookup k eo).
  { subst o1. destruct (lookup "source_nodes" eo) as [[| b | z | s | items | o']|] eqn:E;
      cbn [rename_array]; auto.
    split; [apply lookup_set_same | intros k Hk; apply lookup_set_other; congruence]. }
  destruct H1 as [H1 H1'].
  assert (H2 : lookup "sources" o2 = rename_array l m (lookup "sources" eo) /\
               forall k, k <> "sources" -> lookup k o2 = lookup k o1).
  { subst o2. rewrite <- (H1' "sources") by discriminate.
    destruct (lookup "sources" o1) as [[| b | z | s | items | o']|] eqn:E;
      cbn [rename_array]; auto.
    split; [apply lookup_set_same | intros k Hk; apply lookup_set_other; congruence]. }
  destruct H2 as [H2 H2'].
  assert (H3 : lookup "target" o3
               = (if strict_eq_str (lookup "target" eo) l
                  then Some (JStr m) else lookup "target" eo) /\
               forall k, k <> "target" -> lookup k o3 = lookup k o2).
  { subst o3. rewrite <- (H1' "target"), <- (H2' "target") by discriminate.
    destruct (strict_eq_str (lookup "target" o2) l); auto.
    split; [apply lookup_set_same | intros k Hk; apply lookup_set_other; congruence]. }
  destruct H3 as [H3 H3'].
  exists o3. split; [reflexivity|].
  split; [rewrite H3', H2' by discriminate; exact H1|].
  split; [rewrite H3' by discriminate; exact H2|].
  split; [exact H3|].
  intros k Ha Hb Hc. now rewrite H3', H2', H1'.
Qed.

Lemma renamed_sources (l m : string) (items : list json) (i : nat) :
  forallb is_string items = true ->
  map (fun hl => ChgSource.mk (fst hl) (ToString (snd hl)))
      (indexed_from i (map (rename_ref l m) items))
  = map (fun s => ChgSource.mk (ChgSource.handle s)
                    (if String.eqb (ChgSource.label s) l then m else ChgSource.label s))
        (map (fun hl => ChgSource.mk (fst hl) (ToString (snd hl))) (indexed_from i items)).
Proof.
  revert i. induction items as [|x items IH]; intros i Hs; [reflexivity|].
  cbn [forallb] in Hs. apply andb_true_iff in Hs as [Hx Hs].
  destruct x as [| b | z | s | its | o']; try discriminate.
  cbn [map indexed_from fst snd ChgSource.handle ChgSource.label].
  rewrite (IH (S i) Hs). f_equal.
  unfold rename_ref. cbn [strict_eq_str ToString].
  destruct (String.eqb s l); reflexivity.
Qed.

Lemma renamed_strings_listed (l m : string) (v : JS.value) :
  strings_listed v = true -> strings_listed (rename_array l m v) = true.
Proof.
  destruct v as [[| b | z | s | items | o']|]; try reflexivity; try discriminate.
  cbn [strings_listed rename_array]. intros Hs.
  apply forallb_forall. intros x Hx. apply in_map_iff in Hx as (y & <- & Hy).
  rewrite forallb_forall in Hs. specialize (Hs y Hy).
  destruct y; try discriminate. unfold rename_ref. cbn [strict_eq_str].
  destruct (String.eqb s l); reflexivity.
Qed.

Lemma parse_sources_renamed (l m : string) (v : JS.value) :
  strings_listed v = true ->
  NormalizerSpec.listed_sources (rename_array l m v)
  = map (fun s => ChgSource.mk (ChgSource.handle s)
                    (if String.eqb (ChgSource.label s) l then m else ChgSource.label s))
        (NormalizerSpec.listed_sources v).
Proof.
  destruct v as [[| b | z | s | items | o']|]; try reflexivity; try discriminate.
  intros Hs. cbn [rename_array NormalizerSpec.listed_sources entries].
  now apply renamed_sources.
Qed.

Lemma coalesce_renamed (l m : string) (a b : JS.value) :
  coalesce (rename_array l m a) (rename_array l m b) = rename_array l m (coalesce a b).
Proof.
  unfold coalesce. destruct a as [[| b0 | z | s | items | o']|]; reflexivity.
Qed.

Lemma parse_edge_renamed (l m : string) (e : json) (out : list ChgEdge.t) :
  l <> "" ->
  sources_listed e = true ->
  parse_edge e = Normal out ->
  exists e', rename_edge l m e = Normal e' /\ parse_edge e' = Normal (map (relabel l m) out).
Proof.
  intros Hl Hs Hp.
  destruct e as [| b | z | s | items | eo]; try discriminate;
    try (eexists; split; [reflexivity|]; injection Hp as <-; reflexivity).
  destruct (rename_edge_object l m eo) as (eo' & -> & Hsn & Hss & Ht & Hk).
  exists (JObj eo'). split; [reflexivity|].
  rewrite sources_listed_object in Hs.
  rewrite NormalizerFacts.parse_edge_object in *.
  unfold NormalizerSpec.raw_sources in *. cbn [get_opt] in *.
  rewrite Hsn, Hss, Ht, !Hk by discriminate.
  destruct (lookup "label" eo) as [[| b | z | s | items | o1]|];
    try (injection Hp as <-; reflexivity).
  rewrite coalesce_renamed.
  rewrite (listed_do_not_raise _ Hs) in Hp.
  rewrite (listed_do_not_raise _ (renamed_strings_listed l m _ Hs)).
  injection Hp as <-. f_equal.
  cbn [map relabel ChgEdge.label ChgEdge.weight ChgEdge.constant ChgEdge.sources
           ChgEdge.target ChgEdge.rel].
  rewrite (parse_sources_renamed l m _ Hs).
  assert (Ht' : match (if strict_eq_str (lookup "target" eo) l
                       then Some (JStr m) else lookup "target" eo) with
                | Some (JStr t) => t
                | _ => ""
                end
                = (if String.eqb match lookup "target" eo with
                                 | Some (JStr t) => t
                                 | _ => ""
                                 end l
                   then m
                   else match lookup "target" eo with
                        | Some (JStr t) => t
                        | _ => ""
                        end)).
  { assert (E : String.eqb "" l = false).
    { apply String.eqb_neq. congruence. }
    destruct (lookup "target" eo) as [[| b | z | t | items | o1]|];
      cbn [strict_eq_str]; rewrite ?E; try reflexivity.
    destruct (String.eqb t l); reflexivity. }
  rewrite Ht'. reflexivity.
Qed.

Lemma edges_renamed (l m : string) (es : list json) (out : list ChgEdge.t) :
  l <> "" ->
  forallb sources_listed es = true ->
  for_of parse_edge es = Normal out ->
  exists es',
    mapM (rename_edge l m) es = Normal es' /\
    for_of parse_edge es' = Normal (map (relabel l m) out).
Proof.
  intros Hl. revert out. induction es as [|e es IH]; intros out Hs Hp.
  - injection Hp as <-. exists []. split; reflexivity.
  - cbn [forallb] in Hs. apply andb_true_iff in Hs as [He Hs].
    cbn [for_of] in Hp.
    destruct (parse_edge e) as [o1|] eqn:E1; cbn [bind] in Hp; [|discriminate].
    destruct (for_of parse_edge es) as [o2|] eqn:E2; cbn [bind] in Hp; [|discriminate].
    injection Hp as <-.
    destruct (parse_edge_renamed l m e o1 Hl He E1) as (e' & He' & Hpe').
    destruct (IH o2 Hs eq_refl) as (es' & Hes' & Hpes').
    exists (e' :: es'). cbn [mapM for_of]. rewrite He', Hes', Hpe', Hpes'. cbn [bind].
    split; [reflexivity | now rewrite map_app].
Qed.

Lemma relabel_is_clean (l m : string) (e : ChgEdge.t) :
  m <> l -> edge_references l (relabel l m e) = false.
Proof.
  intros Hm. unfold edge_references, relabel. cbn [ChgEdge.target ChgEdge.sources].
  apply String.eqb_neq in Hm as Hm'.
  apply orb_false_iff. split.
  - destruct (String.eqb (ChgEdge.target e) l) eqn:E; [exact Hm' | exact E].
  - induction (ChgEdge.sources e) as [|s ss IH]; cbn [map existsb ChgSource.label];
      [reflexivity|].
    rewrite IH, orb_false_r.
    destruct (String.eqb (ChgSource.label s) l) eqn:E; [exact Hm' | exact E].
Qed.

Lemma relabel_follows (l m : string) (e : ChgEdge.t) :
  edge_references l e = true -> edge_references m (relabel l m e) = true.
Proof.
  unfold edge_references, relabel. cbn [ChgEdge.target ChgEdge.sources].
  intros H. apply orb_true_iff in H as [H | H]; apply orb_true_iff.
  - left. rewrite H. apply String.eqb_refl.
  - right. induction (ChgEdge.sources e) as [|s ss IH];
      cbn [map existsb ChgSource.label] in *; [discriminate|].
    apply orb_true_iff in H as [H | H]; apply orb_true_iff.
    + left. rewrite H. apply String.eqb_refl.
    + right. now apply IH.
Qed.

(** *** The nodes *)

Lemma nodes_relabelled (l m : string) (items : list json) (i : nat) (ns : list ChgNode.t) :
  ~ In JNull items ->
  find_by_label l items = Normal (Some i) ->
  for_of parse_node items = Normal ns ->
  for_of parse_node (update_nth i (assign "label" (Some (JStr m))) items)
  = Normal (relabel_first l m ns).
Proof.
  revert i ns. induction items as [|n items IH]; intros i ns Hnn Hfind Hp; [discriminate|].
  assert (Hn : n <> JNull) by (intros ->; apply Hnn; now left).
  assert (Hrest : ~ In JNull items) by (intros H; apply Hnn; now right).
  cbn [find_by_label] in Hfind. cbn [for_of] in Hp.
  destruct (get_label n l Hn) as [v [Hv Hiff]]. rewrite Hv in Hfind. cbn [bind] in Hfind.
  destruct (for_of parse_node items) as [outs|] eqn:Eo.
  2: { destruct (parse_node n); cbn in Hp; discriminate. }
  destruct (strict_eq_str v l) eqn:Es.
  - injection Hfind as <-.
    assert (El : label_of n = Some l) by (now apply Hiff).
    unfold label_of in El.
    destruct n as [| b | z | s | its | no]; try discriminate. cbn [get_opt] in El.
    destruct (lookup "label" no) as [[| b | z | s | its | o1]|] eqn:Elab; try discriminate.
    injection El as ->.
    rewrite (DetailsEditFacts.parse_node_object no l Elab) in Hp. cbn [bind app] in Hp.
    injection Hp as <-.
    cbn [update_nth for_of assign].
    rewrite (DetailsEditFacts.parse_node_object (set "label" (JStr m) no) m
               (lookup_set_same _ _ _)), Eo.
    cbn [bind app relabel_first DetailsEditSpec.node_of ChgNode.label].
    rewrite String.eqb_refl. unfold with_label, DetailsEditSpec.node_of.
    cbn [ChgNode.value ChgNode.is_constant ChgNode.description ChgNode.units
         ChgNode.constant].
    now rewrite !(lookup_set_other "label") by discriminate.
  - destruct (find_by_label l items) as [[j|]|] eqn:Ef; cbn [bind option_map] in Hfind;
      try discriminate.
    injection Hfind as <-. cbn [update_nth for_of].
    rewrite (IH j outs Hrest eq_refl eq_refl).
    assert (Hne : label_of n <> Some l).
    { intros H. apply Hiff in H. congruence. }
    pose proof (parse_node_by_label n) as Hpn.
    destruct (label_of n) as [l0|].
    + destruct Hpn as [x [Hx Hlx]]. rewrite Hx in *. cbn [bind app] in *.
      injection Hp as <-. cbn [relabel_first].
      assert (E : String.eqb (ChgNode.label x) l = false).
      { apply String.eqb_neq. congruence. }
      now rewrite E.
    + rewrite Hpn in *. cbn [bind app] in *. now injection Hp as <-.
Qed.

(** *** The frames *)

Lemma parse_frame_distinct (fo : list (string * json)) :
  NoDup (map fst fo) ->
  parse_frame (JObj fo) = map (fun kv => (fst kv, wrap_values (snd kv))) fo.
Proof.
  unfold parse_frame. cbn [entries]. intros Hnd.
  assert (Hgen : forall acc,
             (forall k, In k (map fst fo) -> lookup k acc = None) ->
             fold_left (fun acc nv => set (fst nv) (wrap_values (snd nv)) acc) fo acc
             = acc ++ map (fun kv => (fst kv, wrap_values (snd kv))) fo).
  { induction fo as [|[k v] fo IH]; intros acc Hacc; cbn [fold_left map fst snd].
    - now rewrite app_nil_r.
    - cbn [map fst] in Hnd. inversion Hnd as [|? ? Hk Hrest]; subst.
      rewrite (set_absent k _ acc) by (apply Hacc; now left).
      rewrite IH; [now rewrite <- app_assoc | exact Hrest |].
      intros k' Hk'. apply lookup_none_iff. rewrite map_app, in_app_iff.
      cbn [map fst In]. intros [H | [-> | []]].
      + apply (proj1 (lookup_none_iff k' acc)); [apply Hacc; now right | exact H].
      + contradiction. }
  apply (Hgen []). reflexivity.
Qed.

Lemma lookup_wrapped (k : string) (fo : list (string * json)) :
  lookup k (map (fun kv => (fst kv, wrap_values (snd kv))) fo)
  = option_map wrap_values (lookup k fo).
Proof.
  induction fo as [|[k' v] fo IH]; cbn [map lookup fst snd]; [reflexivity|].
  destruct (String.eqb k' k); [reflexivity | exact IH].
Qed.

Lemma set_wrapped (k : string) (v : json) (fo : list (string * json)) :
  map (fun kv => (fst kv, wrap_values (snd kv))) (set k v fo)
  = set k (wrap_values v) (map (fun kv => (fst kv, wrap_values (snd kv))) fo).
Proof.
  induction fo as [|[k' v'] fo IH]; cbn [map set fst snd]; [reflexivity|].
  destruct (String.eqb k' k); cbn [map fst snd]; [reflexivity | now rewrite IH].
Qed.

Lemma delete_wrapped (k : string) (fo : list (string * json)) :
  map (fun kv => (fst kv, wrap_values (snd kv))) (delete k fo)
  = delete k (map (fun kv => (fst kv, wrap_values (snd kv))) fo).
Proof.
  unfold delete. induction fo as [|[k' v'] fo IH]; cbn [map filter fst snd]; [reflexivity|].
  destruct (String.eqb k' k); cbn [negb map fst snd]; now rewrite IH.
Qed.

Lemma parse_frame_renamed (l m : string) (fo : list (string * json)) :
  inherited l = false -> ordinary m = true ->
  NoDup (map fst fo) ->
  exists fo',
    rename_frame l m (JObj fo) = JObj fo' /\
    parse_frame (JObj fo')
    = snd (moved_entry l m ("", parse_frame (JObj fo))).
Proof.
  intros Hl Hm Hnd. unfold rename_frame, moved_entry. cbn [snd].
  rewrite (parse_frame_distinct fo Hnd), lookup_wrapped, Hl.
  destruct (lookup l fo) as [v|] eqn:E; cbn [option_map].
  - eexists. split; [reflexivity|]. rewrite (put_ordinary m v fo Hm).
    rewrite parse_frame_distinct, delete_wrapped, set_wrapped; [reflexivity|].
    apply distinct_keys_delete. now apply DetailsEditFacts.distinct_keys_set.
  - eexists. split; [reflexivity|]. now apply parse_frame_distinct.
Qed.

Lemma set_moved_entry (l m name : string) (fr : list (string * list json))
      (fs : list (string * list (string * list json))) :
  set name (snd (moved_entry l m ("", fr))) (map (moved_entry l m) fs)
  = map (moved_entry l m) (set name fr fs).
Proof.
  unfold moved_entry. cbn [fst snd].
  induction fs as [|[k v] fs IH]; cbn [map set fst snd]; [reflexivity|].
  destruct (String.eqb k name); cbn [map fst snd]; [reflexivity|].
  now rewrite IH.
Qed.

Lemma frames_renamed (l m : string) (f : list (string * json)) :
  inherited l = false -> ordinary m = true ->
  forallb (fun kv => is_object (snd kv)) f = true ->
  Forall (fun kv => match snd kv with
                    | JObj fo => NoDup (map fst fo)
                    | _ => True
                    end) f ->
  forall fs ns,
    fold_left frame_step (map (fun kv => (fst kv, rename_frame l m (snd kv))) f)
              (map (moved_entry l m) fs, ns)
    = (map (moved_entry l m) (fst (fold_left frame_step f (fs, ns))),
       snd (fold_left frame_step f (fs, ns))).
Proof.
  intros Hl Hm.
  induction f as [|[k v] f IH]; intros Hs Hnd fs ns; [reflexivity|].
  cbn [forallb snd] in Hs. apply andb_true_iff in Hs as [Hv Hs].
  inversion Hnd as [|? ? Hk Hrest]; subst. cbn [snd] in Hk.
  destruct v as [| b | z | s | items | fo]; try discriminate.
  destruct (parse_frame_renamed l m fo Hl Hm Hk) as (fo' & Hfo' & Hpf).
  cbn [map fst snd fold_left]. rewrite Hfo'.
  cbn [frame_step truthy typeof_object andb].
  rewrite Hpf, set_moved_entry. now apply IH.
Qed.

(** X25.  Renaming the shown node to another label, in a well-formed
    document whose edges list their sources in arrays of strings (the
    [hypergraph] entry missing, [null] or an object; no [null] node; every
    frame an object with distinct keys), where the old label names no
    member of [Object.prototype] and the new label is the text typed,
    neither such a name nor an array index: the edit goes through and the
    selection follows the new label.  In the re-parsed model the first
    node of the old label carries the new one, every edge has its sources
    and target naming the old label renamed, so that no edge references
    the old label and every edge that did references the new one, and in
    every frame the entry of the old label has moved to the new label. *)
Theorem rename_reaches_every_listed_reference
        (o : list (string * json)) (st : ChgState.t) (l m : string) (d : ChgData) :
  plain o = true ->
  ~ In JNull (NormalizerSpec.raw_nodes (JObj o)) ->
  forallb sources_listed (array_of (part "edges" o)) = true ->
  frames_are_objects o = true ->
  frame_keys_distinct o ->
  parse_raw (JObj o) = Normal d ->
  In l (map ChgNode.label (nodes d)) ->
  l <> "" -> m <> l ->
  inherited l = false -> ordinary m = true ->
  exists raw' d',
    _updateNode_label st (JObj o) l (JStr m)
    = Normal (raw', setSelection st (Some NODE) (Some m)) /\
    parse_raw raw' = Normal d' /\
    nodes d' = relabel_first l m (nodes d) /\
    edges d' = map (relabel l m) (edges d) /\
    frames d' = map (moved_entry l m) (frames d) /\
    frameNames d' = frameNames d /\
    Forall (fun e => edge_references l e = false) (edges d') /\
    (forall e, In e (edges d) -> edge_references l e = true ->
               edge_references m (relabel l m e) = true) /\
    (forall name fr, lookup name (frames d') = Some fr -> lookup l fr = None).
Proof.
  intros Hp Hnn Hsl Hfo Hkd Hd Hin Hl Hm Hinh Hord.
  change (NormalizerSpec.raw_nodes (JObj o)) with (array_of (part "nodes" o)) in Hnn.
  destruct (parsed_parts o d Hd) as (HN & HE & HF).
  pose proof (find_by_label_parsed l _ _ Hnn HN) as Hfind.
  destruct (find_by_label l (array_of (part "nodes" o))) as [[i|]|] eqn:Efind;
    try contradiction.
  clear Hfind.
  destruct (RawFacts.find_by_label_bound _ _ _ Efind) as (no & Hnth & Hlab).
  assert (Hnonempty : array_of (part "nodes" o) <> []).
  { intros E. rewrite E in Hnth. destruct i; discriminate. }
  destruct (edit_array "nodes" o [] Hp) as (raw1 & _ & Hget1 & _); try discriminate.
  destruct (RawFacts.get_mutable_array_nonempty _ _ _ _ Hget1 Hnonempty) as (-> & _).
  destruct (edges_renamed l m _ _ Hl Hsl HE) as (es' & Hes' & Hpes').
  destruct (edit_array "edges" o es' Hp)
    as (raw2 & o3 & Hget2 & Hput2 & Hp3 & He3 & Hother3 & Hfr3); try discriminate.
  (* the frames *)
  assert (Hframes : exists o4,
             rename_frames l m (JObj o3) = JObj o4 /\
             plain o4 = true /\
             (forall k, k <> "frames" -> part k o4 = part k o3) /\
             parse_frames (lookup "frames" o4)
             = (map (moved_entry l m) (frames d), frameNames d)).
  { unfold frames_are_objects in Hfo. unfold frame_keys_distinct, frame_entries in Hkd.
    rewrite <- Hfr3 in Hfo, HF, Hkd. unfold rename_frames.
    destruct (lookup "frames" o3) as [[| b | z | s | items | f]|] eqn:Ef;
      try discriminate; cbn [truthy].
    - exists o3. cbn in HF. injection HF as <- <-. rewrite Ef. repeat split; auto.
    - eexists. split; [reflexivity|]. split; [|split].
      + unfold plain in *.
        now rewrite (lookup_set_other "frames" "hypergraph") by discriminate.
      + intros k Hk. now apply part_set_frames.
      + rewrite lookup_set_same, parse_frames_object.
        rewrite parse_frames_object in HF.
        pose proof (frames_renamed l m f Hinh Hord Hfo Hkd [] []) as H. rewrite HF in H. exact H.
    - exists o3. cbn in HF. injection HF as <- <-. rewrite Ef. repeat split; auto. }
  destruct Hframes as (o4 & Hren & Hp4 & Hsame4 & Hpf4).
  destruct (edit_array "nodes" o4
              (update_nth i (assign "label" (Some (JStr m))) (array_of (part "nodes" o))) Hp4)
    as (raw5 & o5 & Hget5 & Hput5 & _ & Hn5 & Hother5 & Hfr5); try discriminate.
  rewrite (Hsame4 "nodes"), (Hother3 "nodes") in Hget5 by discriminate.
  destruct (RawFacts.get_mutable_array_nonempty _ _ _ _ Hget5 Hnonempty) as (-> & _).
  destruct (parse_raw_object o5 (map (relabel l m) (edges d))) as [d' Hd'].
  { rewrite (Hother5 "edges"), (Hsame4 "edges"), He3 by discriminate. exact Hpes'. }
  exists (JObj o5), d'.
  destruct (parsed_parts o5 d' Hd') as (HN' & HE' & HF').
  rewrite Hn5 in HN'. cbn [array_of] in HN'.
  rewrite (nodes_relabelled l m _ i _ Hnn Efind HN) in HN'. injection HN' as HN'.
  rewrite (Hother5 "edges"), (Hsame4 "edges"), He3 in HE' by discriminate.
  cbn [array_of] in HE'. rewrite Hpes' in HE'. injection HE' as HE'.
  rewrite Hfr5, Hpf4 in HF'. injection HF' as HF1 HF2.
  split.
  { unfold _updateNode_label, getNodes, getEdges. rewrite Hget1. cbn [bind].
    rewrite Efind. cbn [bind]. change (String_ (JStr m)) with (Normal m).
    cbn [bind]. rewrite Hget2. cbn [bind].
    rewrite Hes'. cbn [bind]. rewrite Hput2, Hren, Hput5. reflexivity. }
  split; [exact Hd'|]. split; [auto|]. split; [auto|]. split; [auto|]. split; [auto|].
  split; [|split].
  - rewrite <- HE'. apply Forall_forall. intros e He.
    apply in_map_iff in He as (e0 & <- & _). now apply relabel_is_clean.
  - intros e _ He. now apply relabel_follows.
  - intros name fr. rewrite <- HF1.
    assert (Hlk : forall fs, lookup name (map (moved_entry l m) fs)
                             = option_map (fun x => snd (moved_entry l m ("", x)))
                                          (lookup name fs)).
    { induction fs as [|[k v] fs IH]; cbn [map lookup]; [reflexivity|].
      unfold moved_entry at 1. cbn [fst snd].
      destruct (String.eqb k name); [reflexivity | exact IH]. }
    rewrite Hlk. destruct (lookup name (frames d)) as [fr0|]; cbn [option_map];
      [|discriminate].
    intros [= <-]. unfold moved_entry. cbn [snd].
    destruct (lookup l fr0) eqn:E0; [apply lookup_delete_same | exact E0].
Qed.

Lemma rename_reaches_every_listed_reference_witness :
  exists d,
    parse_raw (JObj small_props) = Normal d /\
    exists raw' d',
      _updateNode_label init (JObj small_props) "x" (JStr "w")
      = Normal (raw', setSelection init (Some NODE) (Some "w")) /\
      parse_raw raw' = Normal d' /\
      nodes d' = relabel_first "x" "w" (nodes d) /\
      edges d' = map (relabel "x" "w") (edges d) /\
      frames d' = map (moved_entry "x" "w") (frames d) /\
      frameNames d' = frameNames d /\
      Forall (fun e => edge_references "x" e = false) (edges d') /\
      (forall e, In e (edges d) -> edge_references "x" e = true ->
                 edge_references "w"
                                 (relabel "x" "w" e) = true) /\
      (forall name fr, lookup name (frames d') = Some fr -> lookup "x" fr = None).
Proof.
  eexists. split; [reflexivity|].
  apply (rename_reaches_every_listed_reference small_props init "x" "w").
  - reflexivity.
  - cbn. intuition discriminate.
  - reflexivity.
  - reflexivity.
  - unfold frame_keys_distinct. cbn.
    repeat constructor; cbn; intuition discriminate.
  - reflexivity.
  - cbn. auto.
  - discriminate.
  - discriminate.
  - reflexivity.
  - reflexivity.
Defined.

End RenameAllFacts.
